(** * SnipScreen: a shallow embedding of the extension and its properties

    The development follows the modules of the extension:
    - [editor-utils.js]   : [throttle]
    - [editor.js]         : the [ScreenshotEditor] state, [redrawCanvas],
                            [isToolActive], [setToolActive],
                            [saveCanvasState], [restoreCanvasState]
    - [editor-init.js]    : [updateCanvasRect], [cleanup], [loadScreenshot]
                            (its [onload] continuation and the display
                            size), the listeners of [initializeTools]
    - [editor-events.js]  : [getMousePos], [handleMouseDown],
                            [handleMouseMove], [handleMouseUp],
                            [handleMouseLeave], [throttledDrawCropGuides],
                            [removeEditorEventListeners]
    - [editor-tools.js]   : [toggleTool], [completeCrop], [resetCropState],
                            [copyToClipboard], [saveImage] with the name
                            of the downloaded file, [tryDownload]
    - [editor-canvas.js]  : [drawCropGuides], [drawCornerHandles],
                            [prepareFinalCanvas]
    - [background.js]     : [debounce], [handleScreenshot],
                            [showNotification]

    Conventions of the embedding.
    - A JavaScript Number is an exact rational ([Q]); [==] is numeric
      equality.  Rounding error of IEEE doubles is outside the model:
      where the code rounds a product or a quotient of doubles (the
      source rectangle of a crop, the display size), the model rounds
      the exact value, and the two can differ at a tie.
    - Values that are integers by construction (canvas and image
      dimensions, results of [Math.round]) are kept in [Z].
    - [this] is the record [Editor.t], threaded explicitly; the DOM, the
      layout engine and the clock are the record [Env.t]; the browser seen
      by the service worker is [Background.Browser], its answers
      [Background.Answers].
    - The 2D canvas substrate is modelled by premultiplied RGBA pixels with
      source-over compositing and area coverage for fractional rectangles;
      the rasterisation of strokes is a parameter.
    - Toasts are kept as a log in the editor state.  Console output, CSS
      classes and transforms, animations and the spinner have no
      counterpart here.
    - A function that can raise returns [option] (or a sum); [async]
      functions run to completion, each awaited call answered by the
      environment. *)

From Stdlib Require Import ZArith QArith Qround Qabs Qminmax Lia Lqa Ascii String List Bool.
From Stdlib Require Import DecimalString DecimalZ.
From stdpp Require Import gmap strings.
Import ListNotations.

Local Open Scope Z_scope.
Local Open Scope Q_scope.

(* ===================================================================== *)
(** ** JavaScript numbers *)
(* ===================================================================== *)

Module Math.

(** [Math.round]: the nearest integer, ties towards +infinity. *)
Definition roundZ (q : Q) : Z := Qfloor (q + (1 # 2)).
Definition round (q : Q) : Q := inject_Z (roundZ q).

Definition min (a b : Q) : Q := Qmin a b.
Definition max (a b : Q) : Q := Qmax a b.
Definition abs (a : Q) : Q := Qabs a.

End Math.

(** Comparison operators of the language, as booleans. *)
Definition Qgtb (a b : Q) : bool := negb (Qle_bool a b).
Definition Qltb (a b : Q) : bool := negb (Qle_bool b a).
Definition Qleb (a b : Q) : bool := Qle_bool a b.

Abbreviation Zq := inject_Z.

(* ===================================================================== *)
(** ** The drawing substrate *)
(* ===================================================================== *)

(** Premultiplied RGBA, channels in [0,1]. *)
Module Rgba.

Record t := mk { r : Q; g : Q; b : Q; a : Q }.

Definition transparent : t := mk 0 0 0 0.
Definition black : t := mk 0 0 0 1.
Definition white : t := mk 1 1 1 1.

(** A source attenuated by a coverage factor. *)
Definition scale (k : Q) (c : t) : t :=
  mk (k * r c) (k * g c) (k * b c) (k * a c).

(** Source-over compositing. *)
Definition over (s d : t) : t :=
  mk (r s + r d * (1 - a s)) (g s + g d * (1 - a s))
     (b s + b d * (1 - a s)) (a s + a d * (1 - a s)).

Definition opaque (c : t) : Prop := a c == 1.

Definition eqv (c d : t) : Prop :=
  r c == r d /\ g c == g d /\ b c == b d /\ a c == a d.

End Rgba.

(** The colours the editor assigns to [fillStyle]: hexadecimal [#RRGGBB]
    and the mask [rgba(0, 0, 0, 0.4)].  Any other text is not a colour, and
    assigning it is ignored by the context. *)
Module Css.

Definition hexDigit (c : Ascii.ascii) : option Z :=
  let n := Z.of_nat (Ascii.nat_of_ascii c) in
  if ((48 <=? n) && (n <=? 57))%Z then Some (n - 48)%Z
  else if ((65 <=? n) && (n <=? 70))%Z then Some (n - 55)%Z
  else if ((97 <=? n) && (n <=? 102))%Z then Some (n - 87)%Z
  else None.

Definition channel (h l : Ascii.ascii) : option Q :=
  match hexDigit h, hexDigit l with
  | Some x, Some y => Some (Zq (16 * x + y) / 255)
  | _, _ => None
  end.

Definition parse (s : string) : option Rgba.t :=
  if String.eqb s "rgba(0, 0, 0, 0.4)" then Some (Rgba.mk 0 0 0 (4 # 10)) else
  match s with
  | String "#"%char (String r1 (String r2 (String g1 (String g2
      (String b1 (String b2 EmptyString)))))) =>
      match channel r1 r2, channel g1 g2, channel b1 b2 with
      | Some r, Some g, Some b => Some (Rgba.mk r g b 1)
      | _, _, _ => None
      end
  | _ => None
  end.

End Css.

(** An [HTMLImageElement] that has been handed to the editor. *)
Module Image.

Record t := mk {
  naturalWidth : Z;
  naturalHeight : Z;
  broken : bool;               (* an image in the broken state cannot be drawn *)
  data : Z -> Z -> Rgba.t
}.

Definition inside (img : t) (i j : Z) : bool :=
  ((0 <=? i) && (i <? naturalWidth img) && (0 <=? j) && (j <? naturalHeight img))%Z.

(** Sampling outside the image yields nothing. *)
Definition sample (img : t) (i j : Z) : Rgba.t :=
  if inside img i j then data img i j else Rgba.transparent.

End Image.

(** A canvas element together with its 2D context. *)
Module Canvas.

Record t := mk {
  width : Z;
  height : Z;
  alpha : bool;                (* context attribute given to [getContext] *)
  fillStyle : Rgba.t;
  pixels : Z -> Z -> Rgba.t
}.

Definition blankPixel (alpha : bool) : Rgba.t :=
  if alpha then Rgba.transparent else Rgba.black.

(** [document.createElement('canvas')] followed by [getContext('2d', {alpha})]. *)
Definition create (alpha : bool) : t :=
  mk 300 150 alpha Rgba.black (fun _ _ => blankPixel alpha).

(** Assigning a dimension resets the bitmap and the context state. *)
Definition setWidth (w : Z) (c : t) : t :=
  mk w (height c) (alpha c) Rgba.black (fun _ _ => blankPixel (alpha c)).
Definition setHeight (h : Z) (c : t) : t :=
  mk (width c) h (alpha c) Rgba.black (fun _ _ => blankPixel (alpha c)).

Definition inside (c : t) (i j : Z) : bool :=
  ((0 <=? i) && (i <? width c) && (0 <=? j) && (j <? height c))%Z.

Definition setFillStyle (s : string) (c : t) : t :=
  match Css.parse s with
  | Some col => mk (width c) (height c) (alpha c) col (pixels c)
  | None => c
  end.

Definition withPixels (p : Z -> Z -> Rgba.t) (c : t) : t :=
  mk (width c) (height c) (alpha c) (fillStyle c) p.

(** Length of the overlap of the interval between [lo] and [hi] with the
    unit cell starting at [i]. *)
Definition overlap (lo hi : Q) (i : Z) : Q :=
  Math.max 0 (Math.min hi (Zq i + 1) - Math.max lo (Zq i)).

(** Fraction of pixel [(i,j)] covered by the rectangle; a negative extent
    runs towards the origin. *)
Definition coverage (x y w h : Q) (i j : Z) : Q :=
  overlap (Math.min x (x + w)) (Math.max x (x + w)) i
  * overlap (Math.min y (y + h)) (Math.max y (y + h)) j.

Definition clearRect (x y w h : Q) (c : t) : t :=
  withPixels (fun i j =>
    if inside c i j && Qgtb (coverage x y w h i j) 0
    then blankPixel (alpha c) else pixels c i j) c.

Definition fillRect (x y w h : Q) (c : t) : t :=
  withPixels (fun i j =>
    let k := coverage x y w h i j in
    if inside c i j && Qgtb k 0
    then Rgba.over (Rgba.scale k (fillStyle c)) (pixels c i j)
    else pixels c i j) c.

(** A canvas can be the source of [drawImage] when it has pixels; one of
    zero width or height makes the call raise. *)
Definition drawable (src : t) : bool :=
  negb ((width src =? 0) || (height src =? 0))%Z.

(** [ctx.drawImage(source, 0, 0)] with a drawable canvas as source. *)
Definition drawCanvas (src : t) (c : t) : t :=
  withPixels (fun i j =>
    if inside c i j && inside src i j
    then Rgba.over (pixels src i j) (pixels c i j)
    else pixels c i j) c.

(** [ctx.drawImage(img, 0, 0)]; fails on a broken image. *)
Definition drawImage (img : Image.t) (c : t) : option t :=
  if Image.broken img then None
  else Some (withPixels (fun i j =>
    if inside c i j
    then Rgba.over (Image.sample img i j) (pixels c i j)
    else pixels c i j) c).

(** [ctx.drawImage(img, sx, sy, sw, sh, 0, 0, sw, sh)]: the sub-rectangle
    of the image copied at 1:1 to the origin; fails on a broken image. *)
Definition drawImageSub (img : Image.t) (sx sy sw sh : Z) (c : t) : option t :=
  if Image.broken img then None
  else Some (withPixels (fun i j =>
    if inside c i j && ((0 <=? i) && (i <? sw) && (0 <=? j) && (j <? sh))%Z
    then Rgba.over (Image.sample img (sx + i) (sy + j)) (pixels c i j)
    else pixels c i j) c).

End Canvas.

(** The result of [getImageData(0, 0, w, h)]. *)
Module ImageData.

Record t := mk { width : Z; height : Z; data : Z -> Z -> Rgba.t }.

(** Reading a region of zero extent raises. *)
Definition get (c : Canvas.t) : option t :=
  if ((Canvas.width c =? 0) || (Canvas.height c =? 0))%Z then None
  else Some (mk (Canvas.width c) (Canvas.height c) (Canvas.pixels c)).

(** [putImageData(d, 0, 0)] overwrites, without compositing. *)
Definition put (d : t) (c : Canvas.t) : Canvas.t :=
  Canvas.withPixels (fun i j =>
    if Canvas.inside c i j && ((i <? width d) && (j <? height d))%Z
    then data d i j else Canvas.pixels c i j) c.

End ImageData.

(* ===================================================================== *)
(** ** Values handled by the editor *)
(* ===================================================================== *)

(** A point [{x, y}] in bitmap space. *)
Module Pos.
Record t := mk { x : Q; y : Q }.
End Pos.

(** The cached result of [getBoundingClientRect]. *)
Module DOMRect.
Record t := mk { left : Q; top : Q; width : Q; height : Q }.
End DOMRect.

Module MouseEvent.
Record t := mk { clientX : Q; clientY : Q; button : Z }.
End MouseEvent.

(** An annotation element [{type, id, x, y, width, height, color}]. *)
Module Elem.
Record t := mk {
  type : string;
  id : string;
  x : Q;
  y : Q;
  width : Q;
  height : Q;
  color : string
}.

(** [{ ...element, x, y, width, height }] *)
Definition withBounds (x' y' w' h' : Q) (e : t) : t :=
  mk (type e) (id e) x' y' w' h' (color e).
End Elem.

(** A call of [showToast(message, persist, type)]. *)
Module Toast.
Record t := mk { message : string; persist : bool; kind : string }.
End Toast.

(** What the page, the layout engine and the clock answer. *)
Module Env.
Record t := mk {
  (** [document.getElementById(`${tool}Tool`)] exists and is displayed *)
  toolShown : string -> bool;
  (** [canvas.getBoundingClientRect()] *)
  boundingClientRect : DOMRect.t;
  (** [Date.now()] *)
  now : Z;
  (** [navigator.clipboard.write] and [ClipboardItem] are available *)
  clipboard : bool;
  (** what is raised once the final canvas exists, by [toBlob] yielding no
      blob or by [navigator.clipboard.write] rejecting: [None] when
      nothing is, else the [error.message] *)
  clipboardWrite : option string;
  (** [chrome.storage.sync.get({ saveLocation })], as UTF-16 code units *)
  saveLocation : list N;
  (** [new Date().toISOString()], as UTF-16 code units *)
  isoTime : list N;
  (** [chrome.downloads.download]: [None] when it resolves, else the
      [error.message] it rejects with *)
  download : option string
}.
End Env.

(** The fields of [ScreenshotEditor] the core reads and writes.  The
    nested objects [state], [drawingState], [canvasState], [elements] and
    [ui] are flattened; [canvas] stands for the element with its context
    [ctx], [offscreenCanvas] for the element with [offscreenCtx]. *)
Module Editor.
Record t := mk {
  canvas : option Canvas.t;
  offscreenCanvas : option Canvas.t;
  activeTools : gset string;                (* state.activeTools *)
  isDrawing : bool;                         (* state.isDrawing *)
  cropStart : option Pos.t;                 (* drawingState.cropStart *)
  cropEnd : option Pos.t;                   (* drawingState.cropEnd *)
  annotateStart : option Pos.t;             (* drawingState.annotateStart *)
  originalImage : option Image.t;           (* canvasState.originalImage *)
  lastImageData : option ImageData.t;       (* canvasState.lastImageData *)
  annotationElements : list Elem.t;         (* elements.annotationElements *)
  canvasRect : option DOMRect.t;            (* ui.canvasRect *)
  cursor : string;                          (* canvas.style.cursor *)
  toasts : list Toast.t                     (* toasts shown so far, oldest first *)
}.

Definition setCanvas v s := mk v (offscreenCanvas s) (activeTools s) (isDrawing s)
  (cropStart s) (cropEnd s) (annotateStart s) (originalImage s) (lastImageData s)
  (annotationElements s) (canvasRect s) (cursor s) (toasts s).
Definition setOffscreenCanvas v s := mk (canvas s) v (activeTools s) (isDrawing s)
  (cropStart s) (cropEnd s) (annotateStart s) (originalImage s) (lastImageData s)
  (annotationElements s) (canvasRect s) (cursor s) (toasts s).
Definition setActiveTools v s := mk (canvas s) (offscreenCanvas s) v (isDrawing s)
  (cropStart s) (cropEnd s) (annotateStart s) (originalImage s) (lastImageData s)
  (annotationElements s) (canvasRect s) (cursor s) (toasts s).
Definition setIsDrawing v s := mk (canvas s) (offscreenCanvas s) (activeTools s) v
  (cropStart s) (cropEnd s) (annotateStart s) (originalImage s) (lastImageData s)
  (annotationElements s) (canvasRect s) (cursor s) (toasts s).
Definition setCropStart v s := mk (canvas s) (offscreenCanvas s) (activeTools s)
  (isDrawing s) v (cropEnd s) (annotateStart s) (originalImage s) (lastImageData s)
  (annotationElements s) (canvasRect s) (cursor s) (toasts s).
Definition setCropEnd v s := mk (canvas s) (offscreenCanvas s) (activeTools s)
  (isDrawing s) (cropStart s) v (annotateStart s) (originalImage s) (lastImageData s)
  (annotationElements s) (canvasRect s) (cursor s) (toasts s).
Definition setAnnotateStart v s := mk (canvas s) (offscreenCanvas s) (activeTools s)
  (isDrawing s) (cropStart s) (cropEnd s) v (originalImage s) (lastImageData s)
  (annotationElements s) (canvasRect s) (cursor s) (toasts s).
Definition setOriginalImage v s := mk (canvas s) (offscreenCanvas s) (activeTools s)
  (isDrawing s) (cropStart s) (cropEnd s) (annotateStart s) v (lastImageData s)
  (annotationElements s) (canvasRect s) (cursor s) (toasts s).
Definition setLastImageData v s := mk (canvas s) (offscreenCanvas s) (activeTools s)
  (isDrawing s) (cropStart s) (cropEnd s) (annotateStart s) (originalImage s) v
  (annotationElements s) (canvasRect s) (cursor s) (toasts s).
Definition setAnnotationElements v s := mk (canvas s) (offscreenCanvas s)
  (activeTools s) (isDrawing s) (cropStart s) (cropEnd s) (annotateStart s)
  (originalImage s) (lastImageData s) v (canvasRect s) (cursor s) (toasts s).
Definition setCanvasRect v s := mk (canvas s) (offscreenCanvas s) (activeTools s)
  (isDrawing s) (cropStart s) (cropEnd s) (annotateStart s) (originalImage s)
  (lastImageData s) (annotationElements s) v (cursor s) (toasts s).
Definition setToasts v s := mk (canvas s) (offscreenCanvas s) (activeTools s)
  (isDrawing s) (cropStart s) (cropEnd s) (annotateStart s) (originalImage s)
  (lastImageData s) (annotationElements s) (canvasRect s) (cursor s) v.

(** [this.canvas.style.cursor = v], guarded by [if (this.canvas)]. *)
Definition setCursor (v : string) s :=
  match canvas s with
  | Some _ => mk (canvas s) (offscreenCanvas s) (activeTools s) (isDrawing s)
      (cropStart s) (cropEnd s) (annotateStart s) (originalImage s)
      (lastImageData s) (annotationElements s) (canvasRect s) v (toasts s)
  | None => s
  end.

(** The constructor's initial field values. *)
Definition init : t :=
  mk (Some (Canvas.create true)) (Some (Canvas.create false)) ∅ false
     None None None None None [] None "default" [].
End Editor.

Import Editor.

(* ===================================================================== *)
(** ** editor.js *)
(* ===================================================================== *)

Definition isToolActive (toolName : string) (s : Editor.t) : bool :=
  bool_decide (toolName ∈ activeTools s).

Definition setToolActive (toolName : string) (active : bool) (s : Editor.t) : Editor.t :=
  if active then setActiveTools ({[toolName]} ∪ activeTools s) s
  else setActiveTools (activeTools s ∖ {[toolName]}) s.

Definition showToast (message : string) (persist : bool) (kind : string)
    (s : Editor.t) : Editor.t :=
  setToasts (toasts s ++ [Toast.mk message persist kind]) s.

(** One iteration of the [forEach] over the annotation elements. *)
Definition paintElement (c : Canvas.t) (element : Elem.t) : Canvas.t :=
  if String.eqb (Elem.type element) "rect"
  then Canvas.fillRect (Elem.x element) (Elem.y element)
         (Elem.width element) (Elem.height element)
         (Canvas.setFillStyle (Elem.color element) c)
  else c.

Definition redrawCanvas (s : Editor.t) : Editor.t :=
  match canvas s, offscreenCanvas s with
  | Some c, Some off =>
      let c := Canvas.clearRect 0 0 (Zq (Canvas.width c)) (Zq (Canvas.height c)) c in
      let c := Canvas.drawCanvas off c in
      setCanvas (Some (fold_left paintElement (annotationElements s) c)) s
  | _, _ => s
  end.

Definition saveCanvasState (s : Editor.t) : Editor.t :=
  match canvas s with
  | Some c => setLastImageData (ImageData.get c) s
  | None => s
  end.

Definition restoreCanvasState (s : Editor.t) : Editor.t :=
  match lastImageData s, canvas s with
  | Some d, Some c => setCanvas (Some (ImageData.put d c)) s
  | _, _ => redrawCanvas s
  end.

(* ===================================================================== *)
(** ** editor-init.js *)
(* ===================================================================== *)

Definition updateCanvasRect (env : Env.t) (s : Editor.t) : Editor.t :=
  match canvas s with
  | Some _ => setCanvasRect (Some (Env.boundingClientRect env)) s
  | None => s
  end.

(** [cleanup], run when the page unloads. *)
Definition cleanup (s : Editor.t) : Editor.t :=
  let s := setOriginalImage None (setOffscreenCanvas None (setCanvas None s)) in
  let s := setAnnotationElements [] s in
  let s := setLastImageData None s in
  setActiveTools ∅ s.

(** Exceptions raised by the substrate.  The text of [error.message] is
    the browser's; the strings here stand for it. *)
Inductive Exn : Type :=
  | TypeError             (* property access on [null] *)
  | InvalidStateError     (* [drawImage] of a broken image *)
  | EmptyCanvasError.     (* [drawImage] of a canvas without pixels *)

Definition message (e : Exn) : string :=
  match e with
  | TypeError => "Cannot set properties of null"
  | InvalidStateError => "The HTMLImageElement provided is in the 'broken' state."
  | EmptyCanvasError =>
      "The image argument is a canvas element with a width or height of 0."
  end.

(** The [onload] continuation of [loadScreenshot].  [inr e] is the
    exception handed to [handleLoadFailure]. *)
Definition loadScreenshot_onload (env : Env.t) (img : Image.t) (s : Editor.t)
    : Editor.t + Exn :=
  let s := setOriginalImage (Some img) s in
  let canvasWidth := Image.naturalWidth img in
  let canvasHeight := Image.naturalHeight img in
  match canvas s, offscreenCanvas s with
  | Some c, Some off =>
      let c := Canvas.setHeight canvasHeight (Canvas.setWidth canvasWidth c) in
      let off := Canvas.setHeight canvasHeight (Canvas.setWidth canvasWidth off) in
      let off := Canvas.clearRect 0 0 (Zq canvasWidth) (Zq canvasHeight) off in
      match Canvas.drawImage img off with
      | None => inr InvalidStateError
      | Some off =>
          if negb (Canvas.drawable off) then inr EmptyCanvasError
          else
            let c := Canvas.drawCanvas off c in
            let s := setOffscreenCanvas (Some off) (setCanvas (Some c) s) in
            let s := updateCanvasRect env s in
            inl (setCursor "default" s)
      end
  | _, _ => inr TypeError
  end.

(* ===================================================================== *)
(** ** editor-tools.js *)
(* ===================================================================== *)

Definition drawingTools : list string := ["crop"; "annotate"].

Definition toggleTool (env : Env.t) (tool : string) (s : Editor.t) : Editor.t :=
  if negb (Env.toolShown env tool) then s
  else
    let otherDrawingTools := List.filter (fun t => negb (String.eqb t tool)) drawingTools in
    if isToolActive tool s then
      let s := setToolActive tool false s in
      let anyDrawingToolActive := existsb (fun t => isToolActive t s) drawingTools in
      let s := if negb anyDrawingToolActive then setCursor "default" s else s in
      if String.eqb tool "crop" then redrawCanvas s else s
    else
      let s := fold_left (fun s otherTool =>
                 if isToolActive otherTool s then setToolActive otherTool false s else s)
               otherDrawingTools s in
      let s := setToolActive tool true s in
      if String.eqb tool "crop" || String.eqb tool "annotate" then
        let s := setCursor "crosshair" s in
        showToast (if String.eqb tool "crop" then "Drag to select crop area."
                   else "Click and drag to draw rectangles.") false "info" s
      else s.

Definition resetCropState (s : Editor.t) : Editor.t :=
  let s := setCropEnd None (setCropStart None s) in
  match canvas s with
  | Some _ =>
      let newCursor :=
        if isToolActive "crop" s || isToolActive "annotate" s
        then "crosshair" else "default" in
      redrawCanvas (setCursor newCursor s)
  | None => s
  end.

(** The selection rectangle on the working canvas, lines 99-109 of
    [completeCrop]; [w] and [h] are the working canvas dimensions. *)
Module Selection.
Section Clamp.
Variables (cs ce : Pos.t) (w h : Z).

Definition displayStartX : Q := Math.min (Pos.x cs) (Pos.x ce).
Definition displayStartY : Q := Math.min (Pos.y cs) (Pos.y ce).
Definition displayCropWidth : Q :=
  Math.max 1 (Math.round (Math.abs (Pos.x ce - Pos.x cs))).
Definition displayCropHeight : Q :=
  Math.max 1 (Math.round (Math.abs (Pos.y ce - Pos.y cs))).

Definition clampedStartX : Q := Math.max 0 (Math.min displayStartX (Zq w)).
Definition clampedStartY : Q := Math.max 0 (Math.min displayStartY (Zq h)).
Definition clampedWidth : Q :=
  Math.max 1 (Math.min displayCropWidth (Zq w - clampedStartX)).
Definition clampedHeight : Q :=
  Math.max 1 (Math.min displayCropHeight (Zq h - clampedStartY)).

Definition tooSmall : bool := Qleb clampedWidth 1 || Qleb clampedHeight 1.
End Clamp.
End Selection.

(** The source rectangle on the original image, lines 121-132. *)
Module Source.
Section Rect.
Variables (cs ce : Pos.t) (img : Image.t) (w h : Z).

Definition scaleX : Q := Zq (Image.naturalWidth img) / Zq w.
Definition scaleY : Q := Zq (Image.naturalHeight img) / Zq h.

Definition sourceX : Z := Math.roundZ (Selection.clampedStartX cs ce w * scaleX).
Definition sourceY : Z := Math.roundZ (Selection.clampedStartY cs ce h * scaleY).
Definition sourceWidth : Z := Math.roundZ (Selection.clampedWidth cs ce w * scaleX).
Definition sourceHeight : Z := Math.roundZ (Selection.clampedHeight cs ce h * scaleY).

Definition clampedSourceX : Z := Z.max 0 (Z.min sourceX (Image.naturalWidth img)).
Definition clampedSourceY : Z := Z.max 0 (Z.min sourceY (Image.naturalHeight img)).
Definition clampedSourceWidth : Z :=
  Z.max 1 (Z.min sourceWidth (Image.naturalWidth img - clampedSourceX)).
Definition clampedSourceHeight : Z :=
  Z.max 1 (Z.min sourceHeight (Image.naturalHeight img - clampedSourceY)).
End Rect.
End Source.

(** The callback of [annotationElements.map], lines 155-165. *)
Definition reproject (scaleX scaleY : Q) (clampedSourceX clampedSourceY : Z)
    (element : Elem.t) : Elem.t :=
  let originalElementX := Elem.x element * scaleX in
  let originalElementY := Elem.y element * scaleY in
  let originalElementWidth := Elem.width element * scaleX in
  let originalElementHeight := Elem.height element * scaleY in
  let newX := originalElementX - Zq clampedSourceX in
  let newY := originalElementY - Zq clampedSourceY in
  let newWidth := originalElementWidth in
  let newHeight := originalElementHeight in
  Elem.withBounds (Math.round newX) (Math.round newY)
    (Math.round newWidth) (Math.round newHeight) element.

(** The callback of [.filter], lines 166-170. *)
Definition stillVisible (newCanvasWidth newCanvasHeight : Z) (element : Elem.t) : bool :=
  let elementRight := Elem.x element + Elem.width element in
  let elementBottom := Elem.y element + Elem.height element in
  Qgtb elementRight 0 && Qgtb elementBottom 0
  && Qltb (Elem.x element) (Zq newCanvasWidth)
  && Qltb (Elem.y element) (Zq newCanvasHeight).

(** The [try] block of [completeCrop]: the state reached, and the
    exception if one interrupted it. *)
Definition cropTry (env : Env.t) (cs ce : Pos.t) (img : Image.t) (off : Canvas.t)
    (s : Editor.t) : Editor.t * option Exn :=
  let currentDisplayWidth := Canvas.width off in
  let currentDisplayHeight := Canvas.height off in
  let scaleX := Source.scaleX img currentDisplayWidth in
  let scaleY := Source.scaleY img currentDisplayHeight in
  let clampedSourceX := Source.clampedSourceX cs ce img currentDisplayWidth in
  let clampedSourceY := Source.clampedSourceY cs ce img currentDisplayHeight in
  let clampedSourceWidth := Source.clampedSourceWidth cs ce img currentDisplayWidth in
  let clampedSourceHeight := Source.clampedSourceHeight cs ce img currentDisplayHeight in
  let newCanvasWidth := clampedSourceWidth in
  let newCanvasHeight := clampedSourceHeight in
  match canvas s with
  | None => (s, Some TypeError)
  | Some c =>
      let s := setCanvas
        (Some (Canvas.setHeight newCanvasHeight (Canvas.setWidth newCanvasWidth c))) s in
      let off := Canvas.setHeight newCanvasHeight (Canvas.setWidth newCanvasWidth off) in
      let off := Canvas.clearRect 0 0 (Zq newCanvasWidth) (Zq newCanvasHeight) off in
      let s := setOffscreenCanvas (Some off) s in
      match Canvas.drawImageSub img clampedSourceX clampedSourceY
              clampedSourceWidth clampedSourceHeight off with
      | None => (s, Some InvalidStateError)
      | Some off =>
          let s := setOffscreenCanvas (Some off) s in
          let s := setAnnotationElements
            (List.filter (stillVisible newCanvasWidth newCanvasHeight)
               (map (reproject scaleX scaleY clampedSourceX clampedSourceY)
                  (annotationElements s))) s in
          let s := updateCanvasRect env s in
          let s := redrawCanvas s in
          let s := showToast "Crop completed successfully!" false "success" s in
          (setToolActive "crop" false s, None)
      end
  end.

Definition completeCrop (env : Env.t) (s : Editor.t) : Editor.t :=
  match cropStart s, cropEnd s, originalImage s, offscreenCanvas s with
  | Some cs, Some ce, Some img, Some off =>
      if negb (isToolActive "crop" s) then resetCropState s
      else
        let currentDisplayWidth := Canvas.width off in
        let currentDisplayHeight := Canvas.height off in
        if ((currentDisplayWidth =? 0) || (currentDisplayHeight =? 0))%Z then
          resetCropState
            (showToast "Error: Invalid canvas dimensions before crop." false "error" s)
        else if Selection.tooSmall cs ce currentDisplayWidth currentDisplayHeight then
          resetCropState (showToast "Crop area is too small." false "error" s)
        else
          let s :=
            match cropTry env cs ce img off s with
            | (s, None) => s
            | (s, Some error) =>
                redrawCanvas
                  (showToast ("Crop failed: " ++ message error) false "error" s)
            end in
          resetCropState s
  | _, _, _, _ => resetCropState s
  end.

(* ===================================================================== *)
(** ** editor-tools.js: [tryDownload] *)
(* ===================================================================== *)

Module Download.

(** What the function does that can be observed from outside: a call of
    [chrome.downloads.download], or a pause of [setTimeout]. *)
Inductive action : Type :=
  | Attempt (attempt : Z)
  | Sleep (ms : Z).

(** The promise resolves, or rejects with an [Error] of this message. *)
Inductive outcome : Type :=
  | Resolved
  | Rejected (message : string).

Section TryDownload.
(** [answer attempt] is what [chrome.downloads.download] does when called
    in iteration [attempt]: [None] when it resolves, the [error.message]
    when it rejects. *)
Variable answer : Z -> option string.
Variable retries : Z.

(** The [for] loop from iteration [attempt] on; [fuel] bounds the
    iterations left. *)
Fixpoint loop (fuel : nat) (attempt : Z) : list action * outcome :=
  match fuel with
  | O => ([], Resolved)
  | S fuel =>
      if (attempt <=? retries)%Z then
        match answer attempt with
        | None => ([Attempt attempt], Resolved)
        | Some message =>
            if (attempt =? retries)%Z then
              ([Attempt attempt],
               Rejected ("Download failed after "
                         ++ NilEmpty.string_of_int (Z.to_int (retries + 1))
                         ++ " attempts: " ++ message))
            else
              let '(log, result) := loop fuel (attempt + 1) in
              (Attempt attempt
                 :: (if (retries >? 0)%Z then [Sleep (300 + attempt * 200)] else [])
                 ++ log,
               result)
        end
      else ([], Resolved)
  end.

(** [attempt] runs from 0 to [retries], so [retries + 1] iterations
    exhaust the loop. *)
Definition tryDownload : list action * outcome :=
  loop (Z.to_nat (retries + 1)) 0.

End TryDownload.

End Download.

(* ===================================================================== *)
(** ** editor-tools.js: the name of the downloaded file *)
(* ===================================================================== *)

(** A JavaScript string is its sequence of UTF-16 code units; the regular
    expressions of [saveImage] carry no [u] flag and work unit by unit. *)
Module Filename.
Local Open Scope N_scope.

Definition units (s : string) : list N := map N_of_ascii (list_ascii_of_string s).

Definition slash : N := 47.
Definition hyphen : N := 45.
Definition underscore : N := 95.
Definition colon : N := 58.
Definition dot : N := 46.
Definition letterT : N := 84.
Definition letterZ : N := 90.

(** The class [[a-zA-Z0-9_\-\/]]. *)
Definition allowed (c : N) : bool :=
  ((97 <=? c) && (c <=? 122)) || ((65 <=? c) && (c <=? 90))
  || ((48 <=? c) && (c <=? 57))
  || (c =? underscore) || (c =? hyphen) || (c =? slash).

(** What [/^\/+/] matches is removed: the slashes the string starts with. *)
Fixpoint dropSlashes (s : list N) : list N :=
  match s with
  | c :: rest => if c =? slash then dropSlashes rest else s
  | [] => []
  end.

(** [s.replace(/^\/+|\/+$/g, '')]: the first alternative matches the
    slashes at the start, the second the slashes that reach the end. *)
Definition trimSlashes (s : list N) : list N :=
  rev (dropSlashes (rev (dropSlashes s))).

(** [s.replace(/[^a-zA-Z0-9_\-\/]/g, '_')] *)
Definition replaceForbidden (s : list N) : list N :=
  map (fun c => if allowed c then c else underscore) s.

Definition sanitizedSaveLocation (saveLocation : list N) : list N :=
  replaceForbidden (trimSlashes saveLocation).

(** [s.replace(/[:.]/g, '-')] *)
Definition replacePunctuation (s : list N) : list N :=
  map (fun c => if (c =? colon) || (c =? dot) then hyphen else c) s.

(** [s.replace(pattern, replacement)] for a pattern of one unit given as
    a string: the first occurrence only. *)
Fixpoint replaceFirst (pattern : N) (replacement : list N) (s : list N) : list N :=
  match s with
  | c :: rest =>
      if c =? pattern then replacement ++ rest
      else c :: replaceFirst pattern replacement rest
  | [] => []
  end.

(** [iso] is the result of [new Date().toISOString()]. *)
Definition timestamp (iso : list N) : list N :=
  replaceFirst letterZ [] (replaceFirst letterT [underscore] (replacePunctuation iso)).

(** [`${sanitizedSaveLocation}/SnipScreen-${timestamp}.png`] *)
Definition filename (saveLocation iso : list N) : list N :=
  sanitizedSaveLocation saveLocation ++ units "/SnipScreen-" ++ timestamp iso
  ++ units ".png".

(** The text of a sequence of code units, for the messages it is spliced
    into.  The sanitised location holds units of [allowed] only and an ISO
    time stamp is ASCII, so no unit of a file name exceeds 255. *)
Definition text (s : list N) : string :=
  string_of_list_ascii (map ascii_of_N s).

End Filename.

(* ===================================================================== *)
(** ** editor-tools.js: [copyToClipboard] and [saveImage] *)
(* ===================================================================== *)

(** What [copyToClipboard] and [saveImage] hand to the encoder. *)
Inductive Exported : Type :=
  | Refused                       (* a guard returned before any work *)
  | Abandoned                     (* an exception before the final canvas existed *)
  | Rendered (final : Canvas.t).  (* the canvas passed to [toBlob] / [toDataURL] *)

(* ===================================================================== *)
(** ** editor-canvas.js *)
(* ===================================================================== *)

(** One iteration of the [forEach] of [prepareFinalCanvas]. *)
Definition paintFinalElement (finalCanvas : Canvas.t) (element : Elem.t) : Canvas.t :=
  if String.eqb (Elem.type element) "rect"
  then Canvas.fillRect (Math.round (Elem.x element)) (Math.round (Elem.y element))
         (Math.round (Elem.width element)) (Math.round (Elem.height element))
         (Canvas.setFillStyle "#000000" finalCanvas)
  else finalCanvas.

Definition validSource (off : Canvas.t) : bool :=
  negb ((Canvas.width off =? 0) || (Canvas.height off =? 0))%Z.

Definition prepareFinalCanvas (s : Editor.t) : Canvas.t :=
  let finalCanvas := Canvas.create true in
  match offscreenCanvas s with
  | Some off =>
      if validSource off then
        let sourceWidth := Canvas.width off in
        let sourceHeight := Canvas.height off in
        let finalCanvas :=
          Canvas.setHeight sourceHeight (Canvas.setWidth sourceWidth finalCanvas) in
        let finalCanvas := Canvas.setFillStyle "#FFFFFF" finalCanvas in
        let finalCanvas :=
          Canvas.fillRect 0 0 (Zq sourceWidth) (Zq sourceHeight) finalCanvas in
        let finalCanvas := Canvas.drawCanvas off finalCanvas in
        fold_left paintFinalElement (annotationElements s) finalCanvas
      else Canvas.setHeight 1 (Canvas.setWidth 1 finalCanvas)
  | None => Canvas.setHeight 1 (Canvas.setWidth 1 finalCanvas)
  end.

(** The guards shared by [copyToClipboard] and [saveImage]. *)
Definition emptyImage (s : Editor.t) : bool :=
  match canvas s with
  | Some c => ((Canvas.width c =? 0) || (Canvas.height c =? 0))%Z
  | None => true
  end.

(** [message.includes(searchString)] *)
Definition includes (message searchString : string) : bool :=
  match String.index 0 searchString message with
  | Some _ => true
  | None => false
  end.

(** [error.message || 'Unknown error'] *)
Definition orUnknown (message : string) : string :=
  if String.eqb message EmptyString then "Unknown error" else message.

Definition copyToClipboard (env : Env.t) (s : Editor.t) : Editor.t * Exported :=
  if emptyImage s then
    (showToast "Cannot copy empty image." false "error" s, Refused)
  else if isDrawing s && isToolActive "crop" s then
    (showToast "Finalize cropping before copying." false "warning" s, Refused)
  else
    let s := showToast "Preparing high-quality image for clipboard..." true "info" s in
    if negb (Env.clipboard env) then
      (showToast
         ("Copy failed: "
          ++ orUnknown "Clipboard API (write with ClipboardItem) is not supported.")
         false "error" s, Abandoned)
    else
      let finalCanvas := prepareFinalCanvas s in
      match Env.clipboardWrite env with
      | None =>
          (showToast "High-quality screenshot copied to clipboard!" false "success" s,
           Rendered finalCanvas)
      | Some message =>
          (showToast ("Copy failed: " ++ orUnknown message) false "error" s,
           Rendered finalCanvas)
      end.

(** The [catch] block of [saveImage]; [filename] is the property the
    error of [tryDownload] carries. *)
Definition saveFailed (message filename : string) (s : Editor.t) : Editor.t :=
  if includes message "USER_CANCELED" then
    showToast "Save cancelled by user." false "info" s
  else if includes message "INVALID_FILENAME" then
    showToast ("Save failed: Invalid path " ++ String (ascii_of_nat 34) filename
               ++ String (ascii_of_nat 34) ".") false "error" s
  else
    showToast ("Save failed: " ++ orUnknown message) false "error" s.

Definition saveImage (env : Env.t) (s : Editor.t) : Editor.t * Exported :=
  if emptyImage s then
    (showToast "Cannot save empty image." false "error" s, Refused)
  else if isDrawing s && isToolActive "crop" s then
    (showToast "Finalize cropping before saving." false "warning" s, Refused)
  else
    let s := showToast "Preparing image for download..." true "info" s in
    let finalCanvas := prepareFinalCanvas s in
    let filename := Filename.filename (Env.saveLocation env) (Env.isoTime env) in
    match snd (Download.tryDownload (fun _ => Env.download env) 0) with
    | Download.Resolved =>
        (showToast "Screenshot saved successfully!" false "success" s,
         Rendered finalCanvas)
    | Download.Rejected message =>
        (saveFailed message (Filename.text filename) s, Rendered finalCanvas)
    end.

(* ===================================================================== *)
(** ** editor-utils.js *)
(* ===================================================================== *)

Module Throttle.

(** The variables captured by the closure [throttled].  [timeoutId] is
    the pending timer, if any; the closure has at most one, since it
    clears the previous one before it sets the next. *)
Record state (R : Type) := mk {
  inThrottle : bool;
  lastResult : option R;
  timeoutId : option nat
}.
Arguments mk {R}.
Arguments inThrottle {R}.
Arguments lastResult {R}.
Arguments timeoutId {R}.

(** [let inThrottle; let lastResult; let timeoutId;] *)
Definition fresh {R : Type} : state R := mk false None None.

(** What the event loop delivers to a throttled function: a call, or
    the expiry of the timer it has set. *)
Inductive event (A : Type) : Type :=
  | Call (args : A)
  | Expire.
Arguments Call {A}.
Arguments Expire {A}.

Section Throttle.
Context {C A R : Type}.
(** [func.apply(context, args)]: the context is threaded. *)
Variable func : A -> C -> C * R.

(** [throttled(...args)]; [id] is what [setTimeout] returns. *)
Definition throttled (id : nat) (args : A) (th : state R) (context : C)
    : state R * C * option R :=
  if negb (inThrottle th) then
    let '(context, r) := func args context in
    (mk true (Some r) (Some id), context, Some r)
  else (th, context, lastResult th).

(** The callback given to [setTimeout]; it only runs for a pending timer. *)
Definition expire (th : state R) : state R :=
  match timeoutId th with
  | Some _ => mk false (lastResult th) None
  | None => th
  end.

Definition step (ev : event A) (th : state R) (context : C) : state R * C :=
  match ev with
  | Call args =>
      let '(th', context', _) := throttled 1%nat args th context in (th', context')
  | Expire => (expire th, context)
  end.

Fixpoint run (evs : list (event A)) (th : state R) (context : C) : state R * C :=
  match evs with
  | [] => (th, context)
  | ev :: evs => let '(th, context) := step ev th context in run evs th context
  end.

(** The arguments for which [func] is really applied along a trace. *)
Fixpoint executed (evs : list (event A)) (th : state R) (context : C) : list A :=
  match evs with
  | [] => []
  | ev :: evs =>
      let '(th', context') := step ev th context in
      match ev with
      | Call args =>
          if negb (inThrottle th) then args :: executed evs th' context'
          else executed evs th' context'
      | Expire => executed evs th' context'
      end
  end.
End Throttle.

End Throttle.

(* ===================================================================== *)
(** ** editor-canvas.js: the crop guides *)
(* ===================================================================== *)

Section Guides.

(** [ctx.strokeRect(x, y, w, h)] under the line dash, stroke style and
    line width in force.  The rasterisation of strokes is the
    substrate's and is left open. *)
Variable strokeRect :
  list Q -> string -> Q -> Q -> Q -> Q -> Q -> Canvas.t -> Canvas.t.

Definition drawCornerHandles (x y width height : Q) (c : Canvas.t) : Canvas.t :=
  let handleSize : Q := 8 in
  let handleOffset : Q := handleSize / 2 in
  let corners := [ (x, y); (x + width, y); (x, y + height); (x + width, y + height) ] in
  let c := Canvas.setFillStyle "#007AFF" c in
  fold_left (fun c '(cx, cy) =>
      let c := Canvas.fillRect (cx - handleOffset) (cy - handleOffset)
                 handleSize handleSize c in
      strokeRect [] "#FFFFFF" 1 (cx - handleOffset) (cy - handleOffset)
        handleSize handleSize c)
    corners c.

Definition drawCropGuides (x y width height : Q) (s : Editor.t) : Editor.t :=
  match canvas s with
  | None => s
  | Some c0 =>
      let canvasWidth := Zq (Canvas.width c0) in
      let canvasHeight := Zq (Canvas.height c0) in
      let x := Math.max 0 (Math.min x canvasWidth) in
      let y := Math.max 0 (Math.min y canvasHeight) in
      let width := Math.max 0 (Math.min width (canvasWidth - x)) in
      let height := Math.max 0 (Math.min height (canvasHeight - y)) in
      let s := redrawCanvas s in
      match canvas s with
      | None => s
      | Some c =>
          let c := Canvas.setFillStyle "rgba(0, 0, 0, 0.4)" c in
          let c := Canvas.fillRect 0 0 canvasWidth y c in
          let c := Canvas.fillRect 0 (y + height) canvasWidth
                     (canvasHeight - (y + height)) c in
          let c := Canvas.fillRect 0 y x height c in
          let c := Canvas.fillRect (x + width) y (canvasWidth - (x + width)) height c in
          let c := strokeRect [4; 4] "#FFFFFF" 1 x y width height c in
          let c := strokeRect [] "#007AFF" 2 (x - 1) (y - 1) (width + 2) (height + 2) c in
          let c := if Qgtb width 10 && Qgtb height 10
                   then drawCornerHandles x y width height c else c in
          setCanvas (Some c) s
      end
  end.

(* =================================================================== *)
(** ** editor-events.js *)
(* =================================================================== *)

(** [None] is the [TypeError] of reading [this.canvas.width] when the
    canvas is gone while a rectangle is still cached. *)
Definition getMousePos (env : Env.t) (e : MouseEvent.t) (s : Editor.t)
    : option (Pos.t * Editor.t) :=
  let s := match canvasRect s with
           | Some _ => s
           | None => updateCanvasRect env s
           end in
  match canvasRect s with
  | None => Some (Pos.mk 0 0, s)
  | Some rect =>
      match canvas s with
      | None => None
      | Some c =>
          let scaleX := if Qeq_bool (DOMRect.width rect) 0 then 1
                        else Zq (Canvas.width c) / DOMRect.width rect in
          let scaleY := if Qeq_bool (DOMRect.height rect) 0 then 1
                        else Zq (Canvas.height c) / DOMRect.height rect in
          let canvasX := (MouseEvent.clientX e - DOMRect.left rect) * scaleX in
          let canvasY := (MouseEvent.clientY e - DOMRect.top rect) * scaleY in
          let clampedX := Math.max 0 (Math.min canvasX (Zq (Canvas.width c))) in
          let clampedY := Math.max 0 (Math.min canvasY (Zq (Canvas.height c))) in
          Some (Pos.mk clampedX clampedY, s)
      end
  end.

Definition handleMouseDown (env : Env.t) (e : MouseEvent.t) (s : Editor.t)
    : option Editor.t :=
  if negb (MouseEvent.button e =? 0)%Z then Some s
  else
    match getMousePos env e s with
    | None => None
    | Some (pos, s) =>
        let s := setIsDrawing false s in
        if isToolActive "crop" s then
          let s := setIsDrawing true s in
          let s := setCropEnd (Some pos) (setCropStart (Some pos) s) in
          Some (setCursor "crosshair" s)
        else if isToolActive "annotate" s then
          let s := setIsDrawing true s in
          let s := setAnnotateStart (Some pos) s in
          Some (saveCanvasState s)
        else Some (setIsDrawing false s)
    end.

(** The function wrapped by [throttle] at the end of the module. *)
Definition drawCropGuidesOf (args : Pos.t * Pos.t) (s : Editor.t) : Editor.t * unit :=
  let '(startPos, endPos) := args in
  if negb (isDrawing s) || negb (bool_decide (is_Some (cropStart s)))
     || negb (isToolActive "crop" s)
  then (s, tt)
  else
    let startX := Math.min (Pos.x startPos) (Pos.x endPos) in
    let startY := Math.min (Pos.y startPos) (Pos.y endPos) in
    let width := Math.abs (Pos.x endPos - Pos.x startPos) in
    let height := Math.abs (Pos.y endPos - Pos.y startPos) in
    (drawCropGuides startX startY width height s, tt).

Definition throttledDrawCropGuides :=
  Throttle.throttled drawCropGuidesOf 1%nat.

(** The callback [handleMouseMove] gives to [requestAnimationFrame]. *)
Definition annotatePreview (pos : Pos.t) (s : Editor.t) : Editor.t :=
  match annotateStart s with
  | Some a =>
      if negb (isDrawing s) || negb (isToolActive "annotate" s) then s
      else
        let s := restoreCanvasState s in
        let startX := Math.min (Pos.x a) (Pos.x pos) in
        let startY := Math.min (Pos.y a) (Pos.y pos) in
        let width := Math.abs (Pos.x pos - Pos.x a) in
        let height := Math.abs (Pos.y pos - Pos.y a) in
        if Qgtb width 0 && Qgtb height 0 then
          match canvas s with
          | Some c =>
              setCanvas (Some (Canvas.fillRect startX startY width height
                                 (Canvas.setFillStyle "#000000" c))) s
          | None => s
          end
        else s
  | None => s
  end.

(** The animation frame requested by the annotate preview is run before
    the next event is delivered. *)
Definition handleMouseMove (env : Env.t) (e : MouseEvent.t)
    (th : Throttle.state unit) (s : Editor.t)
    : option (Throttle.state unit * Editor.t) :=
  match getMousePos env e s with
  | None => None
  | Some (pos, s) =>
      let s :=
        if negb (isDrawing s) && negb (bool_decide (activeTools s = ∅)) then
          setCursor (if isToolActive "crop" s || isToolActive "annotate" s
                     then "crosshair" else "default") s
        else s in
      if negb (isDrawing s) then Some (th, s)
      else
        match (if isToolActive "crop" s then cropStart s else None) with
        | Some start =>
            let s := setCropEnd (Some pos) s in
            let '(th, s, _) := throttledDrawCropGuides (start, pos) th s in
            Some (th, s)
        | None =>
            if isToolActive "annotate" s && bool_decide (is_Some (annotateStart s))
            then Some (th, annotatePreview pos s)
            else Some (th, s)
        end
  end.

End Guides.

(** [`anno-${Date.now()}`] *)
Definition annotationId (now : Z) : string :=
  "anno-" ++ NilEmpty.string_of_int (Z.to_int now).

(** The annotate branch of [handleMouseUp], lines 152-171. *)
Definition commitAnnotation (env : Env.t) (a pos : Pos.t) (s : Editor.t) : Editor.t :=
  let startX := Math.min (Pos.x a) (Pos.x pos) in
  let startY := Math.min (Pos.y a) (Pos.y pos) in
  let width := Math.abs (Pos.x pos - Pos.x a) in
  let height := Math.abs (Pos.y pos - Pos.y a) in
  let s :=
    if Qgtb width 1 && Qgtb height 1 then
      let newAnnotation :=
        Elem.mk "rect" (annotationId (Env.now env)) startX startY width height "#000000" in
      let s := setAnnotationElements (annotationElements s ++ [newAnnotation]) s in
      let s := redrawCanvas s in
      showToast "Annotation added" false "success" s
    else restoreCanvasState s in
  let s := setAnnotateStart None s in
  if isToolActive "annotate" s then setCursor "crosshair" s else s.

Definition handleMouseUp (env : Env.t) (e : MouseEvent.t) (s : Editor.t)
    : option Editor.t :=
  if negb (MouseEvent.button e =? 0)%Z then Some s
  else
    let wasDrawingTool := isDrawing s in
    if wasDrawingTool then
      match getMousePos env e s with
      | None => None
      | Some (pos, s) =>
          let s := setIsDrawing false s in
          let s :=
            if isToolActive "crop" s && bool_decide (is_Some (cropStart s)) then
              completeCrop env (setCropEnd (Some pos) s)
            else if isToolActive "annotate" s then
              match annotateStart s with
              | Some a => commitAnnotation env a pos s
              | None => s
              end
            else s in
          Some (if bool_decide (activeTools s = ∅) then setCursor "default" s else s)
      end
    else Some s.

Definition handleMouseLeave (s : Editor.t) : Editor.t :=
  if isDrawing s then
    let toolWasCrop := isToolActive "crop" s in
    let toolWasAnnotate := isToolActive "annotate" s in
    let s := setIsDrawing false s in
    let s := if toolWasCrop
             then showToast "Crop cancelled (mouse left canvas)." false "info"
                    (resetCropState s)
             else s in
    let s := if toolWasAnnotate
             then showToast "Annotation cancelled (mouse left canvas)." false "info"
                    (setAnnotateStart None (restoreCanvasState s))
             else s in
    let cursor :=
      if toolWasAnnotate && isToolActive "annotate" s then "crosshair"
      else if toolWasCrop && isToolActive "crop" s then "crosshair"
      else "default" in
    setCursor cursor s
  else s.

(* ===================================================================== *)
(** ** editor-init.js: the toolbar *)
(* ===================================================================== *)

(** The values of the table [tools] of [initializeTools]: the name of a
    tool to toggle, or an action. *)
Inductive ToolAction : Type :=
  | ToggleOf (tool : string)
  | CopyAction                    (* [this.copyToClipboard] *)
  | SaveAction.                   (* [this.saveImage] *)

Definition tools : list (string * ToolAction) :=
  [ ("cropTool", ToggleOf "crop"); ("annotateTool", ToggleOf "annotate");
    ("shareTool", CopyAction); ("saveTool", SaveAction) ].

(** The click listener installed for an entry of the table; the second
    component is what an action handed to the encoder. *)
Definition listener (env : Env.t) (action : ToolAction) (s : Editor.t)
    : Editor.t * option Exported :=
  match action with
  | ToggleOf tool => (toggleTool env tool s, None)
  | CopyAction | SaveAction =>
      let s := fold_left (fun s toolName =>
                 if isToolActive toolName s then toggleTool env toolName s else s)
               ["crop"; "annotate"] s in
      let '(s, out) := match action with
                       | CopyAction => copyToClipboard env s
                       | _ => saveImage env s
                       end in
      (s, Some out)
  end.

(* ===================================================================== *)
(** ** background.js: [debounce] *)
(* ===================================================================== *)

Module Debounce.

Section Debounce.
Context {C A : Type}.
(** [func(...args)], with the state it works on threaded. *)
Variable func : A -> C -> C.

(** The variable [timeout] of the closure: the arguments held by the
    timer that is pending, if one is.
    [clearTimeout(timeout); timeout = setTimeout(() => func(...args), wait)] *)
Definition debounced (args : A) (timeout : option A) : option A := Some args.

(** The callback given to [setTimeout]; it only runs for a pending timer. *)
Definition expire (timeout : option A) (context : C) : option A * C :=
  match timeout with
  | Some args => (None, func args context)
  | None => (None, context)
  end.

Definition step (ev : Throttle.event A) (timeout : option A) (context : C)
    : option A * C :=
  match ev with
  | Throttle.Call args => (debounced args timeout, context)
  | Throttle.Expire => expire timeout context
  end.

Fixpoint run (evs : list (Throttle.event A)) (timeout : option A) (context : C)
    : option A * C :=
  match evs with
  | [] => (timeout, context)
  | ev :: evs => let '(timeout, context) := step ev timeout context in run evs timeout context
  end.

(** The arguments for which [func] is really applied along a trace. *)
Fixpoint executed (evs : list (Throttle.event A)) (timeout : option A) : list A :=
  match evs with
  | [] => []
  | Throttle.Call args :: evs => executed evs (debounced args timeout)
  | Throttle.Expire :: evs =>
      match timeout with
      | Some args => args :: executed evs None
      | None => executed evs None
      end
  end.
End Debounce.

End Debounce.

(* ===================================================================== *)
(** ** background.js: the capture *)
(* ===================================================================== *)

Module Background.

(** The values the service worker stores. *)
Inductive Value : Type :=
  | Str (s : string)
  | Num (n : Z)
  | Flag (b : bool).

(** The properties of a tab that are read; [None] is [undefined]. *)
Record Tab := mkTab { id : option Z; url : option string }.

Record Notification := mkNotification {
  notificationId : string;
  message : string;
  priority : Z;
  requireInteraction : bool
}.

(** The browser as the service worker acts on it. *)
Record Browser := mk {
  local : gmap string Value;            (* [chrome.storage.local] *)
  created : list string;                (* the urls given to [chrome.tabs.create] *)
  captures : nat;                       (* calls of [chrome.tabs.captureVisibleTab] *)
  notifications : list Notification     (* calls of [chrome.notifications.create] *)
}.

(** What the browser answers during one run: a promise resolves, or
    rejects with an error of the given message. *)
Record Answers := mkAnswers {
  capture : string + string;            (* the data URL, or the rejection *)
  create : option string;               (* [None]: the tab was created *)
  set : option string;                  (* [None]: the items were stored *)
  now : Z                               (* [Date.now()] *)
}.

Definition showNotification (env : Answers) (message : string) (type : string)
    (b : Browser) : Browser :=
  let options :=
    mkNotification
      (if String.eqb type "error"
       then "snipscreen-error-" ++ NilEmpty.string_of_int (Z.to_int (now env))
       else "snipscreen-info")
      message
      (if String.eqb type "error" then 2 else 0)%Z
      (String.eqb type "error") in
  mk (local b) (created b) (captures b) (notifications b ++ [options]).

(** [url.split('//')[0]] *)
Fixpoint beforeDoubleSlash (url : string) : string :=
  match url with
  | String "/"%char (String "/"%char _) => ""
  | String c rest => String c (beforeDoubleSlash rest)
  | EmptyString => ""
  end.

(** [s.startsWith(searchString)] *)
Fixpoint startsWith (s searchString : string) {struct searchString} : bool :=
  match searchString with
  | EmptyString => true
  | String c searchString =>
      match s with
      | String d s => Ascii.eqb c d && startsWith s searchString
      | EmptyString => false
      end
  end.

Definition protected (url : option string) : bool :=
  match url with
  | Some url => startsWith url "chrome://" || startsWith url "file://"
  | None => false
  end.

Definition temporaryKeys : list string := ["currentScreenshot"; "originalTab"; "cropOnlyMode"].

(** The [try] block of [handleScreenshot]: the browser reached, and the
    message of the error that interrupted it, if one did. *)
Definition captureTry (env : Answers) (tab : option Tab) (cropOnly : bool) (b : Browser)
    : Browser * option string :=
  match tab with
  | None => (b, Some "No active tab found")
  | Some t =>
      match id t with
      | None => (b, Some "No active tab found")
      | Some tabId =>
          if (tabId =? 0)%Z then (b, Some "No active tab found")
          else if protected (url t) then
            (b, Some ("Cannot capture system pages ("
                      ++ beforeDoubleSlash (default "" (url t))
                      ++ ") or local files.")%string)
          else
            let b := mk (local b) (created b) (S (captures b)) (notifications b) in
            match capture env with
            | inr message => (b, Some message)
            | inl screenshotUrl =>
                if String.eqb screenshotUrl "" then
                  (b, Some "Empty screenshot captured (check permissions or page content)")
                else
                  let editorUrl := "editor/editor.html" in
                  match create env with
                  | Some message => (b, Some message)
                  | None =>
                      let b := mk (local b) (created b ++ [editorUrl]) (captures b)
                                 (notifications b) in
                      match set env with
                      | Some message => (b, Some message)
                      | None =>
                          let b :=
                            mk (<["currentScreenshot" := Str screenshotUrl]>
                                  (<["originalTab" := Num tabId]>
                                     (<["cropOnlyMode" := Flag cropOnly]> (local b))))
                               (created b) (captures b) (notifications b) in
                          (showNotification env "Screenshot captured successfully"
                             "success" b, None)
                      end
                  end
            end
      end
  end.

(** The function handed to [debounce]. *)
Definition handleScreenshot (env : Answers) (tab : option Tab) (cropOnly : bool)
    (b : Browser) : Browser :=
  match captureTry env tab cropOnly b with
  | (b, None) => b
  | (b, Some message) =>
      let b := showNotification env
                 ("Screenshot failed: "
                  ++ (if String.eqb message "" then "Unknown error" else message))
                 "error" b in
      mk (fold_left (fun m key => delete key m) temporaryKeys (local b))
         (created b) (captures b) (notifications b)
  end.

(** The listener of [chrome.action.onClicked], once the debounce lets it
    through. *)
Definition onClicked (env : Answers) (tab : option Tab) (b : Browser) : Browser :=
  handleScreenshot env tab false b.

(** The listener of [chrome.runtime.onSuspend]. *)
Definition onSuspend (b : Browser) : Browser :=
  mk (fold_left (fun m key => delete key m) temporaryKeys (local b))
     (created b) (captures b) (notifications b).

End Background.

(* ===================================================================== *)
(** ** editor-init.js: the display size *)
(* ===================================================================== *)

(** The size [loadScreenshot] gives to the display canvas, from the
    rectangle of the container (or of the window without the toolbar)
    and the size of the capture. *)
Module Fit.
Section Fit.
Variables (containerWidth containerHeight : Q) (canvasWidth canvasHeight : Z).

Definition availableWidth : Q := containerWidth - 48.
Definition availableHeight : Q := containerHeight - 48.

Definition scaleX : Q := availableWidth / Zq canvasWidth.
Definition scaleY : Q := availableHeight / Zq canvasHeight.
(** [Math.min(scaleX, scaleY, 1)] *)
Definition scale : Q := Math.min (Math.min scaleX scaleY) 1.

(** [canvas.style.width] and [canvas.style.height], in pixels. *)
Definition styleWidth : Q := Zq canvasWidth * scale.
Definition styleHeight : Q := Zq canvasHeight * scale.
End Fit.
End Fit.

(* ===================================================================== *)
(** ** The events of the page *)
(* ===================================================================== *)

(** What reaches the editor once it is set up: clicks on the toolbar
    ([initializeTools]), the four pointer events of the canvas
    ([setupEventListeners]), the resizing of the window (the constructor
    binds it to [updateCanvasRect]) and the timer of the throttle. *)
Inductive Event : Type :=
  | Click (action : ToolAction)
  | MouseDown (e : MouseEvent.t)
  | MouseMove (e : MouseEvent.t)
  | MouseUp (e : MouseEvent.t)
  | MouseLeave
  | Resize
  | TimerExpired.

Section Dispatch.
Variable strokeRect :
  list Q -> string -> Q -> Q -> Q -> Q -> Q -> Canvas.t -> Canvas.t.

(** One event, answered by [env].  A handler that raises does so in
    [getMousePos], before it has written anything: the state stays. *)
Definition dispatch (env : Env.t) (ev : Event) (st : Throttle.state unit * Editor.t)
    : Throttle.state unit * Editor.t :=
  let '(th, s) := st in
  match ev with
  | Click action => (th, fst (listener env action s))
  | MouseDown e => (th, default s (handleMouseDown env e s))
  | MouseMove e => default (th, s) (handleMouseMove strokeRect env e th s)
  | MouseUp e => (th, default s (handleMouseUp env e s))
  | MouseLeave => (th, handleMouseLeave s)
  | Resize => (th, updateCanvasRect env s)
  | TimerExpired => (Throttle.expire th, s)
  end.

Fixpoint deliver (evs : list (Env.t * Event)) (st : Throttle.state unit * Editor.t)
    : Throttle.state unit * Editor.t :=
  match evs with
  | [] => st
  | (env, ev) :: evs => deliver evs (dispatch env ev st)
  end.
End Dispatch.

(* ===================================================================== *)
(** ** editor-events.js: detaching the listeners *)
(* ===================================================================== *)

(** [removeEditorEventListeners]: whether the four listeners of the canvas
    are attached afterwards, given whether they were before. *)
Definition removeEditorEventListeners (attached : bool) (s : Editor.t) : bool :=
  match canvas s with
  | Some _ => false
  | None => attached
  end.

(** The call of [removeEditorEventListeners] in [cleanup]: it comes after
    the canvases, the image, the elements and the snapshot are dropped. *)
Definition cleanupListeners (attached : bool) (s : Editor.t) : bool :=
  let s := setOriginalImage None (setOffscreenCanvas None (setCanvas None s)) in
  let s := setAnnotationElements [] s in
  let s := setLastImageData None s in
  removeEditorEventListeners attached s.

(* ===================================================================== *)
(** * Vocabulary of the statements *)
(* ===================================================================== *)

(** ** Tools *)

(** The drawing tools that are active, in the order of [drawingTools]. *)
Definition activeDrawingTools (s : Editor.t) : list string :=
  List.filter (fun t => isToolActive t s) drawingTools.

(** At most one drawing tool is active. *)
Definition exclusive (s : Editor.t) : Prop :=
  (length (activeDrawingTools s) <= 1)%nat.

(** ** Coordinates *)

(** Clamping to [[0, hi]], case by case. *)
Definition clampTo (hi v : Q) : Q :=
  if Qltb v 0 then 0 else if Qltb hi v then hi else v.

(** One axis of the display-to-bitmap mapping as the specification words
    it: offset from the rectangle's origin, times bitmap size over display
    size (or times 1 for a rectangle of zero extent), clamped. *)
Definition displayToBitmap (client origin bitmapSize rectSize : Q) : Q :=
  clampTo bitmapSize
    (if Qeq_bool rectSize 0 then client - origin
     else (client - origin) * bitmapSize / rectSize).

(** ** The Document *)

Definition sizeOf (c : option Canvas.t) : option (Z * Z) :=
  option_map (fun c => (Canvas.width c, Canvas.height c)) c.

(** The last toast shown, if any. *)
Definition lastToast (s : Editor.t) : option Toast.t := last (toasts s).

(** The Document of the specification: the working bitmap, the element
    list and the mode.  [s'] has the Document of [s], and a display canvas
    of the same size. *)
Definition sameDocument (s s' : Editor.t) : Prop :=
  offscreenCanvas s' = offscreenCanvas s
  /\ annotationElements s' = annotationElements s
  /\ activeTools s' = activeTools s
  /\ originalImage s' = originalImage s
  /\ sizeOf (canvas s') = sizeOf (canvas s).

(** The offscreen source canvas is absent or has zero width or height. *)
Definition sourceInvalid (s : Editor.t) : Prop :=
  match offscreenCanvas s with
  | Some off => Canvas.width off = 0%Z \/ Canvas.height off = 0%Z
  | None => True
  end.

(** ** Annotating *)

(** The extent of a drag from [a] to [pos], and the element a committed
    annotate gesture adds for it at clock reading [now]. *)
Definition dragWidth (a pos : Pos.t) : Q := Math.abs (Pos.x pos - Pos.x a).
Definition dragHeight (a pos : Pos.t) : Q := Math.abs (Pos.y pos - Pos.y a).

Definition newAnnotation (now : Z) (a pos : Pos.t) : Elem.t :=
  Elem.mk "rect" (annotationId now)
    (Math.min (Pos.x a) (Pos.x pos)) (Math.min (Pos.y a) (Pos.y pos))
    (dragWidth a pos) (dragHeight a pos) "#000000".

(** ** Cropping *)

(** [completeCrop] accepts the selection: the prerequisites hold, the
    working canvas is not empty and the clamped selection is larger than
    one pixel in both axes. *)
Definition cropReady (s : Editor.t) (cs ce : Pos.t) (img : Image.t) (off : Canvas.t) : Prop :=
  cropStart s = Some cs /\ cropEnd s = Some ce
  /\ originalImage s = Some img /\ offscreenCanvas s = Some off
  /\ isToolActive "crop" s = true
  /\ Canvas.width off <> 0%Z /\ Canvas.height off <> 0%Z
  /\ Selection.tooSmall cs ce (Canvas.width off) (Canvas.height off) = false.

(** The clamped source rectangle in the words of the specification:
    the selection is mapped "into original high-resolution image space:
    [sourceX = round(x0*scaleX)], etc., then clamp[ed] again to original
    image bounds", with [scaleX = originalWidth/currentWidth] and the
    "minimum 1-pixel width/height defensively enforced at every clamp
    step".  On one axis, clamping to the bounds keeps the part of the
    interval from [origin] of length [extent] that lies on an image of
    [size] pixels. *)
Module Spec.

Definition clampedOrigin (origin size : Z) : Z := Z.max 0 (Z.min origin size).

Definition clampedExtent (origin extent size : Z) : Z :=
  Z.max 1 (Z.min (origin + extent) size - Z.max 0 origin).

Section Rect.
Variables (cs ce : Pos.t) (img : Image.t) (w h : Z).

Definition scaleX : Q := Zq (Image.naturalWidth img) / Zq w.
Definition scaleY : Q := Zq (Image.naturalHeight img) / Zq h.

Definition sourceX : Z := Math.roundZ (Selection.clampedStartX cs ce w * scaleX).
Definition sourceY : Z := Math.roundZ (Selection.clampedStartY cs ce h * scaleY).
Definition sourceW : Z := Math.roundZ (Selection.clampedWidth cs ce w * scaleX).
Definition sourceH : Z := Math.roundZ (Selection.clampedHeight cs ce h * scaleY).

Definition clampedSourceX : Z := clampedOrigin sourceX (Image.naturalWidth img).
Definition clampedSourceY : Z := clampedOrigin sourceY (Image.naturalHeight img).
Definition clampedSourceWidth : Z :=
  clampedExtent sourceX sourceW (Image.naturalWidth img).
Definition clampedSourceHeight : Z :=
  clampedExtent sourceY sourceH (Image.naturalHeight img).
End Rect.

End Spec.


(** The toasts by which [completeCrop] reports its outcome. *)
Definition cropSucceeded : Toast.t := Toast.mk "Crop completed successfully!" false "success".

(** The half-open rectangle of an element meets the bitmap
    [0,w) x [0,h). *)
Definition overlapsBitmap (e : Elem.t) (w h : Z) : Prop :=
  exists px py : Q,
    Elem.x e <= px /\ px < Elem.x e + Elem.width e /\ 0 <= px /\ px < Zq w
    /\ Elem.y e <= py /\ py < Elem.y e + Elem.height e /\ 0 <= py /\ py < Zq h.

(** The rectangle of an element lies within the bitmap bounds. *)
Definition withinBitmap (e : Elem.t) (w h : Z) : Prop :=
  0 <= Elem.x e /\ 0 <= Elem.y e
  /\ Elem.x e + Elem.width e <= Zq w /\ Elem.y e + Elem.height e <= Zq h.

(** ** Worked inputs *)

(** The scenario of the specification: an 800x600 capture and the
    selection (100,100)-(300,250). *)
Module Scenario.

Definition img : Image.t := Image.mk 800 600 false (fun _ _ => Rgba.white).

Definition env : Env.t :=
  Env.mk (fun _ => true) (DOMRect.mk 0 0 800 600) 1700000000000 true None
    (Filename.units "SnipScreen_Captures") (Filename.units "2023-11-14T22:13:20.000Z") None.

(** The editor once the capture is loaded, and with the crop tool on. *)
Definition loaded : Editor.t :=
  match loadScreenshot_onload env img Editor.init with
  | inl s => s
  | inr _ => Editor.init
  end.

Definition cropping : Editor.t := toggleTool env "crop" loaded.

(** The same editor written out, with one tool on: both canvases are
    800x600 and white. *)
Definition display : Canvas.t := Canvas.mk 800 600 true Rgba.black (fun _ _ => Rgba.white).
Definition source : Canvas.t := Canvas.mk 800 600 false Rgba.black (fun _ _ => Rgba.white).

Definition idle (tool : string) : Editor.t :=
  Editor.mk (Some display) (Some source) {[tool]} false None None None
    (Some img) None [] (Some (DOMRect.mk 0 0 800 600)) "crosshair" [].

(** Annotations made before the crop: one outside the selection, one
    inside it, one across its top-left corner. *)
Definition rect (id : string) (x y w h : Q) : Elem.t :=
  Elem.mk "rect" id x y w h "#000000".

Definition outside : Elem.t := rect "anno-1" 50 50 20 20.
Definition within : Elem.t := rect "anno-2" 150 150 20 20.
Definition across : Elem.t := rect "anno-3" 90 90 20 20.

(** The crop tool on, the selection made, [completeCrop] about to run. *)
Definition selected (elements : list Elem.t) : Editor.t :=
  setAnnotationElements elements
    (setCropEnd (Some (Pos.mk 300 250)) (setCropStart (Some (Pos.mk 100 100)) (idle "crop"))).


End Scenario.

(** A capture of 2x2 pixels, white but for the transparent pixel (0,0),
    and the editor once it is loaded. *)
Module Glass.

Definition img : Image.t :=
  Image.mk 2 2 false
    (fun i j => if ((i =? 0) && (j =? 0))%Z then Rgba.transparent else Rgba.white).

Definition loaded : Editor.t :=
  match loadScreenshot_onload Scenario.env img Editor.init with
  | inl s => s
  | inr _ => Editor.init
  end.

End Glass.

(** A crop drag in progress in the scenario: pointer down at (100,100). *)
Module Drag.

(** A substrate that paints no strokes. *)
Definition noStroke (dash : list Q) (style : string) (lineWidth x y w h : Q)
    (c : Canvas.t) : Canvas.t := c.

Definition start : Pos.t := Pos.mk 100 100.

Definition dragging : Editor.t :=
  setCropEnd (Some start)
    (setCropStart (Some start) (setIsDrawing true (Scenario.idle "crop"))).

End Drag.

(** Annotate gestures in the scenario. *)
Module Annotate.

Definition annotating : Editor.t := Scenario.idle "annotate".

(** A drag in progress, anchored at (100,100), with the display snapshot
    taken. *)
Definition pressed : Editor.t :=
  setLastImageData (ImageData.get Scenario.display)
    (setAnnotateStart (Some (Pos.mk 100 100)) (setIsDrawing true annotating)).

(** Pointer-down at [(x0,y0)] followed by pointer-up at [(x1,y1)]. *)
Definition gesture (x0 y0 x1 y1 : Q) (s : Editor.t) : option Editor.t :=
  match handleMouseDown Scenario.env (MouseEvent.mk x0 y0 0) s with
  | Some s => handleMouseUp Scenario.env (MouseEvent.mk x1 y1 0) s
  | None => None
  end.

(** Two gestures, both committed while the clock reads the same
    millisecond. *)
Definition both : option Editor.t :=
  match gesture 100 100 200 200 annotating with
  | Some s => gesture 300 300 400 400 s
  | None => None
  end.

End Annotate.
(** ** Rendering *)

(** A cell of the pixel grid starting at [i] lies in the integer interval
    that starts at [a] and extends by [w] (towards the origin when [w] is
    negative). *)
Definition covers (a w i : Z) : bool :=
  ((Z.min a (a + w) <=? i) && (i <? Z.max a (a + w)))%Z.

Definition covered (x y w h i j : Z) : bool := covers x w i && covers y h j.

(** Pixel [(i,j)] lies in the integer-rounded rectangle that the export
    paints for [e]. *)
Definition redacts (e : Elem.t) (i j : Z) : bool :=
  String.eqb (Elem.type e) "rect"
  && covered (Math.roundZ (Elem.x e)) (Math.roundZ (Elem.y e))
       (Math.roundZ (Elem.width e)) (Math.roundZ (Elem.height e)) i j.

(** Two canvases of the same size that show the same pixels. *)
Definition samePicture (c c' : Canvas.t) : Prop :=
  Canvas.width c' = Canvas.width c /\ Canvas.height c' = Canvas.height c
  /\ forall i j, Canvas.inside c i j = true -> Canvas.pixels c' i j = Canvas.pixels c i j.

(** An editor whose display canvas shows something else than the
    Document: the scenario with one annotation, the display painted black. *)
Module Stale.

Definition painted : Canvas.t := Canvas.mk 800 600 true Rgba.white (fun _ _ => Rgba.black).

Definition fresh : Editor.t := setAnnotationElements [Scenario.within] (Scenario.idle "annotate").
Definition stale : Editor.t := setCanvas (Some painted) fresh.

End Stale.

(** ** Gestures *)

(** [s'] differs from [s] at most in the display canvas, the cached
    rectangle, the cursor and the end of the selection. *)
Definition displayOnly (s s' : Editor.t) : Prop :=
  offscreenCanvas s' = offscreenCanvas s
  /\ annotationElements s' = annotationElements s
  /\ activeTools s' = activeTools s
  /\ originalImage s' = originalImage s
  /\ isDrawing s' = isDrawing s
  /\ cropStart s' = cropStart s
  /\ annotateStart s' = annotateStart s
  /\ lastImageData s' = lastImageData s
  /\ toasts s' = toasts s.

(** The pointer moves [es], delivered in order. *)
Fixpoint moves
    (strokeRect : list Q -> string -> Q -> Q -> Q -> Q -> Q -> Canvas.t -> Canvas.t)
    (env : Env.t) (es : list MouseEvent.t) (th : Throttle.state unit) (s : Editor.t)
    : option (Throttle.state unit * Editor.t) :=
  match es with
  | [] => Some (th, s)
  | e :: es =>
      match handleMouseMove strokeRect env e th s with
      | Some (th, s) => moves strokeRect env es th s
      | None => None
      end
  end.

(** The scenario after a first crop to 200x150: the working bitmap and
    the display have the size of the selection, the original image is
    still the capture.  [again] holds a white working bitmap, [again']
    a black one; in both the selection (0,0)-(100,75) has been made. *)
Module Recrop.

Definition display : Canvas.t := Canvas.mk 200 150 true Rgba.black (fun _ _ => Rgba.white).
Definition bitmap : Canvas.t := Canvas.mk 200 150 false Rgba.black (fun _ _ => Rgba.white).
Definition bitmap' : Canvas.t := Canvas.mk 200 150 false Rgba.black (fun _ _ => Rgba.black).

Definition selecting (working : Canvas.t) : Editor.t :=
  Editor.mk (Some display) (Some working) {["crop"]} false
    (Some (Pos.mk 0 0)) (Some (Pos.mk 100 75)) None
    (Some Scenario.img) None [] (Some (DOMRect.mk 0 0 200 150)) "crosshair" [].

Definition again : Editor.t := selecting bitmap.
Definition again' : Editor.t := selecting bitmap'.

End Recrop.

(** ** The toolbar *)

(** [s'] holds the pictures and the gesture of [s]: only the mode, the
    cursor, the toasts and the pixels of the display may differ. *)
Definition sameContent (s s' : Editor.t) : Prop :=
  offscreenCanvas s' = offscreenCanvas s
  /\ annotationElements s' = annotationElements s
  /\ originalImage s' = originalImage s
  /\ sizeOf (canvas s') = sizeOf (canvas s)
  /\ isDrawing s' = isDrawing s
  /\ cropStart s' = cropStart s /\ cropEnd s' = cropEnd s
  /\ annotateStart s' = annotateStart s.

(** What an export of [s] started from the toolbar hands to the encoder. *)
Definition exportOf (env : Env.t) (action : ToolAction) (s : Editor.t) : option Exported :=
  match action with
  | ToggleOf _ => None
  | CopyAction =>
      Some (if emptyImage s then Refused
            else if Env.clipboard env then Rendered (prepareFinalCanvas s) else Abandoned)
  | SaveAction =>
      Some (if emptyImage s then Refused else Rendered (prepareFinalCanvas s))
  end.

(** ** Downloads *)

(** The attempts up to and including attempt [k], each failed one
    followed by its pause of [300 + 200 * attempt] milliseconds. *)
Definition schedule (k : nat) : list Download.action :=
  flat_map (fun i => [Download.Attempt (Z.of_nat i);
                      Download.Sleep (300 + Z.of_nat i * 200)]) (seq 0 k)
  ++ [Download.Attempt (Z.of_nat k)].

(** The pauses in a log, added up. *)
Definition slept (log : list Download.action) : Z :=
  fold_right (fun a total => match a with
                             | Download.Sleep ms => (ms + total)%Z
                             | Download.Attempt _ => total
                             end) 0%Z log.

Definition attempts (log : list Download.action) : list Z :=
  flat_map (fun a => match a with
                     | Download.Attempt i => [i]
                     | Download.Sleep _ => []
                     end) log.

(** ** File names *)

Definition digit (c : N) : bool := ((48 <=? c) && (c <=? 57))%N.

(** The form [YYYY-MM-DDTHH:mm:ss.sssZ] of [toISOString], each field a
    run of digits. *)
Definition isoString (year month day hour minute second millis : list N) : list N :=
  year ++ [Filename.hyphen] ++ month ++ [Filename.hyphen] ++ day ++ [Filename.letterT]
  ++ hour ++ [Filename.colon] ++ minute ++ [Filename.colon] ++ second ++ [Filename.dot]
  ++ millis ++ [Filename.letterZ].

Definition allDigits (fields : list (list N)) : Prop :=
  Forall (fun field => forallb digit field = true) fields.

(** The string consists of slashes only (it may be empty). *)
Definition onlySlashes (s : list N) : bool := forallb (fun c => (c =? Filename.slash)%N) s.

(** ** Event traces *)

(** The number of timer expiries in a trace. *)
Definition expiries {A : Type} (evs : list (Throttle.event A)) : nat :=
  length (List.filter (fun ev => match ev with Throttle.Expire => true | _ => false end) evs).

(** ** The capture *)

(** The run stored a capture for the editor. *)
Definition stored (url : string) (tabId : Z) (cropOnly : bool) (b : Background.Browser) : Prop :=
  Background.local b !! "currentScreenshot" = Some (Background.Str url)
  /\ Background.local b !! "originalTab" = Some (Background.Num tabId)
  /\ Background.local b !! "cropOnlyMode" = Some (Background.Flag cropOnly).

(** Nothing is left for an editor to load. *)
Definition cleared (b : Background.Browser) : Prop :=
  forall key, In key Background.temporaryKeys -> Background.local b !! key = None.

(** The last notification is an error that stays until it is clicked. *)
Definition reportedFailure (b : Background.Browser) : Prop :=
  exists n, List.last (map Some (Background.notifications b)) None = Some n
            /\ Background.priority n = 2%Z /\ Background.requireInteraction n = true
            /\ Background.startsWith (Background.message n) "Screenshot failed: " = true.

Module Capture.

Definition blank : Background.Browser := Background.mk ∅ [] 0 [].

(** A browser that holds the data of an earlier capture. *)
Definition used : Background.Browser :=
  Background.mk (<["currentScreenshot" := Background.Str "data:image/png;base64,old"]> ∅)
    [] 0 [].

Definition fine : Background.Answers :=
  Background.mkAnswers (inl "data:image/png;base64,iVBOR") None None 1700000000000.

Definition page : Background.Tab := Background.mkTab (Some 7%Z) (Some "https://example.org/").
Definition settings : Background.Tab := Background.mkTab (Some 8%Z) (Some "chrome://settings").

End Capture.

(** ** Invariants *)

(** An annotation as the editor makes them. *)
Definition blackRect (e : Elem.t) : Prop :=
  Elem.type e = "rect" /\ Elem.color e = "#000000".

(** The display canvas is there and has the size of the working bitmap. *)
Definition sameSize (s : Editor.t) : Prop :=
  is_Some (canvas s) /\ sizeOf (canvas s) = sizeOf (offscreenCanvas s).

(** The original image is kept, and the working bitmap is no larger. *)
Definition bounded (s : Editor.t) : Prop :=
  exists img off,
    originalImage s = Some img /\ offscreenCanvas s = Some off
    /\ (0 <= Canvas.width off <= Image.naturalWidth img)%Z
    /\ (0 <= Canvas.height off <= Image.naturalHeight img)%Z.

Definition wellFormed (s : Editor.t) : Prop :=
  exclusive s /\ sameSize s /\ Forall blackRect (annotationElements s) /\ bounded s.

(** A rasteriser of strokes that leaves the size of the canvas alone. *)
Definition keepsSize
    (strokeRect : list Q -> string -> Q -> Q -> Q -> Q -> Q -> Canvas.t -> Canvas.t) : Prop :=
  forall dash style lineWidth x y w h c,
    Canvas.width (strokeRect dash style lineWidth x y w h c) = Canvas.width c
    /\ Canvas.height (strokeRect dash style lineWidth x y w h c) = Canvas.height c.

(** A session in the scenario: the crop tool, a drag, a crop; then the
    annotate tool, a drag that is cancelled, and a copy. *)
Module Session.

Definition events : list (Env.t * Event) :=
  map (fun ev => (Scenario.env, ev))
    [ Click (ToggleOf "crop");
      MouseDown (MouseEvent.mk 100 100 0); MouseMove (MouseEvent.mk 200 180 0);
      TimerExpired; MouseMove (MouseEvent.mk 300 250 0); MouseUp (MouseEvent.mk 300 250 0);
      Click (ToggleOf "annotate");
      MouseDown (MouseEvent.mk 10 10 0); MouseMove (MouseEvent.mk 50 50 0); MouseLeave;
      Resize; Click CopyAction ].

End Session.

(** ** The crop guides *)

(** The colour of the mask, [rgba(0, 0, 0, 0.4)]. *)
Definition maskColour : Rgba.t := Rgba.mk 0 0 0 (4 # 10).

(** The corners at which handles are drawn for the selection from
    [(a, b)] of extent [(w, h)]. *)
Definition corners (a b w h : Z) : list (Z * Z) :=
  [ (a, b); (a + w, b); (a, b + h); (a + w, b + h) ]%Z.

(** The band that a stroke of width [lineWidth] along the outline of a
    rectangle can touch: the cell of pixel [(i,j)] meets the rectangle
    grown by half the line width on every side, and does not lie within
    the rectangle shrunk by as much. *)
Definition strokeBand (lineWidth x y w h : Q) (i j : Z) : bool :=
  let r := lineWidth / 2 in
  Qltb (x - r) (Zq i + 1) && Qltb (Zq i) (x + w + r)
  && Qltb (y - r) (Zq j + 1) && Qltb (Zq j) (y + h + r)
  && negb (Qleb (x + r) (Zq i) && Qleb (Zq i + 1) (x + w - r)
           && Qleb (y + r) (Zq j) && Qleb (Zq j + 1) (y + h - r)).

(** A rasteriser of strokes is local: it leaves the size of the canvas
    alone, and every pixel outside the band of the stroke it is asked to
    draw, whatever the dashes, the colour and the anti-aliasing. *)
Definition strokesLocal
    (strokeRect : list Q -> string -> Q -> Q -> Q -> Q -> Q -> Canvas.t -> Canvas.t)
    : Prop :=
  forall dash style lineWidth x y w h c,
    0 <= lineWidth -> 0 <= w -> 0 <= h ->
    Canvas.width (strokeRect dash style lineWidth x y w h c) = Canvas.width c
    /\ Canvas.height (strokeRect dash style lineWidth x y w h c) = Canvas.height c
    /\ forall i j, strokeBand lineWidth x y w h i j = false ->
         Canvas.pixels (strokeRect dash style lineWidth x y w h c) i j
         = Canvas.pixels c i j.

(** A rasteriser without anti-aliasing that draws every stroke solid: the
    pixels of the band take the colour of the stroke. *)
Definition solidStroke (dash : list Q) (style : string) (lineWidth x y w h : Q)
    (c : Canvas.t) : Canvas.t :=
  Canvas.withPixels (fun i j =>
    if Canvas.inside c i j && strokeBand lineWidth x y w h i j
    then default Rgba.black (Css.parse style)
    else Canvas.pixels c i j) c.

(** Pixel [(i,j)] lies in the bands of the two borders drawn around the
    selection from [(a, b)] of extent [(w, h)]: the dashed one of width 1
    on its outline and the solid one of width 2 one pixel further out.
    Together they reach from two pixels outside the selection to one
    pixel inside it. *)
Definition onBorder (a b w h i j : Z) : bool :=
  covered (a - 2) (b - 2) (w + 4) (h + 4) i j
  && negb ((a + 1 <=? i) && (i <? a + w - 1) && (b + 1 <=? j) && (j <? b + h - 1))%Z.

(** Pixel [(i,j)] lies under one of the corner handles, which are drawn
    for selections wider and higher than 10: a square of 8 pixels around
    the corner, and the band of its outline of width 1. *)
Definition underHandle (a b w h i j : Z) : bool :=
  (10 <? w)%Z && (10 <? h)%Z
  && existsb (fun '(cx, cy) => covered (cx - 5) (cy - 5) 10 10 i j) (corners a b w h).

(* ===================================================================== *)
(** * Properties *)
(* ===================================================================== *)

(** ** Numbers *)

Lemma Qgtb_true (a b : Q) : Qgtb a b = true <-> b < a.
Proof.
  unfold Qgtb. rewrite negb_true_iff. split.
  - intros H. apply Qnot_le_lt. intros Hle. apply Qle_bool_iff in Hle. congruence.
  - intros H. destruct (Qle_bool a b) eqn:E; [|reflexivity].
    apply Qle_bool_iff in E. lra.
Qed.

Lemma Qltb_true (a b : Q) : Qltb a b = true <-> a < b.
Proof. unfold Qltb. apply (Qgtb_true b a). Qed.

Lemma Qleb_true (a b : Q) : Qleb a b = true <-> a <= b.
Proof. apply Qle_bool_iff. Qed.

Lemma Qgtb_false (a b : Q) : Qgtb a b = false <-> a <= b.
Proof.
  unfold Qgtb. rewrite negb_false_iff. apply Qle_bool_iff.
Qed.

Lemma Qfloor_unique (q : Q) (z : Z) : Zq z <= q -> q < Zq (z + 1) -> Qfloor q = z.
Proof.
  intros Hlo Hhi.
  pose proof (Qfloor_le q) as H1. pose proof (Qlt_floor q) as H2.
  assert (Zq (Qfloor q) < Zq (z + 1)) as A by lra.
  assert (Zq z < Zq (Qfloor q + 1)) as B by lra.
  rewrite <- Zlt_Qlt in A, B. lia.
Qed.

(** Rounding commutes with a translation by an integer. *)
Lemma roundZ_shift (q : Q) (n : Z) : Math.roundZ (q - Zq n) = (Math.roundZ q - n)%Z.
Proof.
  unfold Math.roundZ. apply Qfloor_unique.
  - pose proof (Qfloor_le (q + (1 # 2))). unfold Z.sub.
    rewrite inject_Z_plus, inject_Z_opp. lra.
  - pose proof (Qlt_floor (q + (1 # 2))).
    replace (Qfloor (q + (1 # 2)) - n + 1)%Z
      with ((Qfloor (q + (1 # 2)) + 1) + - n)%Z by lia.
    rewrite inject_Z_plus, inject_Z_opp. lra.
Qed.

Lemma roundZ_mono (p q : Q) : p <= q -> (Math.roundZ p <= Math.roundZ q)%Z.
Proof. intros H. apply Qfloor_resp_le. lra. Qed.

Lemma roundZ_inject (z : Z) : Math.roundZ (Zq z) = z.
Proof.
  unfold Math.roundZ. apply Qfloor_unique; [lra|]. rewrite inject_Z_plus.
  change (Zq 1) with 1. lra.
Qed.

(** [Math.max(0, Math.min(v, hi))] lands in [[0, hi]]. *)
Lemma clamp_range (v hi : Q) :
  0 <= hi -> 0 <= Math.max 0 (Math.min v hi) /\ Math.max 0 (Math.min v hi) <= hi.
Proof.
  intros H. unfold Math.max, Math.min. split.
  - apply Q.le_max_l.
  - apply Q.max_lub; [exact H | apply Q.le_min_r].
Qed.

(** ** Fields left alone by the helpers *)

Ltac unfold_setters :=
  unfold setCanvas, setOffscreenCanvas, setActiveTools, setIsDrawing, setCropStart,
    setCropEnd, setAnnotateStart, setOriginalImage, setLastImageData,
    setAnnotationElements, setCanvasRect, setToasts, showToast, setToolActive in *.

Ltac frame :=
  intros;
  unfold resetCropState, restoreCanvasState, saveCanvasState, updateCanvasRect,
    redrawCanvas, setCursor;
  unfold_setters; cbn;
  repeat match goal with
         | |- context [match ?x with _ => _ end] => destruct x; cbn
         end;
  try reflexivity.

Lemma isToolActive_setCursor t v s : isToolActive t (setCursor v s) = isToolActive t s.
Proof. unfold isToolActive. frame. Qed.

Lemma isToolActive_redrawCanvas t s : isToolActive t (redrawCanvas s) = isToolActive t s.
Proof. unfold isToolActive. frame. Qed.

Lemma isToolActive_showToast t m p k s : isToolActive t (showToast m p k s) = isToolActive t s.
Proof. reflexivity. Qed.

Lemma isToolActive_setToolActive t u b s :
  isToolActive t (setToolActive u b s)
  = if String.eqb t u then b else isToolActive t s.
Proof.
  unfold isToolActive, setToolActive.
  destruct (String.eqb_spec t u) as [->|Hne]; destruct b; cbn.
  - apply bool_decide_eq_true, elem_of_union_l, elem_of_singleton. reflexivity.
  - apply bool_decide_eq_false. rewrite elem_of_difference, elem_of_singleton. tauto.
  - apply bool_decide_ext. rewrite elem_of_union, elem_of_singleton. tauto.
  - apply bool_decide_ext. rewrite elem_of_difference, elem_of_singleton. tauto.
Qed.

(* ===================================================================== *)
(** ** Tool exclusivity *)
(* ===================================================================== *)

Lemma exclusive_iff s :
  exclusive s <-> isToolActive "crop" s && isToolActive "annotate" s = false.
Proof.
  unfold exclusive, activeDrawingTools, drawingTools. cbn.
  destruct (isToolActive "crop" s), (isToolActive "annotate" s); cbn; split;
    intros; try reflexivity; try discriminate; lia.
Qed.

Lemma toggleTool_active env tool t s :
  Env.toolShown env tool = true ->
  isToolActive t (toggleTool env tool s)
  = if String.eqb t tool then negb (isToolActive tool s)
    else if isToolActive tool s then isToolActive t s
    else if existsb (String.eqb t) drawingTools then false
    else isToolActive t s.
Proof.
  intros Hshown. unfold toggleTool. rewrite Hshown. cbn [negb].
  destruct (isToolActive tool s) eqn:Hact.
  - assert (isToolActive t
              (if negb (existsb (fun t0 => isToolActive t0 (setToolActive tool false s))
                          drawingTools)
               then setCursor "default" (setToolActive tool false s)
               else setToolActive tool false s)
            = isToolActive t (setToolActive tool false s)) as E.
    { destruct (negb _); [apply isToolActive_setCursor | reflexivity]. }
    destruct (String.eqb tool "crop");
      rewrite ?isToolActive_redrawCanvas, E, isToolActive_setToolActive;
      destruct (String.eqb t tool); reflexivity.
  - set (s1 := fold_left _ _ s).
    assert (isToolActive t (setToolActive tool true s1)
            = if String.eqb t tool then true
              else if existsb (String.eqb t) drawingTools then false
              else isToolActive t s) as E.
    { rewrite isToolActive_setToolActive.
      destruct (String.eqb_spec t tool) as [Heq|Hne]; [reflexivity|].
      subst s1. unfold drawingTools. cbn [List.filter existsb].
      destruct (String.eqb_spec "crop" tool) as [Hc|Hc];
        destruct (String.eqb_spec "annotate" tool) as [Ha|Ha];
        try congruence; try subst tool; cbn [negb fold_left];
        repeat match goal with
               | |- context [if isToolActive ?u ?st then _ else _] =>
                   destruct (isToolActive u st) eqn:?
               end;
        rewrite ?isToolActive_setToolActive in *; cbn in *;
        destruct (String.eqb_spec t "crop") as [Htc|Htc];
        destruct (String.eqb_spec t "annotate") as [Hta|Hta];
        cbn; try congruence; try reflexivity. }
    destruct (String.eqb tool "crop" || String.eqb tool "annotate");
      rewrite ?isToolActive_showToast, ?isToolActive_setCursor; exact E.
Qed.

(** C7. At most one drawing tool is active at any time: [toggleTool] keeps
    the invariant [exclusive] whatever tool it is given; switching on a
    drawing tool that is shown and inactive leaves that tool as the only
    active drawing tool; in particular, switching on [annotate] while
    [crop] is active leaves [annotate] active and [crop] inactive.  The
    constructor's state satisfies the invariant. *)
Theorem toggleTool_exclusive :
  exclusive Editor.init
  /\ (forall env tool s, exclusive s -> exclusive (toggleTool env tool s))
  /\ (forall env tool s,
        In tool drawingTools -> Env.toolShown env tool = true ->
        isToolActive tool s = false ->
        activeDrawingTools (toggleTool env tool s) = [tool])
  /\ (forall env s,
        Env.toolShown env "annotate" = true ->
        isToolActive "crop" s = true -> isToolActive "annotate" s = false ->
        isToolActive "annotate" (toggleTool env "annotate" s) = true
        /\ isToolActive "crop" (toggleTool env "annotate" s) = false).
Proof.
  split; [|split; [|split]].
  - apply exclusive_iff. reflexivity.
  - intros env tool s Hex. apply exclusive_iff. apply exclusive_iff in Hex.
    destruct (Env.toolShown env tool) eqn:Hshown.
    + rewrite !toggleTool_active by exact Hshown. cbn [drawingTools existsb].
      destruct (String.eqb_spec "crop" tool) as [Hc|Hc];
        destruct (String.eqb_spec "annotate" tool) as [Ha|Ha];
        try congruence; try subst tool; cbn;
        destruct (isToolActive "crop" s) eqn:Ec;
        destruct (isToolActive "annotate" s) eqn:Ea;
        try discriminate; try reflexivity;
        destruct (isToolActive tool s); reflexivity.
    + unfold toggleTool. rewrite Hshown. exact Hex.
  - intros env tool s Hin Hshown Hoff.
    unfold activeDrawingTools, drawingTools. cbn [List.filter].
    rewrite !toggleTool_active by exact Hshown. rewrite Hoff.
    cbn [drawingTools existsb].
    destruct Hin as [<-|[<-|[]]]; reflexivity.
  - intros env s Hshown Hc Ha.
    rewrite !toggleTool_active by exact Hshown. rewrite Ha. split; reflexivity.
Qed.

Lemma toggleTool_exclusive_witness :
  exclusive (toggleTool Scenario.env "annotate" Scenario.cropping)
  /\ activeDrawingTools (toggleTool Scenario.env "annotate" Scenario.cropping)
     = ["annotate"]
  /\ isToolActive "crop" (toggleTool Scenario.env "annotate" Scenario.cropping) = false.
Proof.
  destruct toggleTool_exclusive as (_ & Hinv & Hon & Hswitch).
  split; [|split].
  - apply Hinv. apply exclusive_iff. reflexivity.
  - apply Hon; [right; left; reflexivity | reflexivity | reflexivity].
  - apply Hswitch; reflexivity.
Defined.

(* ===================================================================== *)
(** ** Display space to bitmap space *)
(* ===================================================================== *)

Lemma clamp_spec (v hi : Q) :
  0 <= hi -> Math.max 0 (Math.min v hi) == clampTo hi v.
Proof.
  intros Hhi. unfold clampTo, Math.max, Math.min.
  destruct (Qltb v 0) eqn:E1.
  - apply Qltb_true in E1.
    rewrite (Q.min_l v hi) by lra. apply Q.max_l. lra.
  - assert (0 <= v) as Hv.
    { destruct (Qlt_le_dec v 0) as [Hlt|Hge]; [|exact Hge].
      apply Qltb_true in Hlt. congruence. }
    destruct (Qltb hi v) eqn:E2.
    + apply Qltb_true in E2.
      rewrite (Q.min_r v hi) by lra. apply Q.max_r. exact Hhi.
    + assert (v <= hi) as Hle.
      { destruct (Qlt_le_dec hi v) as [Hlt|Hge]; [|exact Hge].
        apply Qltb_true in Hlt. congruence. }
      rewrite (Q.min_l v hi) by exact Hle. apply Q.max_r. exact Hv.
Qed.

Lemma clampTo_comp (hi v v' : Q) : v == v' -> clampTo hi v == clampTo hi v'.
Proof.
  intros H. unfold clampTo, Qltb.
  rewrite (Qleb_comp 0 0 (Qeq_refl 0) v v' H).
  rewrite (Qleb_comp v v' H hi hi (Qeq_refl hi)).
  destruct (Qle_bool 0 v'), (Qle_bool v' hi); cbn; try reflexivity; exact H.
Qed.

Lemma axis_mapping (client origin rectSize : Q) (size : Z) :
  (0 <= size)%Z ->
  Math.max 0
    (Math.min ((client - origin)
               * (if Qeq_bool rectSize 0 then 1 else Zq size / rectSize))
       (Zq size))
  == displayToBitmap client origin (Zq size) rectSize.
Proof.
  intros Hsize. assert (0 <= Zq size) as H0.
  { change 0 with (Zq 0). rewrite <- Zle_Qle. exact Hsize. }
  rewrite clamp_spec by exact H0. unfold displayToBitmap.
  apply clampTo_comp.
  destruct (Qeq_bool rectSize 0) eqn:E.
  - ring.
  - apply Qeq_bool_neq in E. field. exact E.
Qed.

(** C8. With a cached display rectangle, [getMousePos] maps a pointer
    event to ((clientX - left) * width/rect.width, (clientY - top) *
    height/rect.height), each component clamped to [0, width] and
    [0, height] of the bitmap; a rectangle of zero width or height gives
    the scale factor 1 on that axis instead of a division. *)
Theorem getMousePos_mapping (env : Env.t) (e : MouseEvent.t) (s : Editor.t)
    (rect : DOMRect.t) (c : Canvas.t) :
  canvasRect s = Some rect -> canvas s = Some c ->
  (0 <= Canvas.width c)%Z -> (0 <= Canvas.height c)%Z ->
  exists pos,
    getMousePos env e s = Some (pos, s)
    /\ Pos.x pos == displayToBitmap (MouseEvent.clientX e) (DOMRect.left rect)
                      (Zq (Canvas.width c)) (DOMRect.width rect)
    /\ Pos.y pos == displayToBitmap (MouseEvent.clientY e) (DOMRect.top rect)
                      (Zq (Canvas.height c)) (DOMRect.height rect)
    /\ 0 <= Pos.x pos <= Zq (Canvas.width c)
    /\ 0 <= Pos.y pos <= Zq (Canvas.height c).
Proof.
  intros Hrect Hcanvas Hw Hh.
  unfold getMousePos. rewrite Hrect. cbn. rewrite Hrect, Hcanvas.
  eexists. split; [reflexivity|]. cbn [Pos.x Pos.y].
  assert (0 <= Zq (Canvas.width c)) as Hw'.
  { change 0 with (Zq 0). rewrite <- Zle_Qle. exact Hw. }
  assert (0 <= Zq (Canvas.height c)) as Hh'.
  { change 0 with (Zq 0). rewrite <- Zle_Qle. exact Hh. }
  split; [apply axis_mapping; exact Hw|].
  split; [apply axis_mapping; exact Hh|].
  split; apply clamp_range; assumption.
Qed.

Lemma getMousePos_mapping_witness :
  exists pos,
    getMousePos Scenario.env (MouseEvent.mk 400 150 0) Scenario.loaded
      = Some (pos, Scenario.loaded)
    /\ Pos.x pos == 400 /\ Pos.y pos == 150.
Proof.
  destruct (getMousePos_mapping Scenario.env (MouseEvent.mk 400 150 0) Scenario.loaded
              (DOMRect.mk 0 0 800 600)
              (Canvas.mk 800 600 true Rgba.black
                 (match canvas Scenario.loaded with
                  | Some c => Canvas.pixels c
                  | None => fun _ _ => Rgba.black
                  end)))
    as (pos & Hpos & Hx & Hy & _); try reflexivity; try (cbn; lia).
  exists pos. split; [exact Hpos|]. split.
  - rewrite Hx. reflexivity.
  - rewrite Hy. reflexivity.
Defined.

(* ===================================================================== *)
(** ** The export render *)
(* ===================================================================== *)

Lemma paintFinalElement_size (c : Canvas.t) (e : Elem.t) :
  Canvas.width (paintFinalElement c e) = Canvas.width c
  /\ Canvas.height (paintFinalElement c e) = Canvas.height c.
Proof.
  unfold paintFinalElement, Canvas.fillRect, Canvas.setFillStyle.
  destruct (String.eqb _ _); [|split; reflexivity].
  destruct (Css.parse _); split; reflexivity.
Qed.

Lemma paintFinal_size (l : list Elem.t) (c : Canvas.t) :
  Canvas.width (fold_left paintFinalElement l c) = Canvas.width c
  /\ Canvas.height (fold_left paintFinalElement l c) = Canvas.height c.
Proof.
  revert c. induction l as [|e l IH]; intros c; cbn [fold_left].
  - split; reflexivity.
  - destruct (IH (paintFinalElement c e)) as [Hw Hh].
    destruct (paintFinalElement_size c e) as [Hw' Hh'].
    split; congruence.
Qed.

Lemma validSource_false (off : Canvas.t) :
  validSource off = false <-> Canvas.width off = 0%Z \/ Canvas.height off = 0%Z.
Proof.
  unfold validSource. rewrite negb_false_iff, orb_true_iff, !Z.eqb_eq. tauto.
Qed.

Lemma prepareFinalCanvas_invalid (s : Editor.t) :
  sourceInvalid s ->
  prepareFinalCanvas s = Canvas.setHeight 1 (Canvas.setWidth 1 (Canvas.create true)).
Proof.
  unfold sourceInvalid, prepareFinalCanvas.
  destruct (offscreenCanvas s) as [off|]; [|reflexivity].
  intros H. apply validSource_false in H. rewrite H. reflexivity.
Qed.

Lemma prepareFinalCanvas_valid (s : Editor.t) (off : Canvas.t) :
  offscreenCanvas s = Some off -> validSource off = true ->
  Canvas.width (prepareFinalCanvas s) = Canvas.width off
  /\ Canvas.height (prepareFinalCanvas s) = Canvas.height off.
Proof.
  intros Hoff Hvalid. unfold prepareFinalCanvas. rewrite Hoff, Hvalid.
  match goal with
  | |- context [fold_left paintFinalElement ?l ?c] =>
      destruct (paintFinal_size l c) as [-> ->]
  end.
  unfold Canvas.drawCanvas, Canvas.fillRect, Canvas.setFillStyle. cbn. split; reflexivity.
Qed.

(** C10, as the code has it.  On an absent or zero-sized offscreen canvas
    [prepareFinalCanvas] returns a 1x1 canvas with nothing drawn on it
    (every pixel still transparent), without raising; otherwise the
    dimensions of the result are those of the offscreen canvas.
    [copyToClipboard] and [saveImage] hand that canvas to the encoder
    only when the display canvas is present with non-zero dimensions and
    no crop drag is in progress (and, for the copy, the clipboard can be
    written): when the display canvas is itself absent or zero-sized
    they refuse with an error toast, during a crop drag they refuse with
    the warning "Finalize cropping before ...", and in both cases they
    render nothing. *)
Theorem prepareFinalCanvas_fallback (env : Env.t) (s : Editor.t) :
  (sourceInvalid s ->
     Canvas.width (prepareFinalCanvas s) = 1%Z
     /\ Canvas.height (prepareFinalCanvas s) = 1%Z
     /\ forall i j, Canvas.pixels (prepareFinalCanvas s) i j = Rgba.transparent)
  /\ (forall off, offscreenCanvas s = Some off -> validSource off = true ->
        Canvas.width (prepareFinalCanvas s) = Canvas.width off
        /\ Canvas.height (prepareFinalCanvas s) = Canvas.height off)
  /\ (emptyImage s = false -> isDrawing s && isToolActive "crop" s = false ->
        snd (saveImage env s) = Rendered (prepareFinalCanvas s)
        /\ (Env.clipboard env = true ->
            snd (copyToClipboard env s) = Rendered (prepareFinalCanvas s))
        /\ (Env.clipboard env = false -> snd (copyToClipboard env s) = Abandoned))
  /\ (emptyImage s = true ->
        snd (saveImage env s) = Refused
        /\ snd (copyToClipboard env s) = Refused
        /\ lastToast (fst (saveImage env s))
           = Some (Toast.mk "Cannot save empty image." false "error")
        /\ lastToast (fst (copyToClipboard env s))
           = Some (Toast.mk "Cannot copy empty image." false "error"))
  /\ (emptyImage s = false -> isDrawing s && isToolActive "crop" s = true ->
        snd (saveImage env s) = Refused
        /\ snd (copyToClipboard env s) = Refused
        /\ lastToast (fst (saveImage env s))
           = Some (Toast.mk "Finalize cropping before saving." false "warning")
        /\ lastToast (fst (copyToClipboard env s))
           = Some (Toast.mk "Finalize cropping before copying." false "warning"))
  /\ ((exists final, snd (saveImage env s) = Rendered final)
      -> emptyImage s = false /\ isDrawing s && isToolActive "crop" s = false)
  /\ ((exists final, snd (copyToClipboard env s) = Rendered final)
      -> emptyImage s = false /\ isDrawing s && isToolActive "crop" s = false
         /\ Env.clipboard env = true).
Proof.
  split; [|split; [|split; [|split; [|split; [|split]]]]].
  - intros Hinv. rewrite (prepareFinalCanvas_invalid s Hinv). cbn.
    split; [reflexivity|]. split; reflexivity.
  - intros off Hoff Hvalid. exact (prepareFinalCanvas_valid s off Hoff Hvalid).
  - intros Hne Hdrag. unfold saveImage, copyToClipboard. rewrite Hne, Hdrag.
    split; [|split].
    + destruct (snd (Download.tryDownload _ 0)); reflexivity.
    + intros ->. cbn [negb]. destruct (Env.clipboardWrite env); reflexivity.
    + intros ->. reflexivity.
  - intros He. unfold saveImage, copyToClipboard, lastToast. rewrite He.
    cbn [fst snd showToast]. unfold showToast, setToasts. cbn [toasts].
    rewrite !last_snoc. repeat split; reflexivity.
  - intros Hne Hdrag. unfold saveImage, copyToClipboard, lastToast.
    rewrite Hne, Hdrag. cbn [fst snd showToast]. unfold showToast, setToasts.
    cbn [toasts]. rewrite !last_snoc. repeat split; reflexivity.
  - intros [final H]. unfold saveImage in H.
    destruct (emptyImage s); [discriminate H|].
    destruct (isDrawing s && isToolActive "crop" s); [discriminate H|].
    split; reflexivity.
  - intros [final H]. unfold copyToClipboard in H.
    destruct (emptyImage s); [discriminate H|].
    destruct (isDrawing s && isToolActive "crop" s); [discriminate H|].
    destruct (Env.clipboard env); [|discriminate H].
    repeat split; reflexivity.
Qed.

Lemma prepareFinalCanvas_fallback_witness :
  Canvas.width (prepareFinalCanvas (cleanup Scenario.loaded)) = 1%Z
  /\ snd (saveImage Scenario.env Scenario.loaded)
     = Rendered (prepareFinalCanvas Scenario.loaded)
  /\ snd (saveImage Scenario.env (cleanup Scenario.loaded)) = Refused
  /\ snd (saveImage Scenario.env Drag.dragging) = Refused.
Proof.
  destruct (prepareFinalCanvas_fallback Scenario.env (cleanup Scenario.loaded))
    as (A & _ & _ & B & _).
  destruct (prepareFinalCanvas_fallback Scenario.env Scenario.loaded) as (_ & _ & C & _).
  destruct (prepareFinalCanvas_fallback Scenario.env Drag.dragging)
    as (_ & _ & _ & _ & D & _).
  split; [apply A; exact I|]. split; [apply C; reflexivity|].
  split; [apply B; reflexivity|]. apply D; reflexivity.
Defined.

(** C10 as stated fails: after [cleanup] the offscreen canvas is absent,
    yet copy and save do not produce a 1x1 image silently; they refuse and
    show an error toast. *)
Lemma export_refuses_without_canvas :
  sourceInvalid (cleanup Scenario.loaded)
  /\ ~ (exists final,
          snd (copyToClipboard Scenario.env (cleanup Scenario.loaded)) = Rendered final)
  /\ ~ (exists final,
          snd (saveImage Scenario.env (cleanup Scenario.loaded)) = Rendered final)
  /\ lastToast (fst (copyToClipboard Scenario.env (cleanup Scenario.loaded)))
     = Some (Toast.mk "Cannot copy empty image." false "error").
Proof.
  split; [exact I|]. split; [|split].
  - intros [final H]. discriminate H.
  - intros [final H]. discriminate H.
  - reflexivity.
Qed.

(** Case analysis on every [Qmax] and [Qmin] in sight, then linear
    arithmetic. *)
Ltac minmax_cases :=
  unfold Math.max, Math.min in *;
  repeat match goal with
         | |- context [Qmax ?a ?b] =>
             pose proof (Q.max_spec a b); generalize dependent (Qmax a b); intros
         | |- context [Qmin ?a ?b] =>
             pose proof (Q.min_spec a b); generalize dependent (Qmin a b); intros
         | H : context [Qmax ?a ?b] |- _ =>
             pose proof (Q.max_spec a b); generalize dependent (Qmax a b); intros
         | H : context [Qmin ?a ?b] |- _ =>
             pose proof (Q.min_spec a b); generalize dependent (Qmin a b); intros
         end;
  repeat match goal with
         | H : _ \/ _ |- _ => destruct H
         | H : _ /\ _ |- _ => destruct H
         end.

Lemma Zq_le (a b : Z) : (a <= b)%Z -> Zq a <= Zq b.
Proof. rewrite Zle_Qle. trivial. Qed.

Lemma Zq_lt (a b : Z) : (a < b)%Z -> Zq a < Zq b.
Proof. rewrite Zlt_Qlt. trivial. Qed.

Lemma overlap_full (n i : Z) :
  (0 <= i < n)%Z ->
  Canvas.overlap (Math.min 0 (0 + Zq n)) (Math.max 0 (0 + Zq n)) i == 1.
Proof.
  intros [Hlo Hhi]. unfold Canvas.overlap.
  assert (0 <= Zq i) as A by (apply (Zq_le 0 i Hlo)).
  assert (Zq i + 1 <= Zq n) as B.
  { change 1 with (Zq 1). rewrite <- inject_Z_plus. apply Zq_le. lia. }
  minmax_cases; lra.
Qed.

Lemma coverage_full (w h i j : Z) :
  (0 <= i < w)%Z -> (0 <= j < h)%Z ->
  Canvas.coverage 0 0 (Zq w) (Zq h) i j == 1.
Proof.
  intros Hi Hj. unfold Canvas.coverage.
  rewrite (overlap_full w i Hi), (overlap_full h j Hj). reflexivity.
Qed.

Lemma parse_white :
  exists c, Css.parse "#FFFFFF" = Some c /\ Rgba.eqv c Rgba.white.
Proof.
  eexists. split; [vm_compute; reflexivity|].
  unfold Rgba.eqv. cbn. repeat split; reflexivity.
Qed.

(** A rectangle painted at full coverage in an opaque colour replaces what
    was there. *)
Lemma over_scaled_white (k : Q) (c d : Rgba.t) :
  k == 1 -> Rgba.eqv c Rgba.white ->
  Rgba.eqv (Rgba.over (Rgba.scale k c) d) Rgba.white.
Proof.
  intros Hk (Hr & Hg & Hb & Ha). unfold Rgba.eqv, Rgba.over, Rgba.scale. cbn in *.
  rewrite Hk, Hr, Hg, Hb, Ha. repeat split; ring.
Qed.

Lemma over_comp (s d d' : Rgba.t) :
  Rgba.eqv d d' -> Rgba.eqv (Rgba.over s d) (Rgba.over s d').
Proof.
  intros (Hr & Hg & Hb & Ha). unfold Rgba.eqv, Rgba.over. cbn.
  rewrite Hr, Hg, Hb, Ha. repeat split; reflexivity.
Qed.

Lemma inside_bounds (c : Canvas.t) (i j : Z) :
  Canvas.inside c i j = true
  <-> (0 <= i < Canvas.width c)%Z /\ (0 <= j < Canvas.height c)%Z.
Proof.
  unfold Canvas.inside. rewrite !andb_true_iff, !Z.leb_le, !Z.ltb_lt. tauto.
Qed.

(** Without annotations the export is the source over opaque white. *)
Lemma prepareFinalCanvas_plain (s : Editor.t) (off : Canvas.t) (i j : Z) :
  offscreenCanvas s = Some off -> validSource off = true ->
  annotationElements s = [] ->
  Canvas.inside off i j = true ->
  Rgba.eqv (Canvas.pixels (prepareFinalCanvas s) i j)
           (Rgba.over (Canvas.pixels off i j) Rgba.white).
Proof.
  intros Hoff Hvalid Hnil Hin.
  unfold prepareFinalCanvas. rewrite Hoff, Hvalid, Hnil. cbn [fold_left].
  destruct parse_white as (w & Hparse & Hw).
  unfold Canvas.setFillStyle. rewrite Hparse.
  unfold Canvas.drawCanvas, Canvas.fillRect, Canvas.withPixels.
  cbn [Canvas.pixels Canvas.width Canvas.height Canvas.alpha Canvas.fillStyle
       Canvas.setHeight Canvas.setWidth Canvas.create].
  assert (Canvas.inside
            {| Canvas.width := Canvas.width off; Canvas.height := Canvas.height off;
               Canvas.alpha := true; Canvas.fillStyle := w;
               Canvas.pixels := fun _ _ => Canvas.blankPixel true |} i j = true) as Hin'.
  { apply inside_bounds. apply inside_bounds in Hin. exact Hin. }
  unfold Canvas.inside in *.
  cbn [Canvas.pixels Canvas.width Canvas.height Canvas.alpha Canvas.fillStyle] in *.
  rewrite Hin. cbn [andb].
  apply over_comp.
  apply inside_bounds in Hin.
  assert (Canvas.coverage 0 0 (Zq (Canvas.width off)) (Zq (Canvas.height off)) i j == 1)
    as Hcov by (apply coverage_full; tauto).
  assert (Qgtb (Canvas.coverage 0 0 (Zq (Canvas.width off)) (Zq (Canvas.height off)) i j) 0
          = true) as Hgt by (apply Qgtb_true; rewrite Hcov; reflexivity).
  rewrite Hgt. apply over_scaled_white; assumption.
Qed.












(* ===================================================================== *)
(** ** The throttle *)
(* ===================================================================== *)

Section ThrottleFacts.

Context {C A R : Type}.
Variable func : A -> C -> C * R.

Lemma throttled_idle (id : nat) (a : A) (th : Throttle.state R) (ctx : C) :
  Throttle.inThrottle th = false ->
  Throttle.throttled func id a th ctx
  = (Throttle.mk true (Some (snd (func a ctx))) (Some id), fst (func a ctx),
     Some (snd (func a ctx))).
Proof.
  intros H. unfold Throttle.throttled. rewrite H. cbn. destruct (func a ctx). reflexivity.
Qed.

Lemma throttled_busy (id : nat) (a : A) (th : Throttle.state R) (ctx : C) :
  Throttle.inThrottle th = true ->
  Throttle.throttled func id a th ctx = (th, ctx, Throttle.lastResult th).
Proof. intros H. unfold Throttle.throttled. rewrite H. reflexivity. Qed.

(** While the flag is up no call gets through. *)
Lemma calls_while_throttled (calls : list A) (th : Throttle.state R) (ctx : C) :
  Throttle.inThrottle th = true ->
  Throttle.executed func (map Throttle.Call calls) th ctx = []
  /\ Throttle.run func (map Throttle.Call calls) th ctx = (th, ctx).
Proof.
  intros H. induction calls as [|a calls IH]; cbn.
  - split; reflexivity.
  - rewrite (throttled_busy 1%nat a th ctx H), H. cbn. exact IH.
Qed.

(** The context at the end of a trace is the wrapped function folded over
    the executed calls. *)
Lemma run_executed (evs : list (Throttle.event A)) (th : Throttle.state R) (ctx : C) :
  snd (Throttle.run func evs th ctx)
  = fold_left (fun c a => fst (func a c)) (Throttle.executed func evs th ctx) ctx.
Proof.
  revert th ctx. induction evs as [|ev evs IH]; intros th ctx; cbn.
  - reflexivity.
  - destruct ev as [a|]; cbn.
    + destruct (Throttle.inThrottle th) eqn:E.
      * rewrite (throttled_busy 1%nat a th ctx E). cbn. apply IH.
      * rewrite (throttled_idle 1%nat a th ctx E). cbn. apply IH.
    + apply IH.
Qed.

Lemma executed_app (evs evs' : list (Throttle.event A)) (th : Throttle.state R) (ctx : C) :
  Throttle.executed func (evs ++ evs') th ctx
  = Throttle.executed func evs th ctx
    ++ Throttle.executed func evs'
         (fst (Throttle.run func evs th ctx)) (snd (Throttle.run func evs th ctx)).
Proof.
  revert th ctx. induction evs as [|ev evs IH]; intros th ctx; cbn.
  - reflexivity.
  - destruct (Throttle.step func ev th ctx) as [th' ctx'] eqn:E.
    destruct ev as [a|]; [destruct (negb (Throttle.inThrottle th))|]; cbn;
      rewrite IH; reflexivity.
Qed.

(** C5, as the code has it.  The throttle is leading-edge only: of a burst
    of calls that starts while the flag is down, exactly the first is
    executed, whatever the length of the burst; while the flag is up
    nothing is executed and the context is untouched; once the timer has
    expired the next call is executed.  The context is that of the executed
    calls alone.  No call is deferred to the end of the window, so the last
    call of a burst is executed only if it is also the first, or if the
    timer expired just before it. *)
Theorem throttle_leading_edge :
  (forall th ctx a rest,
     Throttle.inThrottle th = false ->
     Throttle.executed func (map Throttle.Call (a :: rest)) th ctx = [a]
     /\ snd (Throttle.run func (map Throttle.Call (a :: rest)) th ctx)
        = fst (func a ctx))
  /\ (forall th ctx calls,
        Throttle.inThrottle th = true ->
        Throttle.executed func (map Throttle.Call calls) th ctx = []
        /\ snd (Throttle.run func (map Throttle.Call calls) th ctx) = ctx)
  /\ (forall th ctx calls id a,
        Throttle.inThrottle th = true -> Throttle.timeoutId th = Some id ->
        Throttle.executed func
          (map Throttle.Call calls ++ [Throttle.Expire; Throttle.Call a]) th ctx = [a])
  /\ (forall evs th ctx,
        snd (Throttle.run func evs th ctx)
        = fold_left (fun c a => fst (func a c)) (Throttle.executed func evs th ctx) ctx).
Proof.
  split; [|split; [|split]].
  - intros th ctx a rest Hidle. cbn [map Throttle.executed Throttle.run Throttle.step].
    rewrite (throttled_idle 1%nat a th ctx Hidle), Hidle. cbn [negb].
    destruct (calls_while_throttled rest
                (Throttle.mk true (Some (snd (func a ctx))) (Some 1%nat))
                (fst (func a ctx)) eq_refl) as [-> ->].
    split; reflexivity.
  - intros th ctx calls Hbusy.
    destruct (calls_while_throttled calls th ctx Hbusy) as [-> ->].
    split; reflexivity.
  - intros th ctx calls id a Hbusy Hid. rewrite executed_app.
    destruct (calls_while_throttled calls th ctx Hbusy) as [-> ->].
    cbn. unfold Throttle.expire. rewrite Hid. cbn.
    destruct (func a ctx). reflexivity.
  - exact run_executed.
Qed.

End ThrottleFacts.

Lemma throttle_leading_edge_witness :
  Throttle.executed (drawCropGuidesOf Drag.noStroke)
    (map Throttle.Call [(Drag.start, Pos.mk 200 180); (Drag.start, Pos.mk 300 250)])
    Throttle.fresh Drag.dragging
  = [(Drag.start, Pos.mk 200 180)].
Proof.
  apply (throttle_leading_edge (drawCropGuidesOf Drag.noStroke)).
  reflexivity.
Defined.

(** C5 as stated fails: of two pointer moves of one burst the redraw runs
    for the first only.  The call for the last position is not among the
    executed ones, and the editor (hence the display) is left as the first
    call drew it. *)
Lemma throttle_drops_last_move :
  let first := (Drag.start, Pos.mk 200 180) in
  let last := (Drag.start, Pos.mk 300 250) in
  let guides := drawCropGuidesOf Drag.noStroke in
  ~ In last
      (Throttle.executed guides [Throttle.Call first; Throttle.Call last]
         Throttle.fresh Drag.dragging)
  /\ Throttle.run guides [Throttle.Call first; Throttle.Call last]
       Throttle.fresh Drag.dragging
     = Throttle.run guides [Throttle.Call first] Throttle.fresh Drag.dragging.
Proof.
  intros first last guides. split.
  - assert (Throttle.executed guides [Throttle.Call first; Throttle.Call last]
              Throttle.fresh Drag.dragging = [first]) as -> by (vm_compute; reflexivity).
    intros [H|[]]. subst first last. congruence.
  - cbn [Throttle.run Throttle.step].
    rewrite (throttled_idle guides 1%nat first Throttle.fresh Drag.dragging eq_refl).
    rewrite throttled_busy by reflexivity. reflexivity.
Qed.

(* ===================================================================== *)
(** ** Committing an annotation *)
(* ===================================================================== *)

Lemma getMousePos_state (env : Env.t) (e : MouseEvent.t) (s s1 : Editor.t) (pos : Pos.t) :
  getMousePos env e s = Some (pos, s1) ->
  s1 = match canvasRect s with Some _ => s | None => updateCanvasRect env s end.
Proof.
  unfold getMousePos.
  destruct (canvasRect (match canvasRect s with
                        | Some _ => s
                        | None => updateCanvasRect env s
                        end)) as [rect|].
  - destruct (canvas _); [|discriminate]. intros H. injection H as _ <-. reflexivity.
  - intros H. injection H as _ <-. reflexivity.
Qed.

(** [getMousePos] touches nothing but the cached rectangle. *)
Lemma getMousePos_frame (env : Env.t) (e : MouseEvent.t) (s s1 : Editor.t) (pos : Pos.t) :
  getMousePos env e s = Some (pos, s1) ->
  canvas s1 = canvas s /\ offscreenCanvas s1 = offscreenCanvas s
  /\ activeTools s1 = activeTools s /\ isDrawing s1 = isDrawing s
  /\ cropStart s1 = cropStart s /\ annotateStart s1 = annotateStart s
  /\ lastImageData s1 = lastImageData s
  /\ annotationElements s1 = annotationElements s
  /\ toasts s1 = toasts s.
Proof.
  intros H. rewrite (getMousePos_state env e s s1 pos H).
  unfold updateCanvasRect. destruct (canvasRect s); [repeat split|].
  destruct (canvas s) eqn:E; cbn; rewrite ?E; repeat split.
Qed.

(** A pointer move of a crop drag that arrives while the throttle flag is
    up records the new end of the selection and leaves the display as it
    was. *)
Lemma handleMouseMove_while_throttled
    (strokeRect : list Q -> string -> Q -> Q -> Q -> Q -> Q -> Canvas.t -> Canvas.t)
    (env : Env.t) (e : MouseEvent.t) (th : Throttle.state unit)
    (s s1 : Editor.t) (start pos : Pos.t) :
  Throttle.inThrottle th = true ->
  isDrawing s = true -> isToolActive "crop" s = true -> cropStart s = Some start ->
  getMousePos env e s = Some (pos, s1) ->
  handleMouseMove strokeRect env e th s = Some (th, setCropEnd (Some pos) s1)
  /\ canvas (setCropEnd (Some pos) s1) = canvas s.
Proof.
  intros Hth Hdraw Htool Hstart Hpos.
  destruct (getMousePos_frame env e s s1 pos Hpos)
    as (Hc1 & _ & Ht1 & Hd1 & Hs1 & _).
  unfold handleMouseMove. rewrite Hpos, Hd1, Hdraw. cbn [negb andb].
  rewrite Hd1, Hdraw. cbn [negb].
  assert (isToolActive "crop" s1 = true) as ->
    by (unfold isToolActive in *; rewrite Ht1; exact Htool).
  rewrite Hs1, Hstart. unfold throttledDrawCropGuides, Throttle.throttled.
  rewrite Hth. cbn [negb]. split; [reflexivity | exact Hc1].
Qed.

Lemma string_of_int_inj (d d' : Decimal.signed_int) :
  NilEmpty.string_of_int d = NilEmpty.string_of_int d' -> d = d'.
Proof.
  intros H. pose proof (NilEmpty.isi d) as A. rewrite H, NilEmpty.isi in A.
  injection A as ->. reflexivity.
Qed.

(** Distinct clock readings give distinct identifiers. *)
Lemma annotationId_inj (t t' : Z) : annotationId t = annotationId t' -> t = t'.
Proof.
  unfold annotationId. intros H. cbn in H. injection H as H.
  apply string_of_int_inj in H. apply DecimalZ.to_int_inj. exact H.
Qed.

Lemma setCursor_frame (v : string) (s : Editor.t) :
  canvas (setCursor v s) = canvas s
  /\ isDrawing (setCursor v s) = isDrawing s
  /\ annotateStart (setCursor v s) = annotateStart s
  /\ lastImageData (setCursor v s) = lastImageData s
  /\ annotationElements (setCursor v s) = annotationElements s
  /\ activeTools (setCursor v s) = activeTools s.
Proof. unfold setCursor. destruct (canvas s) eqn:E; cbn; rewrite ?E; repeat split. Qed.

Lemma redrawCanvas_frame (s : Editor.t) :
  offscreenCanvas (redrawCanvas s) = offscreenCanvas s
  /\ isDrawing (redrawCanvas s) = isDrawing s
  /\ annotateStart (redrawCanvas s) = annotateStart s
  /\ annotationElements (redrawCanvas s) = annotationElements s
  /\ activeTools (redrawCanvas s) = activeTools s
  /\ toasts (redrawCanvas s) = toasts s
  /\ cropStart (redrawCanvas s) = cropStart s
  /\ cropEnd (redrawCanvas s) = cropEnd s
  /\ originalImage (redrawCanvas s) = originalImage s.
Proof.
  unfold redrawCanvas.
  destruct (canvas s), (offscreenCanvas s) eqn:E; cbn; rewrite ?E; repeat split.
Qed.

Lemma commitAnnotation_large (env : Env.t) (a pos : Pos.t) (s : Editor.t) :
  1 < dragWidth a pos -> 1 < dragHeight a pos ->
  annotationElements (commitAnnotation env a pos s)
  = annotationElements s ++ [newAnnotation (Env.now env) a pos]
  /\ annotateStart (commitAnnotation env a pos s) = None
  /\ isDrawing (commitAnnotation env a pos s) = isDrawing s.
Proof.
  intros Hw Hh. unfold commitAnnotation.
  apply Qgtb_true in Hw, Hh. unfold dragWidth, dragHeight in Hw, Hh.
  rewrite Hw, Hh. cbn [andb].
  match goal with
  | |- context [if ?b then setCursor ?v ?st else ?st] =>
      assert (annotationElements (if b then setCursor v st else st)
              = annotationElements st
              /\ annotateStart (if b then setCursor v st else st) = annotateStart st
              /\ isDrawing (if b then setCursor v st else st) = isDrawing st)
        as (-> & -> & ->)
        by (destruct b; [|repeat split];
            destruct (setCursor_frame v st) as (_ & ? & ? & _ & ? & _); repeat split;
            assumption)
  end.
  cbn [annotationElements annotateStart isDrawing setAnnotateStart showToast setToasts].
  destruct (redrawCanvas_frame
              (setAnnotationElements
                 (annotationElements s
                  ++ [Elem.mk "rect" (annotationId (Env.now env))
                        (Math.min (Pos.x a) (Pos.x pos)) (Math.min (Pos.y a) (Pos.y pos))
                        (Math.abs (Pos.x pos - Pos.x a)) (Math.abs (Pos.y pos - Pos.y a))
                        "#000000"]) s))
    as (_ & Hd & _ & Hel & _).
  rewrite Hel, Hd. repeat split.
Qed.

Lemma commitAnnotation_small (env : Env.t) (a pos : Pos.t) (s : Editor.t) :
  ~ (1 < dragWidth a pos /\ 1 < dragHeight a pos) ->
  annotationElements (commitAnnotation env a pos s) = annotationElements s
  /\ annotateStart (commitAnnotation env a pos s) = None
  /\ isDrawing (commitAnnotation env a pos s) = isDrawing s
  /\ canvas (commitAnnotation env a pos s) = canvas (restoreCanvasState s).
Proof.
  intros Hsmall. unfold commitAnnotation.
  assert (Qgtb (Math.abs (Pos.x pos - Pos.x a)) 1
          && Qgtb (Math.abs (Pos.y pos - Pos.y a)) 1 = false) as ->.
  { destruct (Qgtb (Math.abs (Pos.x pos - Pos.x a)) 1) eqn:Ew; [|reflexivity].
    destruct (Qgtb (Math.abs (Pos.y pos - Pos.y a)) 1) eqn:Eh; [|reflexivity].
    apply Qgtb_true in Ew, Eh. exfalso. apply Hsmall. split; assumption. }
  match goal with
  | |- context [if ?b then setCursor ?v ?st else ?st] =>
      assert (annotationElements (if b then setCursor v st else st)
              = annotationElements st
              /\ annotateStart (if b then setCursor v st else st) = annotateStart st
              /\ isDrawing (if b then setCursor v st else st) = isDrawing st
              /\ canvas (if b then setCursor v st else st) = canvas st)
        as (-> & -> & -> & ->)
        by (destruct b; [|repeat split];
            destruct (setCursor_frame v st) as (? & ? & ? & _ & ? & _); repeat split;
            assumption)
  end.
  cbn [annotationElements annotateStart isDrawing canvas setAnnotateStart].
  unfold restoreCanvasState.
  destruct (lastImageData s), (canvas s) eqn:E; cbn; rewrite ?E; try (repeat split; fail);
    destruct (redrawCanvas_frame s) as (_ & ? & _ & ? & _); repeat split; assumption.
Qed.

Lemma put_restores (d : ImageData.t) (c : Canvas.t) (i j : Z) :
  ImageData.width d = Canvas.width c -> ImageData.height d = Canvas.height c ->
  Canvas.inside c i j = true ->
  Canvas.pixels (ImageData.put d c) i j = ImageData.data d i j.
Proof.
  intros Hw Hh Hin. unfold ImageData.put, Canvas.withPixels. cbn [Canvas.pixels].
  rewrite Hin, Hw, Hh. apply inside_bounds in Hin. destruct Hin as [[_ Hi] [_ Hj]].
  apply Z.ltb_lt in Hi, Hj. rewrite Hi, Hj. reflexivity.
Qed.

(** C6, as the code has it.  Pointer-down with the annotate tool takes a
    snapshot of the display.  On pointer-up of the drag an element
    [rect] with identifier [anno-<Date.now()>] is appended if and only if
    the dragged rectangle is more than 1 pixel wide and more than 1 pixel
    high; the identifier differs from that of every annotation committed
    at another clock reading.  Otherwise no element is added and the
    snapshot taken at pointer-down is put back on the display. *)
Theorem annotate_gesture :
  (forall env e0 s0 c0,
     MouseEvent.button e0 = 0%Z ->
     isToolActive "crop" s0 = false -> isToolActive "annotate" s0 = true ->
     canvas s0 = Some c0 -> Canvas.width c0 <> 0%Z -> Canvas.height c0 <> 0%Z ->
     exists pos0 s1,
       handleMouseDown env e0 s0 = Some s1
       /\ isDrawing s1 = true /\ annotateStart s1 = Some pos0
       /\ canvas s1 = Some c0
       /\ lastImageData s1
          = Some (ImageData.mk (Canvas.width c0) (Canvas.height c0) (Canvas.pixels c0))
       /\ annotationElements s1 = annotationElements s0
       /\ activeTools s1 = activeTools s0)
  /\ (forall env e s s1 a pos,
        MouseEvent.button e = 0%Z -> isDrawing s = true ->
        isToolActive "crop" s = false -> isToolActive "annotate" s = true ->
        annotateStart s = Some a -> getMousePos env e s = Some (pos, s1) ->
        exists s',
          handleMouseUp env e s = Some s'
          /\ isDrawing s' = false /\ annotateStart s' = None
          /\ (annotationElements s'
                = annotationElements s ++ [newAnnotation (Env.now env) a pos]
              <-> 1 < dragWidth a pos /\ 1 < dragHeight a pos)
          /\ (forall t, t <> Env.now env ->
                annotationId t <> Elem.id (newAnnotation (Env.now env) a pos))
          /\ (~ (1 < dragWidth a pos /\ 1 < dragHeight a pos) ->
                annotationElements s' = annotationElements s
                /\ forall d c,
                     lastImageData s = Some d -> canvas s = Some c ->
                     ImageData.width d = Canvas.width c ->
                     ImageData.height d = Canvas.height c ->
                     exists c',
                       canvas s' = Some c'
                       /\ Canvas.width c' = Canvas.width c
                       /\ Canvas.height c' = Canvas.height c
                       /\ forall i j, Canvas.inside c i j = true ->
                            Canvas.pixels c' i j = ImageData.data d i j)).
Proof.
  split.
  - intros env e0 s0 c0 Hb Hcrop Hann Hc Hw Hh.
    unfold handleMouseDown. rewrite Hb. cbn [Z.eqb negb].
    destruct (getMousePos env e0 s0) as [[pos0 s1]|] eqn:Hpos.
    + destruct (getMousePos_frame env e0 s0 s1 pos0 Hpos)
        as (Hc1 & _ & Ht1 & _ & _ & _ & _ & Hel1 & _).
      assert (forall t b, isToolActive t (setIsDrawing b s1) = isToolActive t s0) as Htool.
      { intros t b. unfold isToolActive. cbn. rewrite Ht1. reflexivity. }
      rewrite !Htool, Hcrop, Hann.
      exists pos0. eexists. split; [reflexivity|].
      unfold saveCanvasState. cbn [canvas setAnnotateStart setIsDrawing].
      rewrite Hc1, Hc. cbn. rewrite Hc1, Hc.
      unfold ImageData.get.
      destruct (Z.eqb_spec (Canvas.width c0) 0) as [?|_]; [contradiction|].
      destruct (Z.eqb_spec (Canvas.height c0) 0) as [?|_]; [contradiction|].
      cbn. repeat split; assumption.
    + exfalso. unfold getMousePos, updateCanvasRect in Hpos.
      destruct (canvasRect s0) eqn:Hr; rewrite ?Hc in Hpos; cbn in Hpos;
        rewrite ?Hr, ?Hc in Hpos; discriminate.
  - intros env e s s1 a pos Hb Hdraw Hcrop Hann Ha Hpos.
    unfold handleMouseUp. rewrite Hb, Hdraw, Hpos. cbn [Z.eqb negb].
    destruct (getMousePos_frame env e s s1 pos Hpos)
      as (Hc1 & _ & Ht1 & _ & _ & Ha1 & Hl1 & Hel1 & _).
    assert (forall t, isToolActive t (setIsDrawing false s1) = isToolActive t s) as Htool.
    { intros t. unfold isToolActive. cbn. rewrite Ht1. reflexivity. }
    rewrite !Htool, Hcrop, Hann. cbn [andb annotateStart setIsDrawing].
    rewrite Ha1, Ha.
    set (s2 := setIsDrawing false s1).
    set (s3 := commitAnnotation env a pos s2).
    eexists. split; [reflexivity|].
    assert (forall b : bool,
              isDrawing (if b then setCursor "default" s3 else s3) = isDrawing s3
              /\ annotateStart (if b then setCursor "default" s3 else s3)
                 = annotateStart s3
              /\ annotationElements (if b then setCursor "default" s3 else s3)
                 = annotationElements s3
              /\ canvas (if b then setCursor "default" s3 else s3) = canvas s3)
      as Hfin.
    { intros [|]; [|repeat split].
      destruct (setCursor_frame "default" s3) as (? & ? & ? & _ & ? & _).
      repeat split; assumption. }
    destruct (Hfin (bool_decide (activeTools s3 = ∅))) as (-> & -> & -> & ->).
    clear Hfin. subst s3.
    assert (annotationElements s2 = annotationElements s) as Hel2 by exact Hel1.
    split; [|split; [|split; [|split]]].
    + destruct (Qlt_le_dec 1 (dragWidth a pos)) as [Hw|Hw];
        [destruct (Qlt_le_dec 1 (dragHeight a pos)) as [Hh|Hh]|].
      * destruct (commitAnnotation_large env a pos s2 Hw Hh) as (_ & _ & ->). reflexivity.
      * destruct (commitAnnotation_small env a pos s2) as (_ & _ & -> & _);
          [intros [_ ?]; lra | reflexivity].
      * destruct (commitAnnotation_small env a pos s2) as (_ & _ & -> & _);
          [intros [? _]; lra | reflexivity].
    + destruct (Qlt_le_dec 1 (dragWidth a pos)) as [Hw|Hw];
        [destruct (Qlt_le_dec 1 (dragHeight a pos)) as [Hh|Hh]|].
      * destruct (commitAnnotation_large env a pos s2 Hw Hh) as (_ & -> & _). reflexivity.
      * destruct (commitAnnotation_small env a pos s2) as (_ & -> & _);
          [intros [_ ?]; lra | reflexivity].
      * destruct (commitAnnotation_small env a pos s2) as (_ & -> & _);
          [intros [? _]; lra | reflexivity].
    + split.
      * intros Happ.
        destruct (Qlt_le_dec 1 (dragWidth a pos)) as [Hw|Hw];
          [destruct (Qlt_le_dec 1 (dragHeight a pos)) as [Hh|Hh]; [split; assumption|]|];
          exfalso;
          (destruct (commitAnnotation_small env a pos s2) as (Hsame & _);
           [intros [? ?]; lra|]);
          rewrite Hsame, Hel2 in Happ;
          apply (f_equal (@length Elem.t)) in Happ;
          rewrite length_app in Happ; cbn in Happ; lia.
      * intros [Hw Hh].
        destruct (commitAnnotation_large env a pos s2 Hw Hh) as (Hadd & _).
        rewrite Hadd, Hel2. reflexivity.
    + intros t Hne Heq. apply Hne. apply annotationId_inj. exact Heq.
    + intros Hsmall.
      destruct (commitAnnotation_small env a pos s2 Hsmall) as (Hsame & _ & _ & Hcv).
      split; [rewrite Hsame; exact Hel2|].
      intros d c Hd Hc Hdw Hdh. rewrite Hcv.
      unfold restoreCanvasState. subst s2. cbn [lastImageData canvas setIsDrawing].
      rewrite Hl1, Hd, Hc1, Hc. cbn [canvas setCanvas].
      eexists. split; [reflexivity|]. split; [reflexivity|]. split; [reflexivity|].
      intros i j Hin. apply put_restores; assumption.
Qed.

Lemma annotate_gesture_witness :
  exists s',
    handleMouseUp Scenario.env (MouseEvent.mk 200 200 0) Annotate.pressed = Some s'
    /\ isDrawing s' = false
    /\ length (annotationElements s') = 1%nat.
Proof.
  destruct annotate_gesture as [_ Hup].
  edestruct (Hup Scenario.env (MouseEvent.mk 200 200 0) Annotate.pressed)
    as (s' & Hs' & Hidle & _ & Hiff & _); [reflexivity..|].
  exists s'. split; [exact Hs'|]. split; [exact Hidle|].
  destruct Hiff as [_ Hadd]. rewrite Hadd.
  - reflexivity.
  - split; vm_compute; reflexivity.
Defined.

(** C6 as stated fails on the identifier: two gestures committed while
    [Date.now()] reads the same millisecond add two elements with one and
    the same identifier. *)
Lemma annotation_ids_collide :
  exists e1 e2,
    option_map annotationElements Annotate.both = Some [e1; e2]
    /\ Elem.id e1 = Elem.id e2.
Proof.
  eexists. eexists. split; [vm_compute; reflexivity|]. reflexivity.
Qed.

(* ===================================================================== *)
(** ** Completing a crop *)
(* ===================================================================== *)

Lemma paintElement_size (c : Canvas.t) (e : Elem.t) :
  Canvas.width (paintElement c e) = Canvas.width c
  /\ Canvas.height (paintElement c e) = Canvas.height c.
Proof.
  unfold paintElement, Canvas.fillRect, Canvas.setFillStyle.
  destruct (String.eqb _ _); [|split; reflexivity].
  destruct (Css.parse _); split; reflexivity.
Qed.

Lemma paint_size (l : list Elem.t) (c : Canvas.t) :
  Canvas.width (fold_left paintElement l c) = Canvas.width c
  /\ Canvas.height (fold_left paintElement l c) = Canvas.height c.
Proof.
  revert c. induction l as [|e l IH]; intros c; cbn [fold_left].
  - split; reflexivity.
  - destruct (IH (paintElement c e)) as [Hw Hh].
    destruct (paintElement_size c e) as [Hw' Hh'].
    split; congruence.
Qed.

(** A redraw keeps the size of the display canvas. *)
Lemma redrawCanvas_size (s : Editor.t) :
  sizeOf (canvas (redrawCanvas s)) = sizeOf (canvas s).
Proof.
  unfold redrawCanvas. destruct (canvas s) as [c|] eqn:Hc; [|rewrite Hc; reflexivity].
  destruct (offscreenCanvas s) as [off|]; [|rewrite Hc; reflexivity].
  cbn [canvas setCanvas sizeOf option_map].
  match goal with
  | |- context [fold_left paintElement ?l ?c0] =>
      destruct (paint_size l c0) as [-> ->]
  end.
  reflexivity.
Qed.

(** What [resetCropState] leaves alone. *)
Lemma resetCropState_frame (s : Editor.t) :
  offscreenCanvas (resetCropState s) = offscreenCanvas s
  /\ annotationElements (resetCropState s) = annotationElements s
  /\ activeTools (resetCropState s) = activeTools s
  /\ toasts (resetCropState s) = toasts s
  /\ originalImage (resetCropState s) = originalImage s
  /\ sizeOf (canvas (resetCropState s)) = sizeOf (canvas s).
Proof.
  unfold resetCropState. cbn [canvas setCropEnd setCropStart].
  destruct (canvas s) as [c|] eqn:Hc; [|cbn; rewrite ?Hc; repeat split].
  match goal with
  | |- context [redrawCanvas ?st] =>
      destruct (redrawCanvas_frame st) as (-> & _ & _ & -> & -> & -> & _ & _ & ->);
      rewrite (redrawCanvas_size st)
  end.
  unfold setCursor. cbn. rewrite Hc. cbn. rewrite ?Hc. repeat split.
Qed.

(** An accepted selection enters the [try] block. *)
Lemma completeCrop_ready (env : Env.t) (s : Editor.t) (cs ce : Pos.t)
    (img : Image.t) (off : Canvas.t) :
  cropReady s cs ce img off ->
  completeCrop env s
  = resetCropState
      (match cropTry env cs ce img off s with
       | (s, None) => s
       | (s, Some error) => redrawCanvas (showToast ("Crop failed: " ++ message error) false "error" s)
       end).
Proof.
  intros (Hcs & Hce & Himg & Hoff & Htool & Hw & Hh & Hsmall).
  unfold completeCrop. rewrite Hcs, Hce, Himg, Hoff, Htool. cbn [negb].
  destruct (Z.eqb_spec (Canvas.width off) 0) as [?|_]; [contradiction|].
  destruct (Z.eqb_spec (Canvas.height off) 0) as [?|_]; [contradiction|].
  cbn [orb]. rewrite Hsmall. reflexivity.
Qed.

(** The new working bitmap: the sub-rectangle of the image, copied 1:1
    onto a freshly resized canvas. *)
Lemma cropped_bitmap (img : Image.t) (sx sy w h : Z) (off : Canvas.t) :
  Image.broken img = false ->
  exists off',
    Canvas.drawImageSub img sx sy w h
      (Canvas.clearRect 0 0 (Zq w) (Zq h) (Canvas.setHeight h (Canvas.setWidth w off)))
    = Some off'
    /\ Canvas.width off' = w /\ Canvas.height off' = h
    /\ forall i j, Canvas.inside off' i j = true ->
         Canvas.pixels off' i j
         = Rgba.over (Image.sample img (sx + i) (sy + j))
             (Canvas.blankPixel (Canvas.alpha off)).
Proof.
  intros Hb. unfold Canvas.drawImageSub. rewrite Hb.
  eexists. split; [reflexivity|]. split; [reflexivity|]. split; [reflexivity|].
  intros i j Hin. unfold Canvas.inside in Hin. cbn in Hin.
  unfold Canvas.inside. cbn. rewrite Hin. cbn.
  destruct (_ && Qgtb _ 0); reflexivity.
Qed.

(** The [try] block when nothing raises. *)
Lemma cropTry_completes (env : Env.t) (s : Editor.t) (cs ce : Pos.t)
    (img : Image.t) (off c : Canvas.t) :
  canvas s = Some c -> Image.broken img = false ->
  let w := Source.clampedSourceWidth cs ce img (Canvas.width off) in
  let h := Source.clampedSourceHeight cs ce img (Canvas.height off) in
  exists s1 off',
    cropTry env cs ce img off s = (s1, None)
    /\ offscreenCanvas s1 = Some off'
    /\ Canvas.width off' = w /\ Canvas.height off' = h
    /\ (forall i j, Canvas.inside off' i j = true ->
          Canvas.pixels off' i j
          = Rgba.over
              (Image.sample img
                 (Source.clampedSourceX cs ce img (Canvas.width off) + i)
                 (Source.clampedSourceY cs ce img (Canvas.height off) + j))
              (Canvas.blankPixel (Canvas.alpha off)))
    /\ sizeOf (canvas s1) = Some (w, h)
    /\ annotationElements s1
       = List.filter (stillVisible w h)
           (map (reproject (Source.scaleX img (Canvas.width off))
                   (Source.scaleY img (Canvas.height off))
                   (Source.clampedSourceX cs ce img (Canvas.width off))
                   (Source.clampedSourceY cs ce img (Canvas.height off)))
              (annotationElements s))
    /\ toasts s1 = toasts s ++ [cropSucceeded]
    /\ activeTools s1 = activeTools s ∖ {["crop"]}
    /\ originalImage s1 = originalImage s.
Proof.
  intros Hc Hb w h. unfold cropTry. rewrite Hc. fold w h.
  destruct (cropped_bitmap img
              (Source.clampedSourceX cs ce img (Canvas.width off))
              (Source.clampedSourceY cs ce img (Canvas.height off)) w h off Hb)
    as (off' & -> & Hw' & Hh' & Hpix).
  eexists. exists off'. split; [reflexivity|].
  cbn [canvas offscreenCanvas annotationElements toasts activeTools originalImage
       setToolActive showToast setToasts setActiveTools].
  match goal with
  | |- context [redrawCanvas ?st] =>
      destruct (redrawCanvas_frame st) as (-> & _ & _ & -> & -> & -> & _ & _ & ->);
      rewrite (redrawCanvas_size st)
  end.
  unfold updateCanvasRect.
  cbn [canvas offscreenCanvas annotationElements toasts activeTools originalImage
       setAnnotationElements setOffscreenCanvas setCanvas setCanvasRect].
  cbn [canvas offscreenCanvas annotationElements toasts activeTools originalImage
       setAnnotationElements setOffscreenCanvas setCanvas setCanvasRect].
  split; [reflexivity|]. split; [exact Hw'|]. split; [exact Hh'|].
  split; [exact Hpix|]. repeat split.
Qed.

(** A crop that commits: everything [completeCrop] changes. *)
Lemma completeCrop_commits (env : Env.t) (s : Editor.t) (cs ce : Pos.t)
    (img : Image.t) (off c : Canvas.t) :
  cropReady s cs ce img off -> canvas s = Some c -> Image.broken img = false ->
  let w := Source.clampedSourceWidth cs ce img (Canvas.width off) in
  let h := Source.clampedSourceHeight cs ce img (Canvas.height off) in
  exists off',
    offscreenCanvas (completeCrop env s) = Some off'
    /\ Canvas.width off' = w /\ Canvas.height off' = h
    /\ (forall i j, Canvas.inside off' i j = true ->
          Canvas.pixels off' i j
          = Rgba.over
              (Image.sample img
                 (Source.clampedSourceX cs ce img (Canvas.width off) + i)
                 (Source.clampedSourceY cs ce img (Canvas.height off) + j))
              (Canvas.blankPixel (Canvas.alpha off)))
    /\ sizeOf (canvas (completeCrop env s)) = Some (w, h)
    /\ annotationElements (completeCrop env s)
       = List.filter (stillVisible w h)
           (map (reproject (Source.scaleX img (Canvas.width off))
                   (Source.scaleY img (Canvas.height off))
                   (Source.clampedSourceX cs ce img (Canvas.width off))
                   (Source.clampedSourceY cs ce img (Canvas.height off)))
              (annotationElements s))
    /\ toasts (completeCrop env s) = toasts s ++ [cropSucceeded]
    /\ activeTools (completeCrop env s) = activeTools s ∖ {["crop"]}.
Proof.
  intros Hready Hc Hb w h.
  rewrite (completeCrop_ready env s cs ce img off Hready).
  destruct (cropTry_completes env s cs ce img off c Hc Hb)
    as (s1 & off' & -> & Hoff & Hw & Hh & Hpix & Hsize & Hel & Hto & Hact & _).
  destruct (resetCropState_frame s1) as (-> & -> & -> & -> & _ & ->).
  exists off'. repeat split; assumption.
Qed.

Lemma clampedSource_positive (cs ce : Pos.t) (img : Image.t) (w h : Z) :
  (1 <= Source.clampedSourceWidth cs ce img w)%Z
  /\ (1 <= Source.clampedSourceHeight cs ce img h)%Z.
Proof. unfold Source.clampedSourceWidth, Source.clampedSourceHeight. lia. Qed.

Lemma scale_times (a : Q) (n : Z) : (0 < n)%Z -> Zq n * (a / Zq n) == a.
Proof.
  intros Hn. assert (~ Zq n == 0) as Hne.
  { intros E. apply (Zq_lt 0 n) in Hn. change (Zq 0) with 0 in Hn. lra. }
  field. exact Hne.
Qed.

(** One axis: a selection that starts more than one pixel before the
    edge of the working bitmap, on a bitmap no larger than the image,
    is mapped to a source interval inside the image. *)
Lemma source_axis (start extent : Q) (n w : Z) :
  (0 < w <= n)%Z -> start < Zq w - 1 ->
  let origin := Z.max 0 (Z.min (Math.roundZ (start * (Zq n / Zq w))) n) in
  let size := Z.max 1 (Z.min (Math.roundZ (extent * (Zq n / Zq w))) (n - origin)) in
  (0 <= origin)%Z /\ (1 <= size)%Z /\ (origin + size <= n)%Z.
Proof.
  intros [Hw Hn] Hstart origin size.
  assert (0 < Zq w) as Hw' by (apply (Zq_lt 0 w Hw)).
  assert (Zq w <= Zq n) as Hn' by (apply Zq_le; exact Hn).
  pose proof (scale_times (Zq n) w Hw) as Hr.
  assert (1 <= Zq n / Zq w) as Hr1.
  { apply Qnot_lt_le. intros Hlt.
    assert (Zq w * (Zq n / Zq w) < Zq w * 1) by (apply Qmult_lt_l; assumption). lra. }
  assert (Math.roundZ (start * (Zq n / Zq w)) <= n - 1)%Z as Hround.
  { unfold Math.roundZ.
    pose proof (Qfloor_le (start * (Zq n / Zq w) + (1 # 2))) as Hfloor.
    assert (start * (Zq n / Zq w) < (Zq w - 1) * (Zq n / Zq w)) as Hlt
      by (apply Qmult_lt_r; [lra | exact Hstart]).
    assert ((Zq w - 1) * (Zq n / Zq w) == Zq n - Zq n / Zq w) as E
      by (rewrite <- Hr at 2; ring).
    assert (Zq (Qfloor (start * (Zq n / Zq w) + (1 # 2))) < Zq n) as Hbelow by lra.
    rewrite <- Zlt_Qlt in Hbelow. lia. }
  subst origin size. lia.
Qed.

(** A coordinate that is not negative is mapped to a column of the image
    that is not negative. *)
Lemma scaled_nonneg (v : Q) (n w : Z) :
  (0 < w)%Z -> (0 <= n)%Z -> 0 <= v -> (0 <= Math.roundZ (v * (Zq n / Zq w)))%Z.
Proof.
  intros Hw Hn Hv. rewrite <- (roundZ_inject 0). apply roundZ_mono.
  change (Zq 0) with 0. apply Qmult_le_0_compat; [exact Hv|].
  apply Qle_shift_div_l; [apply (Zq_lt 0 w Hw)|].
  rewrite Qmult_0_l. apply (Zq_le 0 n Hn).
Qed.

(** The clamp of [completeCrop] keeps what the specification says it
    keeps. *)
Lemma clamp_refines (sx sw n : Z) :
  (0 <= sx)%Z -> (0 <= sw)%Z ->
  Z.max 1 (Z.min sw (n - Z.max 0 (Z.min sx n))) = Spec.clampedExtent sx sw n.
Proof. unfold Spec.clampedExtent. lia. Qed.

Lemma clampedSource_refines (cs ce : Pos.t) (img : Image.t) (w h : Z) :
  (0 < w)%Z -> (0 < h)%Z ->
  (0 <= Image.naturalWidth img)%Z -> (0 <= Image.naturalHeight img)%Z ->
  Source.clampedSourceWidth cs ce img w = Spec.clampedSourceWidth cs ce img w
  /\ Source.clampedSourceHeight cs ce img h = Spec.clampedSourceHeight cs ce img h.
Proof.
  intros Hw Hh Hnw Hnh.
  assert (0 <= Selection.clampedStartX cs ce w) as Hx by apply Q.le_max_l.
  assert (0 <= Selection.clampedStartY cs ce h) as Hy by apply Q.le_max_l.
  assert (0 <= Selection.clampedWidth cs ce w) as Hcw.
  { apply Qle_trans with 1; [discriminate | apply Q.le_max_l]. }
  assert (0 <= Selection.clampedHeight cs ce h) as Hch.
  { apply Qle_trans with 1; [discriminate | apply Q.le_max_l]. }
  split.
  - apply clamp_refines; apply scaled_nonneg; assumption.
  - apply clamp_refines; apply scaled_nonneg; assumption.
Qed.

(** An accepted selection starts more than one pixel before the right and
    the bottom edge of the working bitmap. *)
Lemma accepted_start (cs ce : Pos.t) (w h : Z) :
  Selection.tooSmall cs ce w h = false ->
  Selection.clampedStartX cs ce w < Zq w - 1
  /\ Selection.clampedStartY cs ce h < Zq h - 1.
Proof.
  intros Hsmall. unfold Selection.tooSmall in Hsmall.
  apply orb_false_iff in Hsmall. destruct Hsmall as [Hcw Hch].
  assert (forall q, Qleb q 1 = false -> 1 < q) as Hq.
  { intros q E. apply Qnot_le_lt. intros Hle. apply Qle_bool_iff in Hle.
    unfold Qleb in E. congruence. }
  apply Hq in Hcw, Hch. split.
  - unfold Selection.clampedWidth in Hcw. revert Hcw.
    generalize (Selection.displayCropWidth cs ce) (Selection.clampedStartX cs ce w).
    intros d0 c0 Hcw. minmax_cases; lra.
  - unfold Selection.clampedHeight in Hch. revert Hch.
    generalize (Selection.displayCropHeight cs ce) (Selection.clampedStartY cs ce h).
    intros d0 c0 Hch. minmax_cases; lra.
Qed.

(** C3. For every accepted selection the working bitmap that
    [completeCrop] produces, and the display canvas with it, has exactly
    the width and height of the clamped source rectangle: of the part of
    the rectangle [round(x0*scaleX), round(y0*scaleY), round(w*scaleX),
    round(h*scaleY)] that lies on the original image, never less than one
    pixel.  The bitmap holds that rectangle of the original image pixel
    for pixel; and when the working bitmap was no larger than the image
    (as it is after a load and after every crop) the rectangle ends within
    the image, so that every column and row of the bitmap is one of the
    image: there is no deviation by one. *)
Theorem completeCrop_bitmap_dimensions (env : Env.t) (s : Editor.t) (cs ce : Pos.t)
    (img : Image.t) (off c : Canvas.t) :
  cropReady s cs ce img off -> canvas s = Some c -> Image.broken img = false ->
  (0 < Canvas.width off)%Z -> (0 < Canvas.height off)%Z ->
  (0 <= Image.naturalWidth img)%Z -> (0 <= Image.naturalHeight img)%Z ->
  let x := Spec.clampedSourceX cs ce img (Canvas.width off) in
  let y := Spec.clampedSourceY cs ce img (Canvas.height off) in
  exists bitmap,
    offscreenCanvas (completeCrop env s) = Some bitmap
    /\ Canvas.width bitmap = Spec.clampedSourceWidth cs ce img (Canvas.width off)
    /\ Canvas.height bitmap = Spec.clampedSourceHeight cs ce img (Canvas.height off)
    /\ (1 <= Canvas.width bitmap)%Z /\ (1 <= Canvas.height bitmap)%Z
    /\ sizeOf (canvas (completeCrop env s))
       = Some (Canvas.width bitmap, Canvas.height bitmap)
    /\ (forall i j,
          (0 <= i < Canvas.width bitmap)%Z -> (0 <= j < Canvas.height bitmap)%Z ->
          Canvas.pixels bitmap i j
          = Rgba.over (Image.sample img (x + i) (y + j))
              (Canvas.blankPixel (Canvas.alpha off)))
    /\ ((Canvas.width off <= Image.naturalWidth img)%Z ->
        (Canvas.height off <= Image.naturalHeight img)%Z ->
        (0 <= x)%Z /\ (x + Canvas.width bitmap <= Image.naturalWidth img)%Z
        /\ (0 <= y)%Z /\ (y + Canvas.height bitmap <= Image.naturalHeight img)%Z
        /\ forall i j,
             (0 <= i < Canvas.width bitmap)%Z -> (0 <= j < Canvas.height bitmap)%Z ->
             Image.inside img (x + i) (y + j) = true)
    /\ lastToast (completeCrop env s) = Some cropSucceeded.
Proof.
  intros Hready Hc Hb Hw Hh Hnw Hnh x y.
  destruct (completeCrop_commits env s cs ce img off c Hready Hc Hb)
    as (off' & Hoff & Hw' & Hh' & Hpix & Hsize & _ & Hto & _).
  destruct (clampedSource_positive cs ce img (Canvas.width off) (Canvas.height off))
    as [Hw1 Hh1].
  destruct (clampedSource_refines cs ce img (Canvas.width off) (Canvas.height off)
              Hw Hh Hnw Hnh) as [Rw Rh].
  exists off'. split; [exact Hoff|].
  split; [rewrite Hw'; exact Rw|]. split; [rewrite Hh'; exact Rh|].
  split; [rewrite Hw'; exact Hw1|]. split; [rewrite Hh'; exact Hh1|].
  split; [rewrite Hw', Hh'; exact Hsize|].
  split; [|split].
  - intros i j Hi Hj. apply Hpix. apply inside_bounds. split; assumption.
  - intros Hfw Hfh.
    destruct Hready as (_ & _ & _ & _ & _ & _ & _ & Hsmall).
    destruct (accepted_start cs ce (Canvas.width off) (Canvas.height off) Hsmall)
      as [Hx Hy].
    pose proof (source_axis (Selection.clampedStartX cs ce (Canvas.width off))
                  (Selection.clampedWidth cs ce (Canvas.width off))
                  (Image.naturalWidth img) (Canvas.width off) (conj Hw Hfw) Hx) as Ax.
    pose proof (source_axis (Selection.clampedStartY cs ce (Canvas.height off))
                  (Selection.clampedHeight cs ce (Canvas.height off))
                  (Image.naturalHeight img) (Canvas.height off) (conj Hh Hfh) Hy) as Ay.
    cbv zeta in Ax, Ay.
    assert (0 <= x /\ 1 <= Source.clampedSourceWidth cs ce img (Canvas.width off)
            /\ x + Source.clampedSourceWidth cs ce img (Canvas.width off)
               <= Image.naturalWidth img)%Z as Ax' by exact Ax.
    assert (0 <= y /\ 1 <= Source.clampedSourceHeight cs ce img (Canvas.height off)
            /\ y + Source.clampedSourceHeight cs ce img (Canvas.height off)
               <= Image.naturalHeight img)%Z as Ay' by exact Ay.
    clear Ax Ay. rewrite <- Hw' in Ax'. rewrite <- Hh' in Ay'.
    clearbody x y.
    split; [lia|]. split; [lia|]. split; [lia|]. split; [lia|].
    intros i j Hi Hj. unfold Image.inside.
    rewrite !andb_true_iff, !Z.leb_le, !Z.ltb_lt. lia.
  - unfold lastToast. rewrite Hto. apply last_snoc.
Qed.

(** The written-out editor of the scenario agrees with the one obtained by
    running the load and switching the crop tool on, field by field (the
    canvases by their size). *)
Lemma scenario_idle_agrees :
  sizeOf (canvas Scenario.cropping) = sizeOf (canvas (Scenario.idle "crop"))
  /\ sizeOf (offscreenCanvas Scenario.cropping)
     = sizeOf (offscreenCanvas (Scenario.idle "crop"))
  /\ activeDrawingTools Scenario.cropping = activeDrawingTools (Scenario.idle "crop")
  /\ originalImage Scenario.cropping = originalImage (Scenario.idle "crop")
  /\ annotationElements Scenario.cropping = annotationElements (Scenario.idle "crop")
  /\ canvasRect Scenario.cropping = canvasRect (Scenario.idle "crop")
  /\ isDrawing Scenario.cropping = isDrawing (Scenario.idle "crop")
  /\ cursor Scenario.cropping = cursor (Scenario.idle "crop").
Proof. repeat split; vm_compute; reflexivity. Qed.

Lemma scenario_ready (elements : list Elem.t) :
  cropReady (Scenario.selected elements) (Pos.mk 100 100) (Pos.mk 300 250)
    Scenario.img Scenario.source.
Proof.
  unfold cropReady. repeat split; try reflexivity; try (cbn; lia).
Qed.

Lemma completeCrop_bitmap_dimensions_witness :
  exists bitmap,
    offscreenCanvas (completeCrop Scenario.env (Scenario.selected [])) = Some bitmap
    /\ Canvas.width bitmap = 200%Z /\ Canvas.height bitmap = 150%Z.
Proof.
  destruct (completeCrop_bitmap_dimensions Scenario.env (Scenario.selected [])
              (Pos.mk 100 100) (Pos.mk 300 250) Scenario.img Scenario.source
              Scenario.display (scenario_ready []) eq_refl eq_refl)
    as (bitmap & Hoff & Hw & Hh & _); try (cbn; lia).
  exists bitmap. split; [exact Hoff|]. split.
  - rewrite Hw. vm_compute. reflexivity.
  - rewrite Hh. vm_compute. reflexivity.
Defined.

(** A coordinate in [[0, w]] scaled by [n / w] lands in [[0, n]]. *)
Lemma scaled_range (v : Q) (n w : Z) :
  (0 < w)%Z -> (0 <= n)%Z -> 0 <= v -> v <= Zq w ->
  0 <= v * (Zq n / Zq w) /\ v * (Zq n / Zq w) <= Zq n.
Proof.
  intros Hw Hn Hv0 Hvw.
  assert (0 < Zq w) as Hw' by (apply (Zq_lt 0 w Hw)).
  assert (0 <= Zq n) as Hn' by (apply (Zq_le 0 n Hn)).
  set (k := Zq n / Zq w).
  assert (0 <= k) as Hk.
  { subst k. apply Qle_shift_div_l; [exact Hw'|]. lra. }
  assert (k * Zq w == Zq n) as Hkw.
  { subst k. field. lra. }
  split.
  - apply Qmult_le_0_compat; assumption.
  - rewrite <- Hkw. rewrite (Qmult_comm k). apply Qmult_le_compat_r; assumption.
Qed.

(** The second clamp of the source corner never moves it. *)
Lemma clampedSourceX_sourceX (cs ce : Pos.t) (img : Image.t) (w : Z) :
  (0 < w)%Z -> (0 <= Image.naturalWidth img)%Z ->
  Source.clampedSourceX cs ce img w = Source.sourceX cs ce img w.
Proof.
  intros Hw Hn. unfold Source.clampedSourceX, Source.sourceX, Source.scaleX.
  assert (0 <= Zq w) as Hw' by (apply (Zq_le 0 w); lia).
  destruct (clamp_range (Selection.displayStartX cs ce) (Zq w) Hw') as [H0 H1].
  fold (Selection.clampedStartX cs ce w) in H0, H1.
  destruct (scaled_range (Selection.clampedStartX cs ce w) (Image.naturalWidth img) w
              Hw Hn H0 H1) as [A B].
  apply roundZ_mono in A, B. change (Math.roundZ 0) with (Math.roundZ (Zq 0)) in A.
  rewrite (roundZ_inject 0) in A.
  rewrite roundZ_inject in B. lia.
Qed.

Lemma clampedSourceY_sourceY (cs ce : Pos.t) (img : Image.t) (h : Z) :
  (0 < h)%Z -> (0 <= Image.naturalHeight img)%Z ->
  Source.clampedSourceY cs ce img h = Source.sourceY cs ce img h.
Proof.
  intros Hh Hn. unfold Source.clampedSourceY, Source.sourceY, Source.scaleY.
  assert (0 <= Zq h) as Hh' by (apply (Zq_le 0 h); lia).
  destruct (clamp_range (Selection.displayStartY cs ce) (Zq h) Hh') as [H0 H1].
  fold (Selection.clampedStartY cs ce h) in H0, H1.
  destruct (scaled_range (Selection.clampedStartY cs ce h) (Image.naturalHeight img) h
              Hh Hn H0 H1) as [A B].
  apply roundZ_mono in A, B. change (Math.roundZ 0) with (Math.roundZ (Zq 0)) in A.
  rewrite (roundZ_inject 0) in A.
  rewrite roundZ_inject in B. lia.
Qed.

(** C2. Every element that survives a crop carries the re-projected
    coordinates of an element of the previous list:
    x = round(x*scaleX - sourceX), y = round(y*scaleY - sourceY),
    width = round(width*scaleX), height = round(height*scaleY), with
    sourceX = round(x0*scaleX) and sourceY = round(y0*scaleY) for the
    clamped selection corner (x0, y0); the position is the same integer as
    the one obtained by scaling, rounding and then translating. *)
Theorem completeCrop_reprojection (env : Env.t) (s : Editor.t) (cs ce : Pos.t)
    (img : Image.t) (off c : Canvas.t) :
  cropReady s cs ce img off -> canvas s = Some c -> Image.broken img = false ->
  (0 < Canvas.width off)%Z -> (0 < Canvas.height off)%Z ->
  (0 <= Image.naturalWidth img)%Z -> (0 <= Image.naturalHeight img)%Z ->
  let scaleX := Zq (Image.naturalWidth img) / Zq (Canvas.width off) in
  let scaleY := Zq (Image.naturalHeight img) / Zq (Canvas.height off) in
  let sourceX := Math.roundZ (Selection.clampedStartX cs ce (Canvas.width off) * scaleX) in
  let sourceY := Math.roundZ (Selection.clampedStartY cs ce (Canvas.height off) * scaleY) in
  forall e', In e' (annotationElements (completeCrop env s)) ->
    exists e,
      In e (annotationElements s)
      /\ Elem.x e' = Math.round (Elem.x e * scaleX - Zq sourceX)
      /\ Elem.y e' = Math.round (Elem.y e * scaleY - Zq sourceY)
      /\ Elem.width e' = Math.round (Elem.width e * scaleX)
      /\ Elem.height e' = Math.round (Elem.height e * scaleY)
      /\ Elem.x e' = Zq (Math.roundZ (Elem.x e * scaleX) - sourceX)
      /\ Elem.y e' = Zq (Math.roundZ (Elem.y e * scaleY) - sourceY)
      /\ Elem.id e' = Elem.id e /\ Elem.type e' = Elem.type e
      /\ Elem.color e' = Elem.color e.
Proof.
  intros Hready Hc Hb Hw Hh Hnw Hnh scaleX scaleY sourceX sourceY e' Hin.
  destruct (completeCrop_commits env s cs ce img off c Hready Hc Hb)
    as (_ & _ & _ & _ & _ & _ & Hel & _).
  rewrite Hel in Hin. apply filter_In in Hin. destruct Hin as [Hin _].
  apply in_map_iff in Hin. destruct Hin as (e & <- & Hin).
  rewrite (clampedSourceX_sourceX cs ce img (Canvas.width off) Hw Hnw).
  rewrite (clampedSourceY_sourceY cs ce img (Canvas.height off) Hh Hnh).
  exists e. split; [exact Hin|].
  unfold reproject, Elem.withBounds. cbn [Elem.x Elem.y Elem.width Elem.height
                                          Elem.id Elem.type Elem.color].
  change (Source.sourceX cs ce img (Canvas.width off)) with sourceX.
  change (Source.sourceY cs ce img (Canvas.height off)) with sourceY.
  change (Source.scaleX img (Canvas.width off)) with scaleX.
  change (Source.scaleY img (Canvas.height off)) with scaleY.
  repeat split; unfold Math.round; rewrite roundZ_shift; reflexivity.
Qed.

Lemma completeCrop_reprojection_witness :
  exists e,
    In e [Scenario.within]
    /\ Elem.x (Scenario.rect "anno-2" 50 50 20 20)
       = Zq (Math.roundZ (Elem.x e * (800 / 800)) - 100)
    /\ Elem.y (Scenario.rect "anno-2" 50 50 20 20)
       = Zq (Math.roundZ (Elem.y e * (600 / 600)) - 100).
Proof.
  assert (In (Scenario.rect "anno-2" 50 50 20 20)
            (annotationElements
               (completeCrop Scenario.env (Scenario.selected [Scenario.within]))))
    as Hin by (vm_compute; left; reflexivity).
  destruct (completeCrop_reprojection Scenario.env (Scenario.selected [Scenario.within])
              (Pos.mk 100 100) (Pos.mk 300 250) Scenario.img Scenario.source
              Scenario.display (scenario_ready [Scenario.within]) eq_refl eq_refl
              eq_refl eq_refl ltac:(cbn; lia) ltac:(cbn; lia) _ Hin)
    as (e & He & _ & _ & _ & _ & Hx & Hy & _).
  exists e. split; [exact He|]. split; [exact Hx | exact Hy].
Defined.

(** The filter keeps exactly the rectangles that meet the new bitmap,
    degenerate rectangles apart. *)
Lemma stillVisible_overlaps (e : Elem.t) (w h : Z) :
  (0 < w)%Z -> (0 < h)%Z ->
  (overlapsBitmap e w h -> stillVisible w h e = true)
  /\ (0 < Elem.width e -> 0 < Elem.height e ->
      stillVisible w h e = true -> overlapsBitmap e w h).
Proof.
  intros Hw Hh.
  assert (0 < Zq w) as Hw' by (apply (Zq_lt 0 w Hw)).
  assert (0 < Zq h) as Hh' by (apply (Zq_lt 0 h Hh)).
  unfold stillVisible, overlapsBitmap. split.
  - intros (px & py & H1 & H2 & H3 & H4 & H5 & H6 & H7 & H8).
    rewrite !andb_true_iff, !Qgtb_true, !Qltb_true. repeat split; lra.
  - intros Hew Heh Hvis.
    rewrite !andb_true_iff, !Qgtb_true, !Qltb_true in Hvis.
    destruct Hvis as [[[Hr Hb] Hx] Hy].
    exists (Qmax (Elem.x e) 0), (Qmax (Elem.y e) 0).
    minmax_cases; repeat split; lra.
Qed.

(** C1, as the code has it.  After a crop commits, an element whose
    re-projected rectangle meets [0,newW) x [0,newH) is kept, with exactly
    its re-projected bounds (they are not clamped to the bitmap); an element
    whose re-projected rectangle is non-degenerate and does not meet the
    bitmap is removed; nothing else enters the list.  In the 800x600
    scenario with the selection (100,100)-(300,250) the bitmap becomes
    200x150, the element at (50,50,20,20) is dropped and the one at
    (150,150,20,20) becomes (50,50,20,20). *)
Theorem completeCrop_elements :
  (forall env s cs ce img off c,
     cropReady s cs ce img off -> canvas s = Some c -> Image.broken img = false ->
     let newW := Source.clampedSourceWidth cs ce img (Canvas.width off) in
     let newH := Source.clampedSourceHeight cs ce img (Canvas.height off) in
     let project :=
       reproject (Source.scaleX img (Canvas.width off))
         (Source.scaleY img (Canvas.height off))
         (Source.clampedSourceX cs ce img (Canvas.width off))
         (Source.clampedSourceY cs ce img (Canvas.height off)) in
     (forall e, In e (annotationElements s) ->
        overlapsBitmap (project e) newW newH ->
        In (project e) (annotationElements (completeCrop env s)))
     /\ (forall e, In e (annotationElements s) ->
           0 < Elem.width (project e) -> 0 < Elem.height (project e) ->
           ~ overlapsBitmap (project e) newW newH ->
           ~ In (project e) (annotationElements (completeCrop env s)))
     /\ (forall e', In e' (annotationElements (completeCrop env s)) ->
           exists e, In e (annotationElements s) /\ e' = project e))
  /\ (annotationElements
        (completeCrop Scenario.env (Scenario.selected [Scenario.outside; Scenario.within]))
      = [Scenario.rect "anno-2" 50 50 20 20]
      /\ sizeOf (offscreenCanvas
                   (completeCrop Scenario.env
                      (Scenario.selected [Scenario.outside; Scenario.within])))
         = Some (200%Z, 150%Z)).
Proof.
  split.
  - intros env s cs ce img off c Hready Hc Hb newW newH project.
    destruct (completeCrop_commits env s cs ce img off c Hready Hc Hb)
      as (_ & _ & _ & _ & _ & _ & Hel & _).
    fold newW newH project in Hel. rewrite Hel.
    destruct (clampedSource_positive cs ce img (Canvas.width off) (Canvas.height off))
      as [Hw1 Hh1]. fold newW in Hw1. fold newH in Hh1.
    assert (0 < newW)%Z as Hw by lia. assert (0 < newH)%Z as Hh by lia.
    split; [|split].
    + intros e Hin Hov. apply filter_In. split; [apply in_map; exact Hin|].
      apply (stillVisible_overlaps (project e) newW newH Hw Hh). exact Hov.
    + intros e Hin Hpw Hph Hno Hkept. apply filter_In in Hkept.
      destruct Hkept as [_ Hvis]. apply Hno.
      apply (stillVisible_overlaps (project e) newW newH Hw Hh); assumption.
    + intros e' Hin. apply filter_In in Hin. destruct Hin as [Hin _].
      apply in_map_iff in Hin. destruct Hin as (e & <- & Hin).
      exists e. split; [exact Hin | reflexivity].
  - split; vm_compute; reflexivity.
Qed.

Lemma completeCrop_elements_witness :
  In (Scenario.rect "anno-2" 50 50 20 20)
     (annotationElements
        (completeCrop Scenario.env (Scenario.selected [Scenario.outside; Scenario.within]))).
Proof.
  destruct completeCrop_elements as [Hgen _].
  destruct (Hgen Scenario.env (Scenario.selected [Scenario.outside; Scenario.within])
              (Pos.mk 100 100) (Pos.mk 300 250) Scenario.img Scenario.source
              Scenario.display (scenario_ready _) eq_refl eq_refl)
    as (Hkeep & _ & _).
  apply (Hkeep Scenario.within); [right; left; reflexivity|].
  exists 50, 50. vm_compute. repeat split; discriminate.
Defined.

(** C1 as stated fails on the clamping: the element at (90,90,20,20)
    overlaps the selection partially; it is kept at (-10,-10,20,20), which
    is not within the bounds of the 200x150 bitmap. *)
Lemma crop_keeps_unclamped_overlap :
  annotationElements (completeCrop Scenario.env (Scenario.selected [Scenario.across]))
  = [Scenario.rect "anno-3" (-10) (-10) 20 20]
  /\ ~ (forall e',
          In e' (annotationElements
                   (completeCrop Scenario.env (Scenario.selected [Scenario.across]))) ->
          withinBitmap e' 200 150).
Proof.
  assert (annotationElements
            (completeCrop Scenario.env (Scenario.selected [Scenario.across]))
          = [Scenario.rect "anno-3" (-10) (-10) 20 20]) as E
    by (vm_compute; reflexivity).
  split; [exact E|]. rewrite E. intros H.
  destruct (H _ (or_introl eq_refl)) as [Hx _]. vm_compute in Hx. apply Hx. reflexivity.
Qed.

Lemma sameDocument_refl (s : Editor.t) : sameDocument s s.
Proof. unfold sameDocument. repeat split. Qed.

Lemma sameDocument_trans (s s' s'' : Editor.t) :
  sameDocument s s' -> sameDocument s' s'' -> sameDocument s s''.
Proof.
  unfold sameDocument.
  intros (A1 & A2 & A3 & A4 & A5) (B1 & B2 & B3 & B4 & B5).
  repeat split; congruence.
Qed.

Lemma sameDocument_showToast (m : string) (p : bool) (k : string) (s : Editor.t) :
  sameDocument s (showToast m p k s).
Proof. unfold sameDocument. repeat split. Qed.

Lemma sameDocument_redrawCanvas (s : Editor.t) : sameDocument s (redrawCanvas s).
Proof.
  destruct (redrawCanvas_frame s) as (A & _ & _ & B & C & _ & _ & _ & D).
  unfold sameDocument. rewrite A, B, C, D, redrawCanvas_size. repeat split.
Qed.

Lemma sameDocument_resetCropState (s : Editor.t) : sameDocument s (resetCropState s).
Proof.
  destruct (resetCropState_frame s) as (A & B & C & _ & D & E).
  unfold sameDocument. rewrite A, B, C, D, E. repeat split.
Qed.


(* ===================================================================== *)
(** ** What the renders show *)
(* ===================================================================== *)

Lemma Zq_min (a b : Z) : Zq (Z.min a b) == Qmin (Zq a) (Zq b).
Proof.
  destruct (Z.min_spec a b) as [[H ->]|[H ->]].
  - symmetry. apply Q.min_l. apply Zq_le. lia.
  - symmetry. apply Q.min_r. apply Zq_le. lia.
Qed.

Lemma Zq_max (a b : Z) : Zq (Z.max a b) == Qmax (Zq a) (Zq b).
Proof.
  destruct (Z.max_spec a b) as [[H ->]|[H ->]].
  - symmetry. apply Q.max_r. apply Zq_le. lia.
  - symmetry. apply Q.max_l. apply Zq_le. lia.
Qed.

Lemma Zq_succ_le (x y : Z) : (x < y)%Z -> Zq x + 1 <= Zq y.
Proof.
  intros H. change 1 with (Zq 1). rewrite <- inject_Z_plus. apply Zq_le. lia.
Qed.

(** An interval with integer ends covers a cell entirely or not at all. *)
Lemma overlap_cell (a w i : Z) :
  Canvas.overlap (Math.min (Zq a) (Zq a + Zq w)) (Math.max (Zq a) (Zq a + Zq w)) i
  == if covers a w i then 1 else 0.
Proof.
  unfold Canvas.overlap, covers, Math.min, Math.max.
  rewrite <- (inject_Z_plus a w), <- Zq_min, <- Zq_max.
  assert (Zq (Z.min a (a + w)) <= Zq (Z.max a (a + w))) as Hlh by (apply Zq_le; lia).
  destruct ((Z.min a (a + w) <=? i)%Z && (i <? Z.max a (a + w))%Z) eqn:E.
  - apply andb_true_iff in E. destruct E as [E1 E2].
    apply Z.leb_le, Zq_le in E1. apply Z.ltb_lt, Zq_succ_le in E2.
    revert Hlh E1 E2. generalize (Zq (Z.min a (a + w))) (Zq (Z.max a (a + w))) (Zq i).
    intros lo hi I Hlh E1 E2. minmax_cases; lra.
  - assert (Zq i + 1 <= Zq (Z.min a (a + w)) \/ Zq (Z.max a (a + w)) <= Zq i) as H.
    { apply andb_false_iff in E. destruct E as [E|E].
      - left. apply Zq_succ_le. apply Z.leb_gt in E. exact E.
      - right. apply Zq_le. apply Z.ltb_ge in E. exact E. }
    revert Hlh H. generalize (Zq (Z.min a (a + w))) (Zq (Z.max a (a + w))) (Zq i).
    intros lo hi I Hlh H. minmax_cases; lra.
Qed.

Lemma coverage_cell (x y w h i j : Z) :
  Canvas.coverage (Zq x) (Zq y) (Zq w) (Zq h) i j == if covered x y w h i j then 1 else 0.
Proof.
  unfold Canvas.coverage, covered. rewrite (overlap_cell x w i), (overlap_cell y h j).
  destruct (covers x w i), (covers y h j); cbn; ring.
Qed.

Lemma parse_black :
  exists c, Css.parse "#000000" = Some c /\ Rgba.eqv c Rgba.black.
Proof.
  eexists. split; [vm_compute; reflexivity|].
  unfold Rgba.eqv. cbn. repeat split; reflexivity.
Qed.

Lemma over_scaled_black (k : Q) (c d : Rgba.t) :
  k == 1 -> Rgba.eqv c Rgba.black ->
  Rgba.eqv (Rgba.over (Rgba.scale k c) d) Rgba.black.
Proof.
  intros Hk (Hr & Hg & Hb & Ha). unfold Rgba.eqv, Rgba.over, Rgba.scale. cbn in *.
  rewrite Hk, Hr, Hg, Hb, Ha. repeat split; ring.
Qed.

Lemma eqv_refl (a : Rgba.t) : Rgba.eqv a a.
Proof. unfold Rgba.eqv. repeat split; reflexivity. Qed.

Lemma paintFinalElement_inside (c : Canvas.t) (e : Elem.t) (i j : Z) :
  Canvas.inside (paintFinalElement c e) i j = Canvas.inside c i j.
Proof.
  destruct (paintFinalElement_size c e) as [Hw Hh].
  unfold Canvas.inside. rewrite Hw, Hh. reflexivity.
Qed.

(** One annotation in the export: the pixels of its rounded rectangle turn
    black, all others are left as they are. *)
Lemma paintFinalElement_pixel (c : Canvas.t) (e : Elem.t) (i j : Z) :
  Canvas.inside c i j = true ->
  (redacts e i j = true ->
   Rgba.eqv (Canvas.pixels (paintFinalElement c e) i j) Rgba.black)
  /\ (redacts e i j = false ->
      Canvas.pixels (paintFinalElement c e) i j = Canvas.pixels c i j).
Proof.
  intros Hin. unfold paintFinalElement, redacts.
  destruct (String.eqb (Elem.type e) "rect"); cbn [andb];
    [|split; [discriminate | reflexivity]].
  destruct parse_black as (b & Hparse & Hb).
  unfold Canvas.setFillStyle. rewrite Hparse.
  unfold Canvas.fillRect, Canvas.withPixels, Math.round.
  cbn [Canvas.pixels Canvas.fillStyle].
  assert (Canvas.inside
            {| Canvas.width := Canvas.width c; Canvas.height := Canvas.height c;
               Canvas.alpha := Canvas.alpha c; Canvas.fillStyle := b;
               Canvas.pixels := Canvas.pixels c |} i j = true) as -> by exact Hin.
  cbn [andb].
  pose proof (coverage_cell (Math.roundZ (Elem.x e)) (Math.roundZ (Elem.y e))
                (Math.roundZ (Elem.width e)) (Math.roundZ (Elem.height e)) i j) as Hk.
  destruct (covered _ _ _ _ i j).
  - split; [|discriminate]. intros _.
    assert (Qgtb (Canvas.coverage (Zq (Math.roundZ (Elem.x e))) (Zq (Math.roundZ (Elem.y e)))
                    (Zq (Math.roundZ (Elem.width e))) (Zq (Math.roundZ (Elem.height e))) i j) 0
            = true) as -> by (apply Qgtb_true; rewrite Hk; reflexivity).
    apply over_scaled_black; assumption.
  - split; [discriminate|]. intros _.
    assert (Qgtb (Canvas.coverage (Zq (Math.roundZ (Elem.x e))) (Zq (Math.roundZ (Elem.y e)))
                    (Zq (Math.roundZ (Elem.width e))) (Zq (Math.roundZ (Elem.height e))) i j) 0
            = false) as -> by (apply Qgtb_false; rewrite Hk; apply Qle_refl).
    reflexivity.
Qed.

Lemma paintFinal_pixels (l : list Elem.t) (c : Canvas.t) (i j : Z) :
  Canvas.inside c i j = true ->
  (existsb (fun e => redacts e i j) l = true ->
   Rgba.eqv (Canvas.pixels (fold_left paintFinalElement l c) i j) Rgba.black)
  /\ (existsb (fun e => redacts e i j) l = false ->
      Canvas.pixels (fold_left paintFinalElement l c) i j = Canvas.pixels c i j)
  /\ (Rgba.eqv (Canvas.pixels c i j) Rgba.black ->
      Rgba.eqv (Canvas.pixels (fold_left paintFinalElement l c) i j) Rgba.black).
Proof.
  revert c. induction l as [|e l IH]; intros c Hin; cbn [fold_left existsb].
  - split; [discriminate|]. split; [reflexivity | trivial].
  - assert (Canvas.inside (paintFinalElement c e) i j = true) as Hin'
      by (rewrite paintFinalElement_inside; exact Hin).
    destruct (IH (paintFinalElement c e) Hin') as (IH1 & IH2 & IH3).
    destruct (paintFinalElement_pixel c e i j Hin) as [Hon Hoff].
    assert (Rgba.eqv (Canvas.pixels c i j) Rgba.black ->
            Rgba.eqv (Canvas.pixels (paintFinalElement c e) i j) Rgba.black) as Hkeep.
    { intros Hb. destruct (redacts e i j); [apply Hon; reflexivity|].
      rewrite Hoff by reflexivity. exact Hb. }
    split; [|split].
    + intros H. apply orb_true_iff in H.
      destruct (existsb (fun e0 => redacts e0 i j) l) eqn:El.
      * apply IH1. reflexivity.
      * destruct H as [H|H]; [|discriminate]. apply IH3. apply Hon. exact H.
    + intros H. apply orb_false_iff in H. destruct H as [He Hl].
      rewrite (IH2 Hl). apply Hoff. exact He.
    + intros Hb. apply IH3. apply Hkeep. exact Hb.
Qed.

Lemma prepareFinalCanvas_layers (s : Editor.t) (off : Canvas.t) :
  offscreenCanvas s = Some off -> validSource off = true ->
  prepareFinalCanvas s
  = fold_left paintFinalElement (annotationElements s)
      (prepareFinalCanvas (setAnnotationElements [] s)).
Proof.
  intros Hoff Hvalid. unfold prepareFinalCanvas.
  cbn [offscreenCanvas annotationElements setAnnotationElements].
  rewrite Hoff, Hvalid. reflexivity.
Qed.

(** X1. The export is opaque everywhere; every pixel in the rounded
    rectangle of an annotation is exactly black, whatever the source
    shows there; every other pixel is the source over white. *)
Theorem prepareFinalCanvas_redacts (s : Editor.t) (off : Canvas.t) (i j : Z) :
  offscreenCanvas s = Some off -> validSource off = true ->
  Canvas.inside off i j = true ->
  Rgba.opaque (Canvas.pixels (prepareFinalCanvas s) i j)
  /\ (existsb (fun e => redacts e i j) (annotationElements s) = true ->
      Rgba.eqv (Canvas.pixels (prepareFinalCanvas s) i j) Rgba.black)
  /\ (existsb (fun e => redacts e i j) (annotationElements s) = false ->
      Rgba.eqv (Canvas.pixels (prepareFinalCanvas s) i j)
               (Rgba.over (Canvas.pixels off i j) Rgba.white)).
Proof.
  intros Hoff Hvalid Hin.
  rewrite (prepareFinalCanvas_layers s off Hoff Hvalid).
  set (base := prepareFinalCanvas (setAnnotationElements [] s)).
  assert (Rgba.eqv (Canvas.pixels base i j) (Rgba.over (Canvas.pixels off i j) Rgba.white))
    as Hbase by (apply prepareFinalCanvas_plain; [exact Hoff | exact Hvalid | reflexivity | exact Hin]).
  assert (Canvas.inside base i j = true) as Hin'.
  { destruct (prepareFinalCanvas_valid (setAnnotationElements [] s) off Hoff Hvalid)
      as [Hw Hh]. fold base in Hw, Hh. unfold Canvas.inside. rewrite Hw, Hh. exact Hin. }
  destruct (paintFinal_pixels (annotationElements s) base i j Hin') as (H1 & H2 & _).
  assert (Rgba.opaque (Rgba.over (Canvas.pixels off i j) Rgba.white)) as Hop.
  { unfold Rgba.opaque, Rgba.over. cbn. ring. }
  destruct (existsb (fun e => redacts e i j) (annotationElements s)).
  - split; [|split; [intros _; apply H1; reflexivity | discriminate]].
    destruct (H1 eq_refl) as (_ & _ & _ & Ha). unfold Rgba.opaque. rewrite Ha. reflexivity.
  - rewrite (H2 eq_refl).
    split; [|split; [discriminate | intros _; exact Hbase]].
    destruct Hbase as (_ & _ & _ & Ha). unfold Rgba.opaque in *. rewrite Ha. exact Hop.
Qed.

Lemma prepareFinalCanvas_redacts_witness :
  Rgba.eqv (Canvas.pixels (prepareFinalCanvas (Scenario.selected [Scenario.within])) 155 160)
           Rgba.black
  /\ Rgba.opaque (Canvas.pixels (prepareFinalCanvas (Scenario.selected [Scenario.within])) 10 10).
Proof.
  split.
  - apply (prepareFinalCanvas_redacts (Scenario.selected [Scenario.within])
             Scenario.source 155 160); reflexivity.
  - apply (prepareFinalCanvas_redacts (Scenario.selected [Scenario.within])
             Scenario.source 10 10); reflexivity.
Defined.

Lemma samePicture_inside (c c' : Canvas.t) (i j : Z) :
  samePicture c c' -> Canvas.inside c' i j = Canvas.inside c i j.
Proof. intros (Hw & Hh & _). unfold Canvas.inside. rewrite Hw, Hh. reflexivity. Qed.

Lemma paintElement_samePicture (c c' : Canvas.t) (e : Elem.t) :
  is_Some (Css.parse (Elem.color e)) ->
  samePicture c c' -> samePicture (paintElement c e) (paintElement c' e).
Proof.
  intros [col Hcol] Hsame. pose proof Hsame as (Hw & Hh & Hpx).
  unfold paintElement. destruct (String.eqb _ _); [|exact Hsame].
  unfold Canvas.setFillStyle. rewrite Hcol.
  unfold samePicture, Canvas.fillRect, Canvas.withPixels.
  cbn [Canvas.width Canvas.height Canvas.pixels Canvas.fillStyle].
  split; [exact Hw|]. split; [exact Hh|].
  intros i j Hin.
  assert (Canvas.inside c i j = true) as Hin0 by exact Hin.
  assert (forall a f p, Canvas.inside (Canvas.mk (Canvas.width c') (Canvas.height c') a f p) i j
                        = true) as ->.
  { intros. unfold Canvas.inside in *. cbn. rewrite Hw, Hh. exact Hin0. }
  assert (forall a f p, Canvas.inside (Canvas.mk (Canvas.width c) (Canvas.height c) a f p) i j
                        = true) as -> by (intros; exact Hin0).
  rewrite (Hpx i j Hin0). reflexivity.
Qed.

Lemma paint_samePicture (l : list Elem.t) (c c' : Canvas.t) :
  Forall (fun e => is_Some (Css.parse (Elem.color e))) l ->
  samePicture c c' ->
  samePicture (fold_left paintElement l c) (fold_left paintElement l c').
Proof.
  intros Hl. revert c c'. induction Hl as [|e l He Hl IH]; intros c c' Hsame; cbn [fold_left].
  - exact Hsame.
  - apply IH. apply paintElement_samePicture; assumption.
Qed.

(** X2. What a redraw shows is determined by the Document: two editors
    with the same working bitmap and element list, and display canvases of
    the same size, show the same picture after [redrawCanvas], whatever
    their display canvases held before. *)
Theorem redrawCanvas_shows_document (s s' : Editor.t) (c c' off : Canvas.t) :
  canvas s = Some c -> canvas s' = Some c' ->
  Canvas.width c' = Canvas.width c -> Canvas.height c' = Canvas.height c ->
  Canvas.alpha c' = Canvas.alpha c ->
  offscreenCanvas s = Some off -> offscreenCanvas s' = Some off ->
  annotationElements s' = annotationElements s ->
  Forall (fun e => is_Some (Css.parse (Elem.color e))) (annotationElements s) ->
  exists d d',
    canvas (redrawCanvas s) = Some d /\ canvas (redrawCanvas s') = Some d'
    /\ samePicture d d'.
Proof.
  intros Hc Hc' Hw Hh Ha Hoff Hoff' Hel Hcolours.
  unfold redrawCanvas. rewrite Hc, Hc', Hoff, Hoff', Hel.
  cbn [canvas setCanvas]. eexists. eexists.
  split; [reflexivity|]. split; [reflexivity|].
  apply paint_samePicture; [exact Hcolours|].
  unfold samePicture, Canvas.drawCanvas, Canvas.clearRect, Canvas.withPixels.
  cbn [Canvas.width Canvas.height Canvas.pixels Canvas.alpha Canvas.fillStyle].
  split; [exact Hw|]. split; [exact Hh|].
  intros i j Hin.
  assert (Canvas.inside c i j = true) as Hin0 by exact Hin.
  assert (Canvas.inside c' i j = true) as Hin0'
    by (unfold Canvas.inside in *; rewrite Hw, Hh; exact Hin0).
  assert (forall a f p, Canvas.inside (Canvas.mk (Canvas.width c') (Canvas.height c') a f p) i j
                        = true) as -> by (intros; exact Hin0').
  assert (forall a f p, Canvas.inside (Canvas.mk (Canvas.width c) (Canvas.height c) a f p) i j
                        = true) as -> by (intros; exact Hin0).
  rewrite Hin0, Hin0', Hw, Hh, Ha. cbn [andb].
  assert (Qgtb (Canvas.coverage 0 0 (Zq (Canvas.width c)) (Zq (Canvas.height c)) i j) 0 = true)
    as ->.
  { apply Qgtb_true. apply inside_bounds in Hin0.
    rewrite coverage_full by lia. reflexivity. }
  reflexivity.
Qed.

Lemma redrawCanvas_shows_document_witness :
  exists d d',
    canvas (redrawCanvas Stale.fresh) = Some d /\ canvas (redrawCanvas Stale.stale) = Some d'
    /\ samePicture d d'.
Proof.
  apply (redrawCanvas_shows_document Stale.fresh Stale.stale
           Scenario.display Stale.painted Scenario.source); try reflexivity.
  repeat constructor. eexists. reflexivity.
Defined.

(* ===================================================================== *)
(** ** Pointer moves *)
(* ===================================================================== *)

Lemma displayOnly_refl (s : Editor.t) : displayOnly s s.
Proof. unfold displayOnly. repeat split. Qed.

Lemma displayOnly_trans (s s' s'' : Editor.t) :
  displayOnly s s' -> displayOnly s' s'' -> displayOnly s s''.
Proof.
  unfold displayOnly.
  intros (A1 & A2 & A3 & A4 & A5 & A6 & A7 & A8 & A9)
         (B1 & B2 & B3 & B4 & B5 & B6 & B7 & B8 & B9).
  repeat split; congruence.
Qed.

Lemma displayOnly_setCursor (v : string) (s : Editor.t) : displayOnly s (setCursor v s).
Proof. unfold displayOnly, setCursor. destruct (canvas s); repeat split. Qed.

Lemma displayOnly_setCanvas (c : option Canvas.t) (s : Editor.t) :
  displayOnly s (setCanvas c s).
Proof. unfold displayOnly. repeat split. Qed.

Lemma displayOnly_setCropEnd (p : option Pos.t) (s : Editor.t) :
  displayOnly s (setCropEnd p s).
Proof. unfold displayOnly. repeat split. Qed.

Lemma displayOnly_updateCanvasRect (env : Env.t) (s : Editor.t) :
  displayOnly s (updateCanvasRect env s).
Proof. unfold displayOnly, updateCanvasRect. destruct (canvas s); repeat split. Qed.

Lemma displayOnly_redrawCanvas (s : Editor.t) : displayOnly s (redrawCanvas s).
Proof.
  unfold displayOnly, redrawCanvas.
  destruct (canvas s), (offscreenCanvas s) eqn:E; cbn; rewrite ?E; repeat split.
Qed.

Lemma displayOnly_restoreCanvasState (s : Editor.t) : displayOnly s (restoreCanvasState s).
Proof.
  unfold restoreCanvasState.
  destruct (lastImageData s) eqn:E; [|apply displayOnly_redrawCanvas].
  destruct (canvas s); [|apply displayOnly_redrawCanvas].
  apply displayOnly_setCanvas.
Qed.

Lemma displayOnly_getMousePos (env : Env.t) (e : MouseEvent.t) (s s1 : Editor.t) (pos : Pos.t) :
  getMousePos env e s = Some (pos, s1) -> displayOnly s s1.
Proof.
  intros H. rewrite (getMousePos_state env e s s1 pos H).
  destruct (canvasRect s); [apply displayOnly_refl | apply displayOnly_updateCanvasRect].
Qed.

Section Moves.
Variable strokeRect :
  list Q -> string -> Q -> Q -> Q -> Q -> Q -> Canvas.t -> Canvas.t.

Lemma displayOnly_drawCropGuides (x y w h : Q) (s : Editor.t) :
  displayOnly s (drawCropGuides strokeRect x y w h s).
Proof.
  unfold drawCropGuides. destruct (canvas s); [|apply displayOnly_refl].
  destruct (canvas (redrawCanvas s)); [|apply displayOnly_redrawCanvas].
  eapply displayOnly_trans; [apply displayOnly_redrawCanvas | apply displayOnly_setCanvas].
Qed.

Lemma displayOnly_throttled (args : Pos.t * Pos.t) (th : Throttle.state unit) (s : Editor.t) :
  displayOnly s (snd (fst (throttledDrawCropGuides strokeRect args th s))).
Proof.
  unfold throttledDrawCropGuides, Throttle.throttled.
  destruct (negb (Throttle.inThrottle th)); [|apply displayOnly_refl].
  unfold drawCropGuidesOf. destruct args as [startPos endPos].
  destruct (_ || _); cbn [fst snd]; [apply displayOnly_refl | apply displayOnly_drawCropGuides].
Qed.

Lemma displayOnly_annotatePreview (pos : Pos.t) (s : Editor.t) :
  displayOnly s (annotatePreview pos s).
Proof.
  unfold annotatePreview. destruct (annotateStart s); [|apply displayOnly_refl].
  destruct (_ || _); [apply displayOnly_refl|].
  destruct (_ && _); [|apply displayOnly_restoreCanvasState].
  destruct (canvas (restoreCanvasState s)); [|apply displayOnly_restoreCanvasState].
  eapply displayOnly_trans; [apply displayOnly_restoreCanvasState | apply displayOnly_setCanvas].
Qed.

Lemma handleMouseMove_keeps (env : Env.t) (e : MouseEvent.t)
    (th th' : Throttle.state unit) (s s' : Editor.t) :
  handleMouseMove strokeRect env e th s = Some (th', s') -> displayOnly s s'.
Proof.
  unfold handleMouseMove.
  destruct (getMousePos env e s) as [[pos s1]|] eqn:Hpos; [|discriminate].
  pose proof (displayOnly_getMousePos env e s s1 pos Hpos) as H1.
  set (s2 := if negb (isDrawing s1) && negb (bool_decide (activeTools s1 = ∅))
             then setCursor (if isToolActive "crop" s1 || isToolActive "annotate" s1
                             then "crosshair" else "default") s1
             else s1).
  assert (displayOnly s s2) as H2.
  { eapply displayOnly_trans; [exact H1|].
    subst s2. destruct (_ && _); [apply displayOnly_setCursor | apply displayOnly_refl]. }
  destruct (negb (isDrawing s2)); [intros H; injection H as _ <-; exact H2|].
  destruct (if isToolActive "crop" s2 then cropStart s2 else None) as [start|].
  - pose proof (displayOnly_throttled (start, pos) th (setCropEnd (Some pos) s2)) as H3.
    destruct (throttledDrawCropGuides strokeRect (start, pos) th (setCropEnd (Some pos) s2))
      as [[th3 s3] r]. cbn [fst snd] in H3.
    intros H. injection H as _ <-.
    eapply displayOnly_trans; [exact H2|].
    eapply displayOnly_trans; [apply displayOnly_setCropEnd | exact H3].
  - destruct (isToolActive "annotate" s2 && bool_decide (is_Some (annotateStart s2)));
      intros H; injection H as _ <-.
    + eapply displayOnly_trans; [exact H2 | apply displayOnly_annotatePreview].
    + exact H2.
Qed.

(** X3. A pointer move changes nothing but what is shown: the working
    bitmap, the element list, the active tools, the original image, the
    gesture in progress, the display snapshot and the toasts are as
    before, for every rasteriser of strokes.  Outside a gesture the
    display canvas, the selection and the throttle are left alone too. *)
Theorem handleMouseMove_display_only (env : Env.t) (e : MouseEvent.t)
    (th th' : Throttle.state unit) (s s' : Editor.t) :
  handleMouseMove strokeRect env e th s = Some (th', s') ->
  displayOnly s s'
  /\ (isDrawing s = false ->
      canvas s' = canvas s /\ cropEnd s' = cropEnd s /\ th' = th).
Proof.
  intros Hmove. split; [exact (handleMouseMove_keeps env e th th' s s' Hmove)|].
  intros Hidle. revert Hmove. unfold handleMouseMove.
  destruct (getMousePos env e s) as [[pos s1]|] eqn:Hpos; [|discriminate].
  pose proof (getMousePos_state env e s s1 pos Hpos) as Hs1.
  assert (canvas s1 = canvas s /\ cropEnd s1 = cropEnd s /\ isDrawing s1 = isDrawing s)
    as (Hc1 & He1 & Hd1).
  { rewrite Hs1. destruct (canvasRect s); [repeat split|].
    unfold updateCanvasRect. destruct (canvas s) eqn:E; cbn; rewrite ?E; repeat split. }
  set (s2 := if negb (isDrawing s1) && negb (bool_decide (activeTools s1 = ∅))
             then setCursor (if isToolActive "crop" s1 || isToolActive "annotate" s1
                             then "crosshair" else "default") s1
             else s1).
  assert (canvas s2 = canvas s /\ cropEnd s2 = cropEnd s /\ isDrawing s2 = false)
    as (Hc2 & He2 & Hd2).
  { subst s2. destruct (_ && _); [|repeat split; congruence].
    unfold setCursor. destruct (canvas s1) eqn:E; cbn; rewrite ?E; repeat split; congruence. }
  rewrite Hd2. cbn [negb]. intros H. injection H as <- <-. repeat split; assumption.
Qed.

(** A pointer move raises only where [getMousePos] does. *)
Lemma handleMouseMove_returns (env : Env.t) (e : MouseEvent.t)
    (th : Throttle.state unit) (s s1 : Editor.t) (pos : Pos.t) :
  getMousePos env e s = Some (pos, s1) ->
  exists th' s', handleMouseMove strokeRect env e th s = Some (th', s').
Proof.
  intros Hpos. unfold handleMouseMove. rewrite Hpos.
  match goal with
  | |- context [if negb (isDrawing ?st) then _ else _] => destruct (negb (isDrawing st))
  end; [eexists; eexists; reflexivity|].
  match goal with
  | |- context [match ?o with Some _ => _ | None => _ end] => destruct o as [start|]
  end.
  - match goal with
    | |- context [throttledDrawCropGuides strokeRect ?a ?t ?st] =>
        destruct (throttledDrawCropGuides strokeRect a t st) as [[th3 s3] r]
    end.
    eexists; eexists; reflexivity.
  - match goal with
    | |- context [if ?b then _ else _] => destruct b
    end; eexists; eexists; reflexivity.
Qed.

End Moves.

Lemma handleMouseMove_display_only_witness :
  exists th' s',
    handleMouseMove Drag.noStroke Scenario.env (MouseEvent.mk 200 180 0)
      Throttle.fresh Drag.dragging = Some (th', s')
    /\ displayOnly Drag.dragging s'.
Proof.
  destruct (handleMouseMove_returns Drag.noStroke Scenario.env (MouseEvent.mk 200 180 0)
              Throttle.fresh Drag.dragging _ _ eq_refl) as (th' & s' & E).
  exists th', s'. split; [exact E|].
  apply (handleMouseMove_display_only Drag.noStroke Scenario.env (MouseEvent.mk 200 180 0)
           Throttle.fresh th' Drag.dragging s' E).
Defined.

(* ===================================================================== *)
(** ** Leaving the canvas *)
(* ===================================================================== *)

Lemma sameDocument_setCursor (v : string) (s : Editor.t) : sameDocument s (setCursor v s).
Proof. unfold sameDocument, setCursor. destruct (canvas s) eqn:E; cbn; rewrite ?E; repeat split. Qed.

Lemma sameDocument_restoreCanvasState (s : Editor.t) : sameDocument s (restoreCanvasState s).
Proof.
  unfold restoreCanvasState.
  destruct (lastImageData s); [|apply sameDocument_redrawCanvas].
  destruct (canvas s) eqn:E; [|apply sameDocument_redrawCanvas].
  unfold sameDocument. cbn. rewrite E. repeat split.
Qed.

Lemma isToolActive_sameDocument (tool : string) (s s' : Editor.t) :
  sameDocument s s' -> isToolActive tool s' = isToolActive tool s.
Proof. intros (_ & _ & H & _). unfold isToolActive. rewrite H. reflexivity. Qed.

Lemma canvas_present (s s' : Editor.t) :
  sizeOf (canvas s') = sizeOf (canvas s) -> canvas s <> None -> canvas s' <> None.
Proof. destruct (canvas s), (canvas s'); cbn; congruence. Qed.

Lemma cursor_setCursor (v : string) (s : Editor.t) :
  canvas s <> None -> cursor (setCursor v s) = v.
Proof. unfold setCursor. destruct (canvas s); [reflexivity | congruence]. Qed.

Lemma resetCropState_clears (s : Editor.t) :
  cropStart (resetCropState s) = None /\ cropEnd (resetCropState s) = None
  /\ isDrawing (resetCropState s) = isDrawing s
  /\ annotateStart (resetCropState s) = annotateStart s
  /\ lastImageData (resetCropState s) = lastImageData s.
Proof.
  unfold resetCropState. cbn [canvas setCropEnd setCropStart].
  destruct (canvas s) as [c|] eqn:Hc; [|cbn; repeat split].
  unfold redrawCanvas, setCursor. cbn. rewrite Hc. cbn.
  destruct (offscreenCanvas s); cbn; repeat split.
Qed.

Lemma handleMouseLeave_sameDocument (s : Editor.t) :
  sameDocument s (handleMouseLeave s).
Proof.
  unfold handleMouseLeave. destruct (isDrawing s); [|apply sameDocument_refl].
  eapply sameDocument_trans; [|apply sameDocument_setCursor].
  assert (sameDocument s
            (if isToolActive "crop" s
             then showToast "Crop cancelled (mouse left canvas)." false "info"
                    (resetCropState (setIsDrawing false s))
             else setIsDrawing false s)) as H1.
  { destruct (isToolActive "crop" s); [|unfold sameDocument; repeat split].
    eapply sameDocument_trans; [|apply sameDocument_showToast].
    eapply sameDocument_trans; [|apply sameDocument_resetCropState].
    unfold sameDocument. repeat split. }
  destruct (isToolActive "annotate" s); [|exact H1].
  eapply sameDocument_trans; [exact H1|].
  eapply sameDocument_trans; [apply sameDocument_restoreCanvasState|].
  eapply sameDocument_trans; [|apply sameDocument_showToast].
  unfold sameDocument. repeat split.
Qed.

(** X4. Leaving the canvas during a gesture cancels it: the gesture is
    over, the selection of a crop and the anchor of an annotation are
    dropped, the Document is what it was, the tool stays on and the cursor
    is the crosshair exactly when a drawing tool is on. *)
Theorem handleMouseLeave_cancels (s : Editor.t) :
  isDrawing s = true ->
  isDrawing (handleMouseLeave s) = false
  /\ sameDocument s (handleMouseLeave s)
  /\ (isToolActive "crop" s = true ->
      cropStart (handleMouseLeave s) = None /\ cropEnd (handleMouseLeave s) = None)
  /\ (isToolActive "annotate" s = true -> annotateStart (handleMouseLeave s) = None)
  /\ (canvas s <> None ->
      cursor (handleMouseLeave s)
      = if isToolActive "crop" s || isToolActive "annotate" s
        then "crosshair" else "default").
Proof.
  intros Hd. unfold handleMouseLeave. rewrite Hd.
  set (s1 := if isToolActive "crop" s
             then showToast "Crop cancelled (mouse left canvas)." false "info"
                    (resetCropState (setIsDrawing false s))
             else setIsDrawing false s).
  assert (sameDocument s s1 /\ isDrawing s1 = false
          /\ annotateStart s1 = annotateStart s
          /\ (isToolActive "crop" s = true -> cropStart s1 = None /\ cropEnd s1 = None)) as H1.
  { subst s1. destruct (isToolActive "crop" s).
    - pose proof (sameDocument_resetCropState (setIsDrawing false s)) as A.
      pose proof (resetCropState_clears (setIsDrawing false s)) as (B1 & B2 & B3 & B4 & _).
      split; [|split; [|split]].
      + eapply sameDocument_trans; [|apply sameDocument_showToast].
        eapply sameDocument_trans; [|exact A]. unfold sameDocument. repeat split.
      + exact B3.
      + exact B4.
      + intros _. split; assumption.
    - split; [unfold sameDocument; repeat split|].
      split; [reflexivity|]. split; [reflexivity|]. discriminate. }
  destruct H1 as (Hdoc1 & Hd1 & Ha1 & Hcrop1).
  set (s2 := if isToolActive "annotate" s
             then showToast "Annotation cancelled (mouse left canvas)." false "info"
                    (setAnnotateStart None (restoreCanvasState s1))
             else s1).
  assert (sameDocument s1 s2 /\ isDrawing s2 = isDrawing s1
          /\ cropStart s2 = cropStart s1 /\ cropEnd s2 = cropEnd s1
          /\ (isToolActive "annotate" s = true -> annotateStart s2 = None)) as H2.
  { subst s2. destruct (isToolActive "annotate" s).
    - pose proof (sameDocument_restoreCanvasState s1) as A.
      pose proof (displayOnly_restoreCanvasState s1) as (_ & _ & _ & _ & B5 & B6 & _).
      split; [|split; [|split; [|split]]].
      + eapply sameDocument_trans; [exact A|].
        eapply sameDocument_trans; [|apply sameDocument_showToast].
        unfold sameDocument. repeat split.
      + exact B5.
      + exact B6.
      + unfold restoreCanvasState, redrawCanvas.
        destruct (lastImageData s1), (canvas s1), (offscreenCanvas s1); reflexivity.
      + reflexivity.
    - split; [apply sameDocument_refl|]. repeat split. discriminate. }
  destruct H2 as (Hdoc2 & Hd2 & Hcs2 & Hce2 & Hann2).
  pose proof (sameDocument_trans _ _ _ Hdoc1 Hdoc2) as Hdoc.
  match goal with |- context [setCursor ?v s2] => set (v2 := v) end.
  pose proof (setCursor_frame v2 s2) as (_ & Hd3 & Ha3 & _).
  split; [congruence|].
  split; [eapply sameDocument_trans; [exact Hdoc | apply sameDocument_setCursor]|].
  assert (cropStart (setCursor v2 s2) = cropStart s2 /\ cropEnd (setCursor v2 s2) = cropEnd s2)
    as [Hcs3 Hce3] by (unfold setCursor; destruct (canvas s2); split; reflexivity).
  split; [|split].
  - intros Hc. destruct (Hcrop1 Hc). split; congruence.
  - intros Ha. rewrite Ha3. apply Hann2. exact Ha.
  - intros Hcanvas. rewrite cursor_setCursor.
    + subst v2. rewrite !(isToolActive_sameDocument _ s s2 Hdoc).
      destruct (isToolActive "crop" s), (isToolActive "annotate" s); reflexivity.
    + destruct Hdoc as (_ & _ & _ & _ & Hsize). exact (canvas_present _ _ Hsize Hcanvas).
Qed.

Lemma handleMouseLeave_cancels_witness :
  isDrawing (handleMouseLeave Drag.dragging) = false
  /\ cropStart (handleMouseLeave Drag.dragging) = None
  /\ annotateStart (handleMouseLeave Annotate.pressed) = None.
Proof.
  pose proof (handleMouseLeave_cancels Drag.dragging eq_refl) as (A & _ & B & _).
  pose proof (handleMouseLeave_cancels Annotate.pressed eq_refl) as (_ & _ & _ & C & _).
  split; [exact A|]. split; [apply B; reflexivity | apply C; reflexivity].
Defined.

(* ===================================================================== *)
(** ** A cancelled annotation *)
(* ===================================================================== *)

Lemma annotatePreview_size (pos : Pos.t) (s : Editor.t) :
  sizeOf (canvas (annotatePreview pos s)) = sizeOf (canvas s).
Proof.
  unfold annotatePreview. destruct (annotateStart s); [|reflexivity].
  destruct (_ || _); [reflexivity|].
  destruct (sameDocument_restoreCanvasState s) as (_ & _ & _ & _ & Hsize).
  destruct (_ && _); [|exact Hsize].
  destruct (canvas (restoreCanvasState s)) as [c|] eqn:E; [|rewrite E; exact Hsize].
  rewrite <- Hsize. cbn [canvas setCanvas sizeOf option_map].
  unfold Canvas.setFillStyle. destruct (Css.parse _); reflexivity.
Qed.

Section Cancel.
Variable strokeRect :
  list Q -> string -> Q -> Q -> Q -> Q -> Q -> Canvas.t -> Canvas.t.

(** With the crop tool off a pointer move keeps the size of the display. *)
Lemma handleMouseMove_size (env : Env.t) (e : MouseEvent.t)
    (th th' : Throttle.state unit) (s s' : Editor.t) :
  isToolActive "crop" s = false ->
  handleMouseMove strokeRect env e th s = Some (th', s') ->
  sizeOf (canvas s') = sizeOf (canvas s).
Proof.
  intros Hcrop. unfold handleMouseMove.
  destruct (getMousePos env e s) as [[pos s1]|] eqn:Hpos; [|discriminate].
  destruct (getMousePos_frame env e s s1 pos Hpos) as (Hc1 & _ & Ht1 & _).
  set (s2 := if negb (isDrawing s1) && negb (bool_decide (activeTools s1 = ∅))
             then setCursor (if isToolActive "crop" s1 || isToolActive "annotate" s1
                             then "crosshair" else "default") s1
             else s1).
  assert (canvas s2 = canvas s /\ activeTools s2 = activeTools s) as [Hc2 Ht2].
  { subst s2. destruct (_ && _); [|split; congruence].
    destruct (setCursor_frame
                (if isToolActive "crop" s1 || isToolActive "annotate" s1
                 then "crosshair" else "default") s1) as (A & _ & _ & _ & _ & B).
    split; congruence. }
  assert (isToolActive "crop" s2 = false) as Hcrop2
    by (unfold isToolActive in *; rewrite Ht2; exact Hcrop).
  destruct (negb (isDrawing s2)).
  - intros H. injection H as _ <-. rewrite Hc2. reflexivity.
  - rewrite Hcrop2.
    destruct (isToolActive "annotate" s2 && bool_decide (is_Some (annotateStart s2)));
      intros H; injection H as _ <-.
    + rewrite annotatePreview_size, Hc2. reflexivity.
    + rewrite Hc2. reflexivity.
Qed.

Lemma moves_annotating (env : Env.t) (es : list MouseEvent.t)
    (th th' : Throttle.state unit) (s s' : Editor.t) :
  isToolActive "crop" s = false ->
  moves strokeRect env es th s = Some (th', s') ->
  displayOnly s s' /\ sizeOf (canvas s') = sizeOf (canvas s).
Proof.
  revert th s. induction es as [|e es IH]; intros th s Hcrop; cbn [moves].
  - intros H. injection H as _ <-. split; [apply displayOnly_refl | reflexivity].
  - destruct (handleMouseMove strokeRect env e th s) as [[th1 s1]|] eqn:E; [|discriminate].
    intros H.
    pose proof (handleMouseMove_keeps strokeRect env e th th1 s s1 E) as Hd.
    pose proof (handleMouseMove_size env e th th1 s s1 Hcrop E) as Hsz.
    assert (isToolActive "crop" s1 = false) as Hcrop1.
    { destruct Hd as (_ & _ & Ht & _). unfold isToolActive in *. rewrite Ht. exact Hcrop. }
    destruct (IH th1 s1 Hcrop1 H) as [Hd' Hsz'].
    split; [eapply displayOnly_trans; eassumption | congruence].
Qed.

(** X5. An annotation drag that ends with the pointer leaving the canvas
    leaves no trace: after pointer-down, any pointer moves and the leave,
    the display shows pixel for pixel what it showed before the
    pointer-down, no element has been added and the working bitmap is
    untouched; the gesture is over, its anchor dropped, the annotate tool
    still on, and the cancellation has been announced. *)
Theorem annotate_cancelled (env : Env.t) (e : MouseEvent.t) (es : list MouseEvent.t)
    (th th' : Throttle.state unit) (s s1 s2 : Editor.t) (c : Canvas.t) :
  isToolActive "annotate" s = true -> isToolActive "crop" s = false ->
  canvas s = Some c -> Canvas.width c <> 0%Z -> Canvas.height c <> 0%Z ->
  MouseEvent.button e = 0%Z ->
  handleMouseDown env e s = Some s1 ->
  moves strokeRect env es th s1 = Some (th', s2) ->
  (exists c', canvas (handleMouseLeave s2) = Some c' /\ samePicture c c')
  /\ annotationElements (handleMouseLeave s2) = annotationElements s
  /\ offscreenCanvas (handleMouseLeave s2) = offscreenCanvas s
  /\ activeTools (handleMouseLeave s2) = activeTools s
  /\ isDrawing (handleMouseLeave s2) = false
  /\ annotateStart (handleMouseLeave s2) = None
  /\ cursor (handleMouseLeave s2) = "crosshair"
  /\ lastToast (handleMouseLeave s2)
     = Some (Toast.mk "Annotation cancelled (mouse left canvas)." false "info").
Proof.
  intros Hann Hcrop Hc Hw Hh Hbutton Hdown Hmoves.
  (* pointer-down *)
  unfold handleMouseDown in Hdown. rewrite Hbutton in Hdown. cbn [Z.eqb negb] in Hdown.
  destruct (getMousePos env e s) as [[pos s0]|] eqn:Hpos; [|discriminate].
  destruct (getMousePos_frame env e s s0 pos Hpos)
    as (Hc0 & Hoff0 & Ht0 & _ & _ & _ & _ & Hel0 & _).
  assert (isToolActive "crop" (setIsDrawing false s0) = false) as Hcrop0
    by (unfold isToolActive in *; cbn; rewrite Ht0; exact Hcrop).
  assert (isToolActive "annotate" (setIsDrawing false s0) = true) as Hann0
    by (unfold isToolActive in *; cbn; rewrite Ht0; exact Hann).
  rewrite Hcrop0, Hann0 in Hdown. injection Hdown as <-.
  unfold saveCanvasState in Hmoves.
  cbn [canvas setAnnotateStart setIsDrawing] in Hmoves. rewrite Hc0, Hc in Hmoves.
  assert (ImageData.get c
          = Some (ImageData.mk (Canvas.width c) (Canvas.height c) (Canvas.pixels c))) as Hget.
  { unfold ImageData.get.
    destruct (Z.eqb_spec (Canvas.width c) 0); [contradiction|].
    destruct (Z.eqb_spec (Canvas.height c) 0); [contradiction|]. reflexivity. }
  rewrite Hget in Hmoves.
  (* pointer moves *)
  match type of Hmoves with
  | moves _ _ _ _ ?st = _ => set (s1 := st) in *
  end.
  assert (isToolActive "crop" s1 = false) as Hcrop1
    by (unfold isToolActive in *; cbn; rewrite Ht0; exact Hcrop).
  destruct (moves_annotating env es th th' s1 s2 Hcrop1 Hmoves)
    as ((Hoff2 & Hel2 & Ht2 & _ & Hd2 & _ & _ & Hlast2 & _) & Hsize2).
  cbn [s1 offscreenCanvas annotationElements activeTools isDrawing lastImageData canvas
       setLastImageData setAnnotateStart setIsDrawing] in Hoff2, Hel2, Ht2, Hd2, Hlast2, Hsize2.
  rewrite Hc0, Hc in Hsize2.
  destruct (canvas s2) as [c2|] eqn:Hc2; [|discriminate].
  cbn [sizeOf option_map] in Hsize2. injection Hsize2 as Hw2 Hh2.
  (* the leave *)
  assert (isToolActive "crop" s2 = false) as Hcrop2
    by (unfold isToolActive in *; rewrite Ht2, Ht0; exact Hcrop).
  assert (isToolActive "annotate" s2 = true) as Hann2
    by (unfold isToolActive in *; rewrite Ht2, Ht0; exact Hann).
  unfold handleMouseLeave. rewrite Hd2, Hcrop2, Hann2.
  unfold restoreCanvasState.
  cbn [lastImageData canvas setIsDrawing]. rewrite Hlast2, Hc2.
  assert (forall st, isToolActive "annotate" st = bool_decide ("annotate" ∈ activeTools st))
    as Hfold by reflexivity.
  cbn [andb]. rewrite Hfold. cbn [activeTools showToast setToasts setAnnotateStart setCanvas
                                   setIsDrawing].
  rewrite <- Hfold, Hann2. unfold setCursor.
  cbn [canvas showToast setToasts setAnnotateStart setCanvas setIsDrawing
       annotationElements offscreenCanvas activeTools isDrawing annotateStart cursor toasts].
  unfold lastToast. cbn [toasts]. rewrite last_snoc.
  split; [|repeat split; congruence].
  eexists. split; [reflexivity|].
  unfold samePicture, ImageData.put, Canvas.withPixels.
  cbn [Canvas.width Canvas.height Canvas.pixels ImageData.width ImageData.height ImageData.data].
  split; [exact Hw2|]. split; [exact Hh2|].
  intros i j Hin.
  assert (Canvas.inside c2 i j = true) as ->
    by (unfold Canvas.inside in *; rewrite Hw2, Hh2; exact Hin).
  apply inside_bounds in Hin. destruct Hin as [[_ Hi] [_ Hj]].
  apply Z.ltb_lt in Hi, Hj. rewrite Hi, Hj. reflexivity.
Qed.

End Cancel.

Lemma handleMouseDown_returns (env : Env.t) (e : MouseEvent.t) (s : Editor.t) :
  is_Some (canvas s) ->
  exists s1, handleMouseDown env e s = Some s1 /\ is_Some (canvas s1).
Proof.
  intros [c Hc]. unfold handleMouseDown.
  destruct (negb _); [exists s; split; [reflexivity | eexists; exact Hc]|].
  assert (exists pos s0, getMousePos env e s = Some (pos, s0) /\ canvas s0 = Some c)
    as (pos & s0 & -> & Hc0).
  { unfold getMousePos. destruct (canvasRect s) as [rect|] eqn:Hr.
    - rewrite Hr, Hc. eexists; eexists; split; [reflexivity | exact Hc].
    - unfold updateCanvasRect. rewrite Hc. cbn [canvasRect canvas setCanvasRect].
      rewrite Hc. eexists; eexists; split; [reflexivity | exact Hc]. }
  destruct (isToolActive "crop" _).
  - eexists. split; [reflexivity|].
    destruct (setCursor_frame "crosshair"
                (setCropEnd (Some pos)
                   (setCropStart (Some pos) (setIsDrawing true (setIsDrawing false s0)))))
      as (-> & _).
    exists c. exact Hc0.
  - destruct (isToolActive "annotate" _).
    + eexists. split; [reflexivity|]. unfold saveCanvasState.
      cbn [canvas setAnnotateStart setIsDrawing]. rewrite Hc0.
      exists c. exact Hc0.
    + eexists. split; [reflexivity|]. exists c. exact Hc0.
Qed.

Lemma annotate_cancelled_witness :
  exists th' s1 s2 c',
    handleMouseDown Scenario.env (MouseEvent.mk 100 100 0) Annotate.annotating = Some s1
    /\ moves Drag.noStroke Scenario.env [MouseEvent.mk 200 180 0] Throttle.fresh s1
       = Some (th', s2)
    /\ canvas (handleMouseLeave s2) = Some c'
    /\ samePicture Scenario.display c'.
Proof.
  destruct (handleMouseDown_returns Scenario.env (MouseEvent.mk 100 100 0) Annotate.annotating)
    as (s1 & Hdown & [c1 Hc1]); [eexists; reflexivity|].
  assert (exists pos s0,
            getMousePos Scenario.env (MouseEvent.mk 200 180 0) s1 = Some (pos, s0))
    as (pos & s0 & Hpos).
  { unfold getMousePos. destruct (canvasRect s1) as [rect|] eqn:Hr.
    - rewrite Hr, Hc1. eexists; eexists; reflexivity.
    - unfold updateCanvasRect. rewrite Hc1. cbn [canvasRect canvas setCanvasRect].
      rewrite Hc1. eexists; eexists; reflexivity. }
  destruct (handleMouseMove_returns Drag.noStroke Scenario.env (MouseEvent.mk 200 180 0)
              Throttle.fresh s1 s0 pos Hpos) as (th' & s2 & Hmove).
  assert (moves Drag.noStroke Scenario.env [MouseEvent.mk 200 180 0] Throttle.fresh s1
          = Some (th', s2)) as Hmoves by (cbn [moves]; rewrite Hmove; reflexivity).
  destruct (annotate_cancelled Drag.noStroke Scenario.env (MouseEvent.mk 100 100 0)
              [MouseEvent.mk 200 180 0] Throttle.fresh th' Annotate.annotating s1 s2
              Scenario.display eq_refl eq_refl eq_refl) as ((c' & Hc' & Hsame) & _);
    [discriminate | discriminate | reflexivity | exact Hdown | exact Hmoves |].
  exists th', s1, s2, c'. repeat split; try assumption; apply Hsame.
Defined.

(* ===================================================================== *)
(** ** Which selections are cropped *)
(* ===================================================================== *)

(** Rounding reaches 2 exactly from one and a half on. *)
Lemma round_above_one (d : Q) : 1 < Math.round d <-> (3 # 2) <= d.
Proof.
  unfold Math.round, Math.roundZ.
  pose proof (Qfloor_le (d + (1 # 2))) as Hlo. pose proof (Qlt_floor (d + (1 # 2))) as Hhi.
  split.
  - intros H. change 1 with (Zq 1) in H. rewrite <- Zlt_Qlt in H.
    assert (Zq 2 <= Zq (Qfloor (d + (1 # 2)))) as A by (apply Zq_le; lia).
    change (Zq 2) with 2 in A. lra.
  - intros H. change 1 with (Zq 1). rewrite <- Zlt_Qlt.
    assert (Zq 2 < Zq (Qfloor (d + (1 # 2)) + 1)) as A by (change (Zq 2) with 2; lra).
    rewrite <- Zlt_Qlt in A. lia.
Qed.

(** One axis of the test of [completeCrop]. *)
Lemma clamped_extent (d start : Q) (n : Z) :
  1 < Math.max 1 (Math.min (Math.max 1 (Math.round d))
                           (Zq n - Math.max 0 (Math.min start (Zq n))))
  <-> (3 # 2) <= d /\ start < Zq n - 1 /\ 1 < Zq n.
Proof.
  rewrite <- round_above_one. generalize (Math.round d) (Zq n). intros R N.
  split; intros H; minmax_cases; repeat split; lra.
Qed.

(** X6. The selections [completeCrop] accepts: the drag spans at least one
    and a half pixels in both axes, and its top-left corner lies more than
    one pixel inside the right and bottom edges of the working canvas.
    All others are rejected as too small, whatever their extent. *)
Theorem tooSmall_iff (cs ce : Pos.t) (w h : Z) :
  Selection.tooSmall cs ce w h = false
  <-> ((3 # 2) <= Math.abs (Pos.x ce - Pos.x cs)
       /\ Math.min (Pos.x cs) (Pos.x ce) < Zq w - 1 /\ 1 < Zq w)
      /\ ((3 # 2) <= Math.abs (Pos.y ce - Pos.y cs)
          /\ Math.min (Pos.y cs) (Pos.y ce) < Zq h - 1 /\ 1 < Zq h).
Proof.
  unfold Selection.tooSmall. rewrite orb_false_iff.
  unfold Selection.clampedWidth, Selection.clampedHeight, Selection.clampedStartX,
    Selection.clampedStartY, Selection.displayCropWidth, Selection.displayCropHeight,
    Selection.displayStartX, Selection.displayStartY.
  rewrite <- (clamped_extent (Math.abs (Pos.x ce - Pos.x cs))
                (Math.min (Pos.x cs) (Pos.x ce)) w).
  rewrite <- (clamped_extent (Math.abs (Pos.y ce - Pos.y cs))
                (Math.min (Pos.y cs) (Pos.y ce)) h).
  assert (forall q, Qleb q 1 = false <-> 1 < q) as Hq.
  { intros q. unfold Qleb. split.
    - intros E. apply Qnot_le_lt. intros Hle. apply Qle_bool_iff in Hle. congruence.
    - intros Hlt. destruct (Qle_bool q 1) eqn:E; [|reflexivity].
      apply Qle_bool_iff in E. lra. }
  rewrite !Hq. reflexivity.
Qed.

(* ===================================================================== *)
(** ** What a crop reads and what it leaves *)
(* ===================================================================== *)

(** X7. A crop takes its pixels from the original image; the working
    bitmap enters through its size only.  Two editors that agree on the
    selection, the original image and the size of the working bitmap get
    the same new working bitmap, whatever their working bitmaps held - in
    particular when these came from an earlier crop. *)
Theorem completeCrop_reads_original (env env' : Env.t) (s s' : Editor.t) (cs ce : Pos.t)
    (img : Image.t) (off off' c c' : Canvas.t) :
  cropReady s cs ce img off -> cropReady s' cs ce img off' ->
  canvas s = Some c -> canvas s' = Some c' -> Image.broken img = false ->
  Canvas.width off' = Canvas.width off -> Canvas.height off' = Canvas.height off ->
  Canvas.alpha off' = Canvas.alpha off ->
  exists o o',
    offscreenCanvas (completeCrop env s) = Some o
    /\ offscreenCanvas (completeCrop env' s') = Some o'
    /\ samePicture o o'
    /\ Canvas.width o = Source.clampedSourceWidth cs ce img (Canvas.width off)
    /\ Canvas.height o = Source.clampedSourceHeight cs ce img (Canvas.height off).
Proof.
  intros Hready Hready' Hc Hc' Hb Hw Hh Ha.
  destruct (completeCrop_commits env s cs ce img off c Hready Hc Hb)
    as (o & Ho & Hwo & Hho & Hpx & _).
  destruct (completeCrop_commits env' s' cs ce img off' c' Hready' Hc' Hb)
    as (o' & Ho' & Hwo' & Hho' & Hpx' & _).
  exists o, o'. split; [exact Ho|]. split; [exact Ho'|].
  rewrite Hw in Hwo'. rewrite Hh in Hho'. rewrite Hw, Hh, Ha in Hpx'.
  split; [|split; assumption].
  unfold samePicture. split; [congruence|]. split; [congruence|].
  intros i j Hin.
  assert (Canvas.inside o' i j = true) as Hin'
    by (unfold Canvas.inside in *; rewrite Hwo', Hho', <- Hwo, <- Hho; exact Hin).
  rewrite (Hpx i j Hin), (Hpx' i j Hin'). reflexivity.
Qed.

Lemma completeCrop_reads_original_witness :
  exists o o',
    offscreenCanvas (completeCrop Scenario.env Recrop.again) = Some o
    /\ offscreenCanvas (completeCrop Scenario.env Recrop.again') = Some o'
    /\ samePicture o o' /\ Canvas.width o = 400%Z /\ Canvas.height o = 300%Z.
Proof.
  assert (forall working,
            Canvas.width working = 200%Z -> Canvas.height working = 150%Z ->
            cropReady (Recrop.selecting working) (Pos.mk 0 0) (Pos.mk 100 75)
              Scenario.img working) as Hready.
  { intros working Hw Hh. unfold cropReady. rewrite Hw, Hh.
    repeat split; try reflexivity; discriminate. }
  destruct (completeCrop_reads_original Scenario.env Scenario.env
              Recrop.again Recrop.again' (Pos.mk 0 0) (Pos.mk 100 75) Scenario.img
              Recrop.bitmap Recrop.bitmap' Recrop.display Recrop.display
              (Hready Recrop.bitmap eq_refl eq_refl) (Hready Recrop.bitmap' eq_refl eq_refl)
              eq_refl eq_refl eq_refl eq_refl eq_refl eq_refl)
    as (o & o' & Ho & Ho' & Hsame & Hw & Hh).
  exists o, o'. repeat split; try assumption; apply Hsame.
Defined.

Lemma cropTry_gesture (env : Env.t) (cs ce : Pos.t) (img : Image.t) (off : Canvas.t)
    (s : Editor.t) :
  let s1 := fst (cropTry env cs ce img off s) in
  isDrawing s1 = isDrawing s /\ annotateStart s1 = annotateStart s
  /\ lastImageData s1 = lastImageData s /\ originalImage s1 = originalImage s.
Proof.
  unfold cropTry. destruct (canvas s) as [c|] eqn:Hc; [|repeat split].
  destruct (Canvas.drawImageSub _ _ _ _ _ _); [|repeat split].
  cbn [fst]. unfold redrawCanvas, updateCanvasRect.
  cbn [canvas offscreenCanvas setCanvas setOffscreenCanvas setAnnotationElements
       setCanvasRect].
  cbn. repeat split.
Qed.

(** X8. However [completeCrop] ends - committed, rejected or failed - the
    selection is dropped, and it never replaces the original image, ends a
    gesture, or touches the anchor and the display snapshot of the
    annotate tool. *)
Theorem completeCrop_ends_selection (env : Env.t) (s : Editor.t) :
  cropStart (completeCrop env s) = None /\ cropEnd (completeCrop env s) = None
  /\ originalImage (completeCrop env s) = originalImage s
  /\ isDrawing (completeCrop env s) = isDrawing s
  /\ annotateStart (completeCrop env s) = annotateStart s
  /\ lastImageData (completeCrop env s) = lastImageData s.
Proof.
  assert (forall s1,
            originalImage s1 = originalImage s -> isDrawing s1 = isDrawing s ->
            annotateStart s1 = annotateStart s -> lastImageData s1 = lastImageData s ->
            cropStart (resetCropState s1) = None /\ cropEnd (resetCropState s1) = None
            /\ originalImage (resetCropState s1) = originalImage s
            /\ isDrawing (resetCropState s1) = isDrawing s
            /\ annotateStart (resetCropState s1) = annotateStart s
            /\ lastImageData (resetCropState s1) = lastImageData s) as Hreset.
  { intros s1 A B C D.
    destruct (resetCropState_clears s1) as (-> & -> & -> & -> & ->).
    destruct (resetCropState_frame s1) as (_ & _ & _ & _ & -> & _).
    repeat split; assumption. }
  unfold completeCrop.
  destruct (cropStart s) as [cs|]; [|apply Hreset; reflexivity].
  destruct (cropEnd s) as [ce|]; [|apply Hreset; reflexivity].
  destruct (originalImage s) as [img|] eqn:Himg; [|apply Hreset; auto].
  destruct (offscreenCanvas s) as [off|]; [|apply Hreset; auto].
  destruct (negb (isToolActive "crop" s)); [apply Hreset; auto|].
  destruct (_ || _); [apply Hreset; auto|].
  destruct (Selection.tooSmall _ _ _ _); [apply Hreset; auto|].
  pose proof (cropTry_gesture env cs ce img off s) as (A & B & C & D).
  destruct (cropTry env cs ce img off s) as [s1 [error|]]; cbn [fst] in A, B, C, D.
  - apply Hreset.
    + destruct (redrawCanvas_frame (showToast ("Crop failed: " ++ message error) false "error" s1))
        as (_ & _ & _ & _ & _ & _ & _ & _ & ->). cbn. congruence.
    + destruct (redrawCanvas_frame (showToast ("Crop failed: " ++ message error) false "error" s1))
        as (_ & -> & _). cbn. congruence.
    + destruct (redrawCanvas_frame (showToast ("Crop failed: " ++ message error) false "error" s1))
        as (_ & _ & -> & _). cbn. congruence.
    + destruct (displayOnly_redrawCanvas
                  (showToast ("Crop failed: " ++ message error) false "error" s1))
        as (_ & _ & _ & _ & _ & _ & _ & -> & _). cbn. congruence.
  - apply Hreset; congruence.
Qed.

(* ===================================================================== *)
(** ** The toolbar *)
(* ===================================================================== *)

(** With no retry, [tryDownload] makes one attempt and rejects with the
    error of that attempt. *)
Lemma tryDownload_once (answer : option string) :
  snd (Download.tryDownload (fun _ => answer) 0)
  = match answer with
    | None => Download.Resolved
    | Some message => Download.Rejected ("Download failed after 1 attempts: " ++ message)
    end.
Proof. destruct answer; reflexivity. Qed.

(** Whatever the error, the [catch] block of [saveImage] shows one toast
    that does not persist. *)
Lemma saveFailed_toast (message filename : string) (s : Editor.t) :
  exists m k, saveFailed message filename s = showToast m false k s.
Proof.
  unfold saveFailed. destruct (includes message "USER_CANCELED").
  - eexists; eexists; reflexivity.
  - destruct (includes message "INVALID_FILENAME"); eexists; eexists; reflexivity.
Qed.

Lemma sameContent_refl (s : Editor.t) : sameContent s s.
Proof. unfold sameContent. repeat split. Qed.

Lemma sameContent_trans (s s' s'' : Editor.t) :
  sameContent s s' -> sameContent s' s'' -> sameContent s s''.
Proof.
  unfold sameContent.
  intros (A1 & A2 & A3 & A4 & A5 & A6 & A7 & A8) (B1 & B2 & B3 & B4 & B5 & B6 & B7 & B8).
  repeat split; congruence.
Qed.

Lemma sameContent_setToolActive (tool : string) (b : bool) (s : Editor.t) :
  sameContent s (setToolActive tool b s).
Proof. unfold sameContent, setToolActive. destruct b; repeat split. Qed.

Lemma sameContent_showToast (m : string) (p : bool) (k : string) (s : Editor.t) :
  sameContent s (showToast m p k s).
Proof. unfold sameContent. repeat split. Qed.

Lemma sameContent_setCursor (v : string) (s : Editor.t) : sameContent s (setCursor v s).
Proof.
  unfold sameContent, setCursor. destruct (canvas s) eqn:E; cbn; rewrite ?E; repeat split.
Qed.

Lemma sameContent_redrawCanvas (s : Editor.t) : sameContent s (redrawCanvas s).
Proof.
  destruct (redrawCanvas_frame s) as (A & B & C & D & _ & _ & F & G & H).
  pose proof (redrawCanvas_size s) as Hsize.
  unfold sameContent. repeat split; assumption.
Qed.

Lemma toggleTool_content (env : Env.t) (tool : string) (s : Editor.t) :
  sameContent s (toggleTool env tool s).
Proof.
  unfold toggleTool. destruct (negb (Env.toolShown env tool)); [apply sameContent_refl|].
  destruct (isToolActive tool s).
  - assert (sameContent s
              (if negb (existsb (fun t0 => isToolActive t0 (setToolActive tool false s))
                          drawingTools)
               then setCursor "default" (setToolActive tool false s)
               else setToolActive tool false s)) as H.
    { destruct (negb _).
      - eapply sameContent_trans; [apply sameContent_setToolActive | apply sameContent_setCursor].
      - apply sameContent_setToolActive. }
    destruct (String.eqb tool "crop"); [|exact H].
    eapply sameContent_trans; [exact H | apply sameContent_redrawCanvas].
  - assert (forall l st,
              sameContent st
                (fold_left (fun s0 otherTool =>
                   if isToolActive otherTool s0 then setToolActive otherTool false s0 else s0)
                   l st)) as Hfold.
    { induction l as [|u l IH]; intros st; cbn [fold_left]; [apply sameContent_refl|].
      eapply sameContent_trans; [|apply IH].
      destruct (isToolActive u st); [apply sameContent_setToolActive | apply sameContent_refl]. }
    eapply sameContent_trans; [apply Hfold|].
    eapply sameContent_trans; [apply sameContent_setToolActive|].
    destruct (_ || _); [|apply sameContent_refl].
    eapply sameContent_trans; [apply sameContent_setCursor | apply sameContent_showToast].
Qed.

Lemma emptyImage_sameContent (s s' : Editor.t) :
  sameContent s s' -> emptyImage s' = emptyImage s.
Proof.
  intros (_ & _ & _ & H & _). unfold emptyImage.
  destruct (canvas s), (canvas s'); cbn in H; try discriminate; [|reflexivity].
  injection H as -> ->. reflexivity.
Qed.

Lemma prepareFinalCanvas_sameContent (s s' : Editor.t) :
  sameContent s s' -> prepareFinalCanvas s' = prepareFinalCanvas s.
Proof. intros (A & B & _). unfold prepareFinalCanvas. rewrite A, B. reflexivity. Qed.

(** The loop that precedes an action switches both drawing tools off. *)
Lemma deselect_drawing_tools (env : Env.t) (s : Editor.t) :
  Env.toolShown env "crop" = true -> Env.toolShown env "annotate" = true ->
  let s' := fold_left (fun s toolName =>
              if isToolActive toolName s then toggleTool env toolName s else s)
            ["crop"; "annotate"] s in
  sameContent s s' /\ isToolActive "crop" s' = false /\ isToolActive "annotate" s' = false
  /\ (forall t, existsb (String.eqb t) drawingTools = false ->
                isToolActive t s' = isToolActive t s).
Proof.
  intros Hcrop Hann. cbn [fold_left].
  set (s1 := if isToolActive "crop" s then toggleTool env "crop" s else s).
  assert (sameContent s s1) as H1
    by (subst s1; destruct (isToolActive "crop" s);
        [apply toggleTool_content | apply sameContent_refl]).
  assert (forall t, isToolActive t s1
                    = if String.eqb t "crop" then false else isToolActive t s) as T1.
  { intros t. subst s1. destruct (isToolActive "crop" s) eqn:E.
    - rewrite (toggleTool_active env "crop" t s Hcrop), E.
      destruct (String.eqb t "crop"); reflexivity.
    - destruct (String.eqb_spec t "crop") as [->|_]; [exact E | reflexivity]. }
  set (s2 := if isToolActive "annotate" s1 then toggleTool env "annotate" s1 else s1).
  assert (sameContent s1 s2) as H2
    by (subst s2; destruct (isToolActive "annotate" s1);
        [apply toggleTool_content | apply sameContent_refl]).
  assert (forall t, isToolActive t s2
                    = if String.eqb t "annotate" then false else isToolActive t s1) as T2.
  { intros t. subst s2. destruct (isToolActive "annotate" s1) eqn:E.
    - rewrite (toggleTool_active env "annotate" t s1 Hann), E.
      destruct (String.eqb t "annotate"); reflexivity.
    - destruct (String.eqb_spec t "annotate") as [->|_]; [exact E | reflexivity]. }
  split; [eapply sameContent_trans; eassumption|].
  split; [rewrite T2, T1; reflexivity|]. split; [rewrite T2; reflexivity|].
  intros t Ht. cbn [existsb drawingTools] in Ht.
  apply orb_false_iff in Ht. destruct Ht as [Ht1 Ht2].
  apply orb_false_iff in Ht2. destruct Ht2 as [Ht2 _].
  rewrite T2, T1, Ht1, Ht2. reflexivity.
Qed.

(** X10. Copy and Save from the toolbar first switch the drawing tools off,
    so the refusal "Finalize cropping before ..." is never met from the
    toolbar, even in the middle of a crop drag: unless the display canvas
    is empty the export goes ahead, and what it renders is the export of
    the Document as it was before the click.  Afterwards no drawing tool
    is active; the pictures and the gesture state are untouched. *)
Theorem toolbar_export (env : Env.t) (action : ToolAction) (s : Editor.t) :
  Env.toolShown env "crop" = true -> Env.toolShown env "annotate" = true ->
  action = CopyAction \/ action = SaveAction ->
  snd (listener env action s) = exportOf env action s
  /\ sameContent s (fst (listener env action s))
  /\ activeDrawingTools (fst (listener env action s)) = [].
Proof.
  intros Hcrop Hann Haction.
  pose proof (deselect_drawing_tools env s Hcrop Hann) as H. cbv zeta in H.
  set (s1 := fold_left _ _ s) in H.
  destruct H as (Hsame & Hc & Ha & _).
  pose proof (emptyImage_sameContent s s1 Hsame) as Hempty.
  pose proof (prepareFinalCanvas_sameContent s s1 Hsame) as Hfinal.
  assert (forall m p k, prepareFinalCanvas (showToast m p k s1) = prepareFinalCanvas s) as Hfinal'.
  { intros. rewrite <- Hfinal. reflexivity. }
  assert (forall st, sameContent s1 st -> activeTools st = activeTools s1 ->
                     sameContent s st /\ activeDrawingTools st = []) as Hend.
  { intros st Hst Htools. split; [eapply sameContent_trans; eassumption|].
    unfold activeDrawingTools, drawingTools, isToolActive in *. cbn [List.filter].
    rewrite Htools, Hc, Ha. reflexivity. }
  assert (forall m p k, sameContent s1 (showToast m p k s1)
                        /\ activeTools (showToast m p k s1) = activeTools s1) as Htoast
    by (intros; split; [apply sameContent_showToast | reflexivity]).
  assert (forall m p k m' p' k',
            sameContent s1 (showToast m' p' k' (showToast m p k s1))
            /\ activeTools (showToast m' p' k' (showToast m p k s1)) = activeTools s1)
    as Htoast2.
  { intros. split; [|reflexivity].
    eapply sameContent_trans; apply sameContent_showToast. }
  destruct Haction as [-> | ->]; unfold listener; fold s1; unfold exportOf.
  - unfold copyToClipboard. rewrite Hempty, Hc, andb_false_r.
    destruct (emptyImage s); cbn [fst snd].
    + split; [reflexivity|]. apply Hend; apply Htoast.
    + destruct (Env.clipboard env); cbn [negb fst snd].
      * destruct (Env.clipboardWrite env); cbn [fst snd];
          (split; [rewrite Hfinal'; reflexivity|]); apply Hend; apply Htoast2.
      * split; [reflexivity|]. apply Hend; apply Htoast2.
  - unfold saveImage. rewrite Hempty, Hc, andb_false_r.
    destruct (emptyImage s); cbn [fst snd].
    + split; [reflexivity|]. apply Hend; apply Htoast.
    + destruct (snd (Download.tryDownload _ 0)) as [|message];
        [|match goal with
          | |- context [saveFailed ?a ?b ?c] =>
              destruct (saveFailed_toast a b c) as (m & k & ->)
          end];
        cbn [fst snd];
        (split; [rewrite Hfinal'; reflexivity|]); apply Hend; apply Htoast2.
Qed.

Lemma toolbar_export_witness :
  isDrawing Drag.dragging = true /\ isToolActive "crop" Drag.dragging = true
  /\ snd (copyToClipboard Scenario.env Drag.dragging) = Refused
  /\ snd (listener Scenario.env CopyAction Drag.dragging)
     = Some (Rendered (prepareFinalCanvas Drag.dragging)).
Proof.
  split; [reflexivity|]. split; [reflexivity|]. split; [reflexivity|].
  destruct (toolbar_export Scenario.env CopyAction Drag.dragging eq_refl eq_refl
              (or_introl eq_refl)) as (H & _).
  exact H.
Defined.

(** X11. Toggling a tool changes the mode and nothing else: the working
    bitmap, the element list, the original image, the size of the display
    canvas and a gesture in progress are what they were, whether the tool
    is switched on, switched off, or its button is not shown. *)
Theorem toggleTool_changes_mode_only (env : Env.t) (tool : string) (s : Editor.t) :
  sameContent s (toggleTool env tool s)
  /\ (forall t, t <> tool -> ~ In t drawingTools ->
                isToolActive t (toggleTool env tool s) = isToolActive t s).
Proof.
  split; [apply toggleTool_content|].
  intros t Hne Hnot. destruct (Env.toolShown env tool) eqn:Hshown.
  - rewrite (toggleTool_active env tool t s Hshown).
    destruct (String.eqb_spec t tool) as [?|_]; [contradiction|].
    destruct (isToolActive tool s); [reflexivity|].
    destruct (existsb (String.eqb t) drawingTools) eqn:E; [|reflexivity].
    exfalso. apply Hnot. apply existsb_exists in E. destruct E as (u & Hin & Heq).
    apply String.eqb_eq in Heq. subst u. exact Hin.
  - unfold toggleTool. rewrite Hshown. reflexivity.
Qed.

Lemma toggleTool_changes_mode_only_witness :
  isToolActive "share" (toggleTool Scenario.env "annotate" (Scenario.idle "crop"))
  = isToolActive "share" (Scenario.idle "crop").
Proof.
  apply (toggleTool_changes_mode_only Scenario.env "annotate" (Scenario.idle "crop")).
  - discriminate.
  - intros [H|[H|[]]]; discriminate H.
Defined.

(* ===================================================================== *)
(** ** Downloads *)
(* ===================================================================== *)

Section DownloadFacts.
Variable answer : Z -> option string.
Variable retries : Z.

(** The loop as the source has it: the guard, then the body, then the
    next iteration.  The bound on the iterations never cuts it short. *)
Lemma loop_unfold (attempt : Z) :
  (0 <= attempt)%Z ->
  Download.loop answer retries (Z.to_nat (retries + 1 - attempt)) attempt
  = if (attempt <=? retries)%Z then
      match answer attempt with
      | None => ([Download.Attempt attempt], Download.Resolved)
      | Some message =>
          if (attempt =? retries)%Z then
            ([Download.Attempt attempt],
             Download.Rejected ("Download failed after "
                                ++ NilEmpty.string_of_int (Z.to_int (retries + 1))
                                ++ " attempts: " ++ message))
          else
            let '(log, result) :=
              Download.loop answer retries (Z.to_nat (retries + 1 - (attempt + 1)))
                (attempt + 1) in
            (Download.Attempt attempt
               :: (if (retries >? 0)%Z then [Download.Sleep (300 + attempt * 200)] else [])
               ++ log,
             result)
      end
    else ([], Download.Resolved).
Proof.
  intros Hattempt. destruct (Z.leb_spec attempt retries) as [Hle|Hgt].
  - replace (Z.to_nat (retries + 1 - attempt))
      with (S (Z.to_nat (retries + 1 - (attempt + 1)))) by lia.
    cbn [Download.loop]. apply Z.leb_le in Hle. rewrite Hle. reflexivity.
  - replace (Z.to_nat (retries + 1 - attempt)) with O by lia. reflexivity.
Qed.

(** The loop from iteration [Z.of_nat i] on, when the first answer that
    is not a rejection comes at iteration [Z.of_nat k]. *)
Lemma loop_first_success (k : nat) (i : nat) :
  (i <= k)%nat -> (Z.of_nat k <= retries)%Z -> (0 < retries)%Z ->
  answer (Z.of_nat k) = None ->
  (forall j, (i <= j < k)%nat -> answer (Z.of_nat j) <> None) ->
  Download.loop answer retries (Z.to_nat (retries + 1 - Z.of_nat i)) (Z.of_nat i)
  = (flat_map (fun i => [Download.Attempt (Z.of_nat i);
                         Download.Sleep (300 + Z.of_nat i * 200)]) (seq i (k - i))
     ++ [Download.Attempt (Z.of_nat k)], Download.Resolved).
Proof.
  intros Hik Hk Hpos Hok Hfail.
  remember (k - i)%nat as d eqn:Hd. revert i Hik Hd Hfail.
  induction d as [|d IH]; intros i Hik Hd Hfail.
  - assert (i = k) as -> by lia. rewrite loop_unfold by lia.
    apply Z.leb_le in Hk. rewrite Hk, Hok. reflexivity.
  - rewrite loop_unfold by lia.
    assert ((Z.of_nat i <=? retries)%Z = true) as -> by (apply Z.leb_le; lia).
    destruct (answer (Z.of_nat i)) as [message|] eqn:E;
      [|exfalso; apply (Hfail i); [lia | exact E]].
    assert ((Z.of_nat i =? retries)%Z = false) as -> by (apply Z.eqb_neq; lia).
    assert ((retries >? 0)%Z = true) as -> by (apply Z.gtb_lt; lia).
    replace (Z.of_nat i + 1)%Z with (Z.of_nat (S i)) by lia.
    rewrite (IH (S i)); [reflexivity | lia | lia |].
    intros j Hj. apply Hfail. lia.
Qed.

Lemma loop_all_fail (i : nat) :
  (Z.of_nat i <= retries)%Z -> (0 < retries)%Z ->
  (forall j, (Z.of_nat i <= j <= retries)%Z -> answer j <> None) ->
  exists message,
    answer retries = Some message
    /\ Download.loop answer retries (Z.to_nat (retries + 1 - Z.of_nat i)) (Z.of_nat i)
       = (flat_map (fun i => [Download.Attempt (Z.of_nat i);
                              Download.Sleep (300 + Z.of_nat i * 200)])
            (seq i (Z.to_nat retries - i))
          ++ [Download.Attempt retries],
          Download.Rejected ("Download failed after "
                             ++ NilEmpty.string_of_int (Z.to_int (retries + 1))
                             ++ " attempts: " ++ message)).
Proof.
  intros Hi Hpos Hfail.
  remember (Z.to_nat retries - i)%nat as d eqn:Hd. revert i Hi Hd Hfail.
  induction d as [|d IH]; intros i Hi Hd Hfail.
  - assert (Z.of_nat i = retries) as Hir by lia.
    destruct (answer retries) as [message|] eqn:E;
      [|exfalso; apply (Hfail retries); [lia | exact E]].
    exists message. split; [reflexivity|].
    rewrite loop_unfold by lia. rewrite Hir, Z.leb_refl, E, Z.eqb_refl. reflexivity.
  - destruct (IH (S i)) as (message & Hmsg & Hloop); [lia | lia | |].
    { intros j Hj. apply Hfail. lia. }
    exists message. split; [exact Hmsg|].
    rewrite loop_unfold by lia.
    assert ((Z.of_nat i <=? retries)%Z = true) as -> by (apply Z.leb_le; lia).
    destruct (answer (Z.of_nat i)) as [m|] eqn:E;
      [|exfalso; apply (Hfail (Z.of_nat i)); [lia | exact E]].
    assert ((Z.of_nat i =? retries)%Z = false) as -> by (apply Z.eqb_neq; lia).
    assert ((retries >? 0)%Z = true) as -> by (apply Z.gtb_lt; lia).
    replace (Z.of_nat i + 1)%Z with (Z.of_nat (S i)) by lia.
    rewrite Hloop. reflexivity.
Qed.

End DownloadFacts.

Lemma slept_schedule (k : nat) :
  slept (schedule k) = (300 * Z.of_nat k + 100 * Z.of_nat k * (Z.of_nat k - 1))%Z.
Proof.
  unfold schedule.
  assert (forall l tail, slept (l ++ tail) = (slept l + slept tail)%Z) as Happ.
  { induction l as [|[i|ms] l IH]; intros tail; cbn [app slept fold_right] in *;
      [reflexivity | apply IH | rewrite IH; unfold slept; lia]. }
  rewrite Happ. cbn [slept fold_right]. rewrite Z.add_0_r.
  induction k as [|k IH]; [reflexivity|].
  rewrite seq_S, flat_map_app, Happ, IH. cbn [flat_map app slept fold_right Nat.add]. nia.
Qed.

Lemma attempts_schedule (k : nat) :
  attempts (schedule k) = map Z.of_nat (seq 0 (S k)).
Proof.
  unfold schedule, attempts. rewrite flat_map_app. cbn [flat_map app].
  rewrite seq_S, map_app. cbn [map Nat.add]. f_equal.
  generalize 0%nat. induction k as [|k IH]; intros n; cbn [seq flat_map map app];
    [reflexivity | rewrite IH; reflexivity].
Qed.

(** X12. [tryDownload] with a positive number of retries: it calls the
    download until the first call that resolves, pausing
    [300 + 200 * attempt] milliseconds after each failed attempt, and
    resolves; when every one of the [retries + 1] attempts fails it
    rejects with "Download failed after <retries + 1> attempts: " followed
    by the message of the last failure, having paused [retries] times,
    [300 * retries + 100 * retries * (retries - 1)] milliseconds in all,
    and without a pause after the last attempt. *)
Theorem tryDownload_retries (answer : Z -> option string) (retries : Z) :
  (0 < retries)%Z ->
  (forall k : nat,
     (Z.of_nat k <= retries)%Z -> answer (Z.of_nat k) = None ->
     (forall j, (j < k)%nat -> answer (Z.of_nat j) <> None) ->
     Download.tryDownload answer retries = (schedule k, Download.Resolved))
  /\ ((forall j, (0 <= j <= retries)%Z -> answer j <> None) ->
      exists message,
        answer retries = Some message
        /\ Download.tryDownload answer retries
           = (schedule (Z.to_nat retries),
              Download.Rejected ("Download failed after "
                                 ++ NilEmpty.string_of_int (Z.to_int (retries + 1))
                                 ++ " attempts: " ++ message))
        /\ attempts (schedule (Z.to_nat retries)) = map Z.of_nat (seq 0 (Z.to_nat retries + 1))
        /\ slept (schedule (Z.to_nat retries))
           = (300 * retries + 100 * retries * (retries - 1))%Z).
Proof.
  intros Hpos. split.
  - intros k Hk Hok Hfail. unfold Download.tryDownload, schedule.
    pose proof (loop_first_success answer retries k 0 (Nat.le_0_l k) Hk Hpos Hok) as H.
    change (Z.of_nat 0) with 0%Z in H. rewrite Z.sub_0_r, Nat.sub_0_r in H. apply H.
    intros j Hj. apply Hfail. lia.
  - intros Hfail.
    destruct (loop_all_fail answer retries 0) as (message & Hmsg & Hloop);
      [cbn; lia | exact Hpos | intros j Hj; apply Hfail; cbn in Hj; lia |].
    exists message. split; [exact Hmsg|]. split; [|split].
    + unfold Download.tryDownload, schedule.
      change (Z.of_nat 0) with 0%Z in Hloop. rewrite Z.sub_0_r, Nat.sub_0_r in Hloop.
      rewrite Hloop. rewrite Z2Nat.id by lia. reflexivity.
    + rewrite attempts_schedule. replace (Z.to_nat retries + 1)%nat with (S (Z.to_nat retries))
        by lia. reflexivity.
    + rewrite slept_schedule. rewrite Z2Nat.id by lia. reflexivity.
Qed.

Lemma tryDownload_retries_witness :
  Download.tryDownload (fun i => if (i <? 2)%Z then Some "NETWORK_FAILED" else None) 3
  = ([Download.Attempt 0; Download.Sleep 300; Download.Attempt 1; Download.Sleep 500;
      Download.Attempt 2], Download.Resolved).
Proof.
  destruct (tryDownload_retries
              (fun i => if (i <? 2)%Z then Some "NETWORK_FAILED" else None) 3 eq_refl)
    as [H _].
  apply (H 2%nat); [cbn; lia | reflexivity |].
  intros j Hj. destruct j as [|[|j]]; [discriminate | discriminate | lia].
Defined.

(** X13. [tryDownload] without retries, as [saveImage] calls it, makes one
    attempt and never pauses: it resolves when the attempt does, and
    otherwise rejects with "Download failed after 1 attempts: " followed
    by the message of the failure.  With a negative number of retries it
    makes no attempt at all and resolves. *)
Theorem tryDownload_single (answer : Z -> option string) :
  Download.tryDownload answer 0
  = ([Download.Attempt 0],
     match answer 0%Z with
     | None => Download.Resolved
     | Some message => Download.Rejected ("Download failed after 1 attempts: " ++ message)
     end)
  /\ forall retries, (retries < 0)%Z ->
       Download.tryDownload answer retries = ([], Download.Resolved).
Proof.
  split.
  - unfold Download.tryDownload. change (Z.to_nat (0 + 1)) with 1%nat.
    cbn [Download.loop]. destruct (answer 0%Z); reflexivity.
  - intros retries Hneg. unfold Download.tryDownload.
    destruct (Z.to_nat (retries + 1)) as [|n] eqn:E; [reflexivity|].
    cbn [Download.loop]. assert ((0 <=? retries)%Z = false) as -> by (apply Z.leb_gt; lia).
    reflexivity.
Qed.

Lemma tryDownload_single_witness :
  Download.tryDownload (fun _ => Some "USER_CANCELED") (-1) = ([], Download.Resolved).
Proof.
  apply (tryDownload_single (fun _ => Some "USER_CANCELED")). reflexivity.
Defined.

(* ===================================================================== *)
(** ** File names *)
(* ===================================================================== *)

Lemma dropSlashes_head (s : list N) :
  hd_error (Filename.dropSlashes s) <> Some Filename.slash.
Proof.
  induction s as [|c s IH]; cbn; [discriminate|].
  destruct (N.eqb_spec c Filename.slash) as [_|Hne]; [exact IH|].
  cbn. congruence.
Qed.

Lemma dropSlashes_suffix (s : list N) :
  exists n, s = repeat Filename.slash n ++ Filename.dropSlashes s.
Proof.
  induction s as [|c s (n & IH)]; [exists 0%nat; reflexivity|].
  cbn [Filename.dropSlashes]. destruct (N.eqb_spec c Filename.slash) as [->|Hne].
  - exists (S n). cbn. rewrite <- IH. reflexivity.
  - exists 0%nat. reflexivity.
Qed.

Lemma dropSlashes_nil (s : list N) :
  Filename.dropSlashes s = [] <-> onlySlashes s = true.
Proof.
  induction s as [|c s IH]; cbn; [tauto|].
  destruct (N.eqb_spec c Filename.slash) as [_|Hne]; cbn; [exact IH|].
  split; discriminate.
Qed.

Lemma dropSlashes_last (s : list N) (c : N) :
  c <> Filename.slash -> Filename.dropSlashes (s ++ [c]) = Filename.dropSlashes s ++ [c].
Proof.
  intros Hne. induction s as [|d s IH]; cbn.
  - destruct (N.eqb_spec c Filename.slash); [contradiction | reflexivity].
  - destruct (N.eqb_spec d Filename.slash); [exact IH | reflexivity].
Qed.

Lemma dropSlashes_fixed (s : list N) :
  hd_error s <> Some Filename.slash -> Filename.dropSlashes s = s.
Proof.
  destruct s as [|c s]; cbn; [reflexivity|].
  destruct (N.eqb_spec c Filename.slash) as [->|_]; [congruence | reflexivity].
Qed.

Lemma hd_error_rev_last (s : list N) : hd_error (rev s) = List.last (map Some s) None.
Proof.
  induction s as [|c s IH] using rev_ind; [reflexivity|].
  rewrite rev_app_distr, map_app. cbn [rev app hd_error map].
  rewrite List.last_last. reflexivity.
Qed.

(** The ends of a trimmed string are not slashes. *)
Lemma trimSlashes_ends (s : list N) :
  hd_error (Filename.trimSlashes s) <> Some Filename.slash
  /\ hd_error (rev (Filename.trimSlashes s)) <> Some Filename.slash.
Proof.
  unfold Filename.trimSlashes. rewrite rev_involutive. split; [|apply dropSlashes_head].
  pose proof (dropSlashes_head s) as Hhead.
  induction (Filename.dropSlashes s) as [|c t IH] using rev_ind; [cbn; discriminate|].
  destruct (N.eqb_spec c Filename.slash) as [->|Hne].
  - rewrite rev_app_distr. cbn [rev app Filename.dropSlashes].
    rewrite N.eqb_refl. apply IH.
    destruct t; [cbn; discriminate | exact Hhead].
  - rewrite dropSlashes_fixed; [rewrite rev_involutive; exact Hhead|].
    rewrite rev_app_distr. cbn. congruence.
Qed.

Lemma trimSlashes_nil (s : list N) :
  Filename.trimSlashes s = [] <-> onlySlashes s = true.
Proof.
  unfold Filename.trimSlashes. rewrite <- dropSlashes_nil. split.
  - intros H. apply (f_equal (@rev N)) in H. rewrite rev_involutive in H. cbn in H.
    apply dropSlashes_nil in H.
    pose proof (dropSlashes_head s) as Hhead.
    destruct (Filename.dropSlashes s) as [|c t]; [reflexivity|].
    exfalso. apply Hhead. cbn. f_equal.
    unfold onlySlashes in H. rewrite forallb_forall in H.
    apply N.eqb_eq. apply H. apply -> in_rev. left. reflexivity.
  - intros ->. reflexivity.
Qed.

Lemma replaceForbidden_slash (c : N) :
  (if Filename.allowed c then c else Filename.underscore) = Filename.slash
  <-> c = Filename.slash.
Proof.
  split.
  - destruct (Filename.allowed c); [trivial | discriminate].
  - intros ->. reflexivity.
Qed.

Lemma replaceForbidden_head (s : list N) :
  hd_error s <> Some Filename.slash ->
  hd_error (Filename.replaceForbidden s) <> Some Filename.slash.
Proof.
  destruct s as [|c s]; cbn; [discriminate|].
  intros H E. apply H. injection E as E.
  f_equal. exact (proj1 (replaceForbidden_slash c) E).
Qed.

Lemma replaceForbidden_allowed (s : list N) :
  forallb Filename.allowed (Filename.replaceForbidden s) = true.
Proof.
  unfold Filename.replaceForbidden.
  induction s as [|c s IH]; [reflexivity|]. cbn [map forallb]. rewrite IH, andb_true_r.
  destruct (Filename.allowed c) eqn:E; [exact E | reflexivity].
Qed.

Lemma replaceForbidden_fixed (s : list N) :
  forallb Filename.allowed s = true -> Filename.replaceForbidden s = s.
Proof.
  unfold Filename.replaceForbidden.
  induction s as [|c s IH]; [reflexivity|]. cbn [map forallb]. intros H.
  apply andb_true_iff in H. destruct H as [Hc Hs]. rewrite Hc, (IH Hs). reflexivity.
Qed.

Lemma trimSlashes_fixed (s : list N) :
  hd_error s <> Some Filename.slash -> hd_error (rev s) <> Some Filename.slash ->
  Filename.trimSlashes s = s.
Proof.
  intros Hhd Hlast. unfold Filename.trimSlashes.
  rewrite (dropSlashes_fixed s Hhd), (dropSlashes_fixed (rev s) Hlast).
  apply rev_involutive.
Qed.

Lemma sanitized_ends (saveLocation : list N) :
  hd_error (Filename.sanitizedSaveLocation saveLocation) <> Some Filename.slash
  /\ hd_error (rev (Filename.sanitizedSaveLocation saveLocation)) <> Some Filename.slash.
Proof.
  destruct (trimSlashes_ends saveLocation) as [Hhd Hlast].
  unfold Filename.sanitizedSaveLocation. split.
  - apply replaceForbidden_head. exact Hhd.
  - unfold Filename.replaceForbidden. rewrite <- map_rev.
    apply replaceForbidden_head. exact Hlast.
Qed.

Lemma sanitized_nil (saveLocation : list N) :
  Filename.sanitizedSaveLocation saveLocation = [] <-> onlySlashes saveLocation = true.
Proof.
  rewrite <- trimSlashes_nil. unfold Filename.sanitizedSaveLocation, Filename.replaceForbidden.
  destruct (Filename.trimSlashes saveLocation); cbn; split; congruence.
Qed.

(** X14. The folder part of the download path, whatever the stored setting
    holds: every unit of it is a letter, a digit, [_], [-] or [/]; it
    neither starts nor ends with a slash and holds no dot, so it names no
    absolute path and no [.] or [..] segment; sanitising it again changes
    nothing; and it is empty exactly when the setting consists of slashes
    only. *)
Theorem sanitizedSaveLocation_safe (saveLocation : list N) :
  let folder := Filename.sanitizedSaveLocation saveLocation in
  forallb Filename.allowed folder = true
  /\ hd_error folder <> Some Filename.slash
  /\ hd_error (rev folder) <> Some Filename.slash
  /\ ~ In Filename.dot folder
  /\ Filename.sanitizedSaveLocation folder = folder
  /\ (folder = [] <-> onlySlashes saveLocation = true)
  /\ (length folder <= length saveLocation)%nat.
Proof.
  intros folder.
  pose proof (replaceForbidden_allowed (Filename.trimSlashes saveLocation)) as Hall.
  destruct (sanitized_ends saveLocation) as [Hhd Hlast].
  fold (Filename.sanitizedSaveLocation saveLocation) in Hall. fold folder in Hall, Hhd, Hlast.
  split; [exact Hall|]. split; [exact Hhd|]. split; [exact Hlast|].
  split; [|split; [|split]].
  - intros Hin. rewrite forallb_forall in Hall. specialize (Hall _ Hin). discriminate.
  - unfold Filename.sanitizedSaveLocation at 1.
    rewrite (trimSlashes_fixed folder Hhd Hlast). apply replaceForbidden_fixed. exact Hall.
  - apply sanitized_nil.
  - subst folder. unfold Filename.sanitizedSaveLocation, Filename.replaceForbidden,
      Filename.trimSlashes.
    rewrite length_map, length_rev.
    assert (forall l, (length (Filename.dropSlashes l) <= length l)%nat) as Hdrop.
    { induction l as [|c l IH]; cbn; [lia|].
      destruct (N.eqb c Filename.slash); cbn; lia. }
    pose proof (Hdrop (rev (Filename.dropSlashes saveLocation))) as A.
    pose proof (Hdrop saveLocation) as B. rewrite length_rev in A. lia.
Qed.

(** ** The time stamp *)

Lemma digit_plain (c : N) :
  digit c = true ->
  c <> Filename.colon /\ c <> Filename.dot /\ c <> Filename.letterT
  /\ c <> Filename.letterZ /\ Filename.allowed c = true.
Proof.
  intros H.
  assert (48 <= c /\ c <= 57)%N as [Hlo Hhi].
  { unfold digit in H. apply andb_true_iff in H. destruct H as [A B].
    apply N.leb_le in A, B. split; assumption. }
  unfold Filename.colon, Filename.dot, Filename.letterT, Filename.letterZ.
  repeat split; try lia.
  unfold Filename.allowed.
  apply N.leb_le in Hlo, Hhi. rewrite Hlo, Hhi. cbn [andb orb].
  rewrite orb_true_r. reflexivity.
Qed.

Lemma replacePunctuation_digits (field : list N) :
  forallb digit field = true -> Filename.replacePunctuation field = field.
Proof.
  unfold Filename.replacePunctuation.
  induction field as [|c field IH]; [reflexivity|]. cbn [map forallb]. intros H.
  apply andb_true_iff in H. destruct H as [Hc Hfield].
  destruct (digit_plain c Hc) as (A & B & _).
  apply N.eqb_neq in A, B. rewrite A, B, (IH Hfield). reflexivity.
Qed.

Lemma replaceFirst_skip (pattern : N) (replacement field rest : list N) :
  (forall c, In c field -> c <> pattern) ->
  Filename.replaceFirst pattern replacement (field ++ rest)
  = field ++ Filename.replaceFirst pattern replacement rest.
Proof.
  induction field as [|c field IH]; intros H; [reflexivity|].
  cbn [app Filename.replaceFirst].
  assert ((c =? pattern)%N = false) as -> by (apply N.eqb_neq, H; left; reflexivity).
  rewrite IH; [reflexivity|]. intros d Hd. apply H. right. exact Hd.
Qed.

Lemma digits_skip (field : list N) :
  forallb digit field = true ->
  (forall c, In c field -> c <> Filename.letterT)
  /\ (forall c, In c field -> c <> Filename.letterZ).
Proof.
  intros H. rewrite forallb_forall in H.
  split; intros c Hc; destruct (digit_plain c (H c Hc)) as (_ & _ & A & B & _); assumption.
Qed.

Lemma replacePunctuation_app (s s' : list N) :
  Filename.replacePunctuation (s ++ s')
  = Filename.replacePunctuation s ++ Filename.replacePunctuation s'.
Proof. apply map_app. Qed.

Lemma timestamp_fields (year month day hour minute second millis : list N) :
  allDigits [year; month; day; hour; minute; second; millis] ->
  Filename.timestamp (isoString year month day hour minute second millis)
  = year ++ [Filename.hyphen] ++ month ++ [Filename.hyphen] ++ day
    ++ [Filename.underscore]
    ++ hour ++ [Filename.hyphen] ++ minute ++ [Filename.hyphen] ++ second
    ++ [Filename.hyphen] ++ millis.
Proof.
  intros H. unfold allDigits in H.
  repeat match goal with
         | H : Forall _ (_ :: _) |- _ => inversion_clear H
         end.
  unfold Filename.timestamp, isoString.
  rewrite !replacePunctuation_app.
  change (Filename.replacePunctuation [Filename.hyphen]) with [Filename.hyphen].
  change (Filename.replacePunctuation [Filename.colon]) with [Filename.hyphen].
  change (Filename.replacePunctuation [Filename.dot]) with [Filename.hyphen].
  change (Filename.replacePunctuation [Filename.letterT]) with [Filename.letterT].
  change (Filename.replacePunctuation [Filename.letterZ]) with [Filename.letterZ].
  rewrite !replacePunctuation_digits by assumption.
  repeat match goal with
         | H : forallb digit ?f = true |- _ =>
             let A := fresh in let B := fresh in
             destruct (digits_skip f H) as [A B]; clear H
         end.
  repeat (rewrite replaceFirst_skip by assumption;
          cbn [app Filename.replaceFirst N.eqb Pos.eqb Filename.hyphen Filename.letterT
               Filename.letterZ Filename.underscore]).
  rewrite app_nil_r. reflexivity.
Qed.

(** X15. The name handed to the download, for a time stamp of the form
    [YYYY-MM-DDTHH:mm:ss.sssZ]: the sanitised folder, then
    [/SnipScreen-YYYY-MM-DD_HH-mm-ss-sss.png].  Apart from the dot of the
    extension every unit of it is a letter, a digit, [_], [-] or [/], and
    it starts with a slash - an absolute path - exactly when the stored
    folder consists of slashes only. *)
Theorem filename_form (saveLocation year month day hour minute second millis : list N) :
  allDigits [year; month; day; hour; minute; second; millis] ->
  let name :=
    Filename.filename saveLocation (isoString year month day hour minute second millis) in
  name = Filename.sanitizedSaveLocation saveLocation
         ++ Filename.units "/SnipScreen-"
         ++ (year ++ [Filename.hyphen] ++ month ++ [Filename.hyphen] ++ day
             ++ [Filename.underscore]
             ++ hour ++ [Filename.hyphen] ++ minute ++ [Filename.hyphen] ++ second
             ++ [Filename.hyphen] ++ millis)
         ++ Filename.units ".png"
  /\ List.filter (fun c => negb (Filename.allowed c)) name = [Filename.dot]
  /\ (hd_error name = Some Filename.slash <-> onlySlashes saveLocation = true).
Proof.
  intros Hdigits name. subst name. unfold Filename.filename.
  rewrite (timestamp_fields year month day hour minute second millis Hdigits).
  split; [reflexivity|]. split.
  - assert (forall l, forallb Filename.allowed l = true ->
                      List.filter (fun c => negb (Filename.allowed c)) l = []) as Hnone.
    { induction l as [|c l IH]; [reflexivity|]. cbn [forallb List.filter]. intros H.
      apply andb_true_iff in H. destruct H as [-> Hl]. cbn [negb]. exact (IH Hl). }
    assert (forall l, forallb digit l = true -> forallb Filename.allowed l = true) as Hd.
    { intros l H. rewrite forallb_forall in *. intros c Hc.
      apply (digit_plain c (H c Hc)). }
    unfold allDigits in Hdigits.
    repeat match goal with
           | H : Forall _ (_ :: _) |- _ => inversion_clear H
           end.
    rewrite !List.filter_app. unfold Filename.sanitizedSaveLocation.
    rewrite (Hnone _ (replaceForbidden_allowed (Filename.trimSlashes saveLocation))).
    rewrite !(Hnone year), !(Hnone month), !(Hnone day), !(Hnone hour), !(Hnone minute),
      !(Hnone second), !(Hnone millis) by (apply Hd; assumption).
    reflexivity.
  - rewrite <- sanitized_nil.
    destruct (sanitized_ends saveLocation) as [Hhd _].
    destruct (Filename.sanitizedSaveLocation saveLocation) as [|c folder].
    + split; reflexivity.
    + cbn [app hd_error] in *. split; [contradiction | discriminate].
Qed.

Lemma filename_form_witness :
  Filename.filename (Filename.units "/My Shots/../etc/")
    (Filename.units "2026-11-02T14:10:00.123Z")
  = Filename.units "My_Shots/__/etc/SnipScreen-2026-11-02_14-10-00-123.png".
Proof.
  assert (allDigits [Filename.units "2026"; Filename.units "11"; Filename.units "02";
                     Filename.units "14"; Filename.units "10"; Filename.units "00";
                     Filename.units "123"]) as Hdigits
    by (repeat constructor).
  destruct (filename_form (Filename.units "/My Shots/../etc/")
              (Filename.units "2026") (Filename.units "11") (Filename.units "02")
              (Filename.units "14") (Filename.units "10") (Filename.units "00")
              (Filename.units "123") Hdigits) as [H _].
  exact H.
Defined.

Lemma sanitizedSaveLocation_safe_witness :
  Filename.sanitizedSaveLocation (Filename.units "//a b/..//") = Filename.units "a_b/__"
  /\ Filename.sanitizedSaveLocation (Filename.units "a_b/__") = Filename.units "a_b/__".
Proof.
  split; [reflexivity|].
  exact (proj1 (proj2 (proj2 (proj2 (proj2
           (sanitizedSaveLocation_safe (Filename.units "//a b/..//"))))))).
Defined.

(* ===================================================================== *)
(** ** The debounce *)
(* ===================================================================== *)

Section DebounceFacts.
Context {C A : Type}.
Variable func : A -> C -> C.

Lemma debounce_run_executed (evs : list (Throttle.event A)) (timeout : option A) (ctx : C) :
  snd (Debounce.run func evs timeout ctx)
  = fold_left (fun c a => func a c) (Debounce.executed evs timeout) ctx.
Proof.
  revert timeout ctx. induction evs as [|[a|] evs IH]; intros timeout ctx.
  - reflexivity.
  - cbn. apply IH.
  - cbn. destruct timeout as [a|]; cbn; apply IH.
Qed.

Lemma last_cons_default {T : Type} (l : list T) (x d : T) :
  List.last (x :: l) d = List.last l x.
Proof.
  revert x d. induction l as [|y l IH]; intros x d; [reflexivity|].
  change (List.last (x :: y :: l) d) with (List.last (y :: l) d).
  rewrite (IH y d), (IH y x). reflexivity.
Qed.

Lemma debounce_calls_run (calls : list A) (timeout : option A) (ctx : C)
    (evs : list (Throttle.event A)) :
  Debounce.run func (map Throttle.Call calls ++ evs) timeout ctx
  = Debounce.run func evs (List.last (map Some calls) timeout) ctx.
Proof.
  revert timeout. induction calls as [|a calls IH]; intros timeout; [reflexivity|].
  cbn [map app Debounce.run Debounce.step Debounce.debounced].
  rewrite IH, last_cons_default. reflexivity.
Qed.

Lemma debounce_calls_executed (calls : list A) (timeout : option A)
    (evs : list (Throttle.event A)) :
  Debounce.executed (map Throttle.Call calls ++ evs) timeout
  = Debounce.executed evs (List.last (map Some calls) timeout).
Proof.
  revert timeout. induction calls as [|a calls IH]; intros timeout; [reflexivity|].
  cbn [map app Debounce.executed Debounce.debounced].
  rewrite IH, last_cons_default. reflexivity.
Qed.

Lemma debounce_expiries (evs : list (Throttle.event A)) (timeout : option A) :
  (length (Debounce.executed evs timeout) <= expiries evs)%nat.
Proof.
  revert timeout. induction evs as [|[a|] evs IH]; intros timeout; cbn.
  - lia.
  - apply IH.
  - destruct timeout; cbn; specialize (IH None); unfold expiries in IH; lia.
Qed.

(** X16. The debounce runs the function on the trailing edge only.  Of a
    burst of calls followed by the expiry of the timer exactly one is
    executed, the last, whatever timer was pending before; calls alone
    execute nothing, so the function never runs inside the call that
    requests it; along any trace the function runs at most once per
    expiry, and the state reached is the one obtained by running it on
    the executed arguments in order. *)
Theorem debounce_trailing_edge :
  (forall (timeout : option A) (calls : list A) (a : A),
     Debounce.executed (map Throttle.Call (calls ++ [a]) ++ [Throttle.Expire]) timeout = [a])
  /\ (forall (timeout : option A) (ctx : C) (calls : list A),
        Debounce.executed (map Throttle.Call calls) timeout = []
        /\ snd (Debounce.run func (map Throttle.Call calls) timeout ctx) = ctx)
  /\ (forall (timeout : option A) (evs : list (Throttle.event A)),
        (length (Debounce.executed evs timeout) <= expiries evs)%nat)
  /\ (forall (timeout : option A) (ctx : C) (evs : list (Throttle.event A)),
        snd (Debounce.run func evs timeout ctx)
        = fold_left (fun c a => func a c) (Debounce.executed evs timeout) ctx).
Proof.
  split; [|split; [|split]].
  - intros timeout calls a.
    rewrite debounce_calls_executed, map_app. cbn [map]. rewrite List.last_last. reflexivity.
  - intros timeout ctx calls.
    rewrite <- (app_nil_r (map Throttle.Call calls)).
    rewrite debounce_calls_executed, debounce_calls_run. split; reflexivity.
  - intros timeout evs. apply debounce_expiries.
  - intros timeout ctx evs. apply debounce_run_executed.
Qed.

End DebounceFacts.

(* ===================================================================== *)
(** ** The capture *)
(* ===================================================================== *)

Lemma cleared_after_removal (m : gmap string Background.Value) (key : string) :
  In key Background.temporaryKeys ->
  fold_left (fun m key => delete key m) Background.temporaryKeys m !! key = None.
Proof.
  unfold Background.temporaryKeys. cbn [fold_left].
  intros [<-|[<-|[<-|[]]]]; simplify_map_eq; reflexivity.
Qed.

Lemma kept_after_removal (m : gmap string Background.Value) (key : string) :
  ~ In key Background.temporaryKeys ->
  fold_left (fun m key => delete key m) Background.temporaryKeys m !! key = m !! key.
Proof.
  unfold Background.temporaryKeys. cbn [fold_left In]. intros H.
  rewrite !lookup_delete_ne by (intros E; apply H; subst key; tauto). reflexivity.
Qed.

Lemma failure_reported (env : Background.Answers) (message : string) (b : Background.Browser) :
  reportedFailure
    (Background.showNotification env ("Screenshot failed: " ++ message) "error" b).
Proof.
  unfold reportedFailure, Background.showNotification. cbn [Background.notifications].
  eexists. rewrite map_app. cbn [map]. rewrite List.last_last.
  split; [reflexivity|]. split; [reflexivity|]. split; [reflexivity|].
  reflexivity.
Qed.

(** The [catch] block. *)
Lemma handleScreenshot_caught (env : Background.Answers) (tab : option Background.Tab)
    (cropOnly : bool) (b b1 : Background.Browser) (message : string) :
  Background.captureTry env tab cropOnly b = (b1, Some message) ->
  let b' := Background.handleScreenshot env tab cropOnly b in
  cleared b' /\ reportedFailure b'
  /\ Background.created b' = Background.created b1
  /\ Background.captures b' = Background.captures b1
  /\ length (Background.notifications b') = S (length (Background.notifications b1))
  /\ (forall key, ~ In key Background.temporaryKeys ->
        Background.local b' !! key = Background.local b1 !! key).
Proof.
  intros Htry b'. subst b'. unfold Background.handleScreenshot. rewrite Htry.
  cbn [Background.local Background.created Background.captures Background.notifications
       Background.showNotification].
  split; [intros key Hkey; apply cleared_after_removal; exact Hkey|].
  split.
  - pose proof (failure_reported env (if String.eqb message "" then "Unknown error" else message)
                  b1) as (n & Hn & Hrest).
    exists n. split; [exact Hn | exact Hrest].
  - split; [reflexivity|]. split; [reflexivity|].
    split; [rewrite length_app; cbn; lia|].
    intros key Hkey. apply kept_after_removal. exact Hkey.
Qed.

(** What the [try] block has done when it is interrupted. *)
Lemma captureTry_interrupted (env : Background.Answers) (tab : option Background.Tab)
    (cropOnly : bool) (b b1 : Background.Browser) (message : string) :
  Background.captureTry env tab cropOnly b = (b1, Some message) ->
  Background.local b1 = Background.local b
  /\ Background.notifications b1 = Background.notifications b
  /\ (Background.captures b1 <= S (Background.captures b))%nat
  /\ (Background.created b1 = Background.created b
      \/ Background.created b1 = Background.created b ++ ["editor/editor.html"]).
Proof.
  unfold Background.captureTry.
  destruct tab as [t|]; [|intros H; injection H as <- _; repeat split; auto].
  destruct (Background.id t) as [tabId|]; [|intros H; injection H as <- _; repeat split; auto].
  destruct (tabId =? 0)%Z; [intros H; injection H as <- _; repeat split; auto|].
  destruct (Background.protected _); [intros H; injection H as <- _; repeat split; auto|].
  destruct (Background.capture env) as [screenshotUrl|m];
    [|intros H; injection H as <- _; cbn; repeat split; auto].
  destruct (String.eqb screenshotUrl ""); [intros H; injection H as <- _; cbn; repeat split; auto|].
  destruct (Background.create env); [intros H; injection H as <- _; cbn; repeat split; auto|].
  destruct (Background.set env); [intros H; injection H as <- _; cbn; repeat split; auto|].
  discriminate.
Qed.

(** The [try] block when nothing interrupts it. *)
Lemma captureTry_completed (env : Background.Answers) (tab : option Background.Tab)
    (cropOnly : bool) (b b1 : Background.Browser) :
  Background.captureTry env tab cropOnly b = (b1, None) ->
  exists t tabId screenshotUrl,
    tab = Some t /\ Background.id t = Some tabId /\ tabId <> 0%Z
    /\ Background.protected (Background.url t) = false
    /\ Background.capture env = inl screenshotUrl /\ screenshotUrl <> ""
    /\ stored screenshotUrl tabId cropOnly b1
    /\ (forall key, ~ In key Background.temporaryKeys ->
          Background.local b1 !! key = Background.local b !! key)
    /\ Background.created b1 = Background.created b ++ ["editor/editor.html"]
    /\ Background.captures b1 = S (Background.captures b)
    /\ Background.notifications b1
       = Background.notifications b
         ++ [Background.mkNotification "snipscreen-info" "Screenshot captured successfully"
               0 false].
Proof.
  unfold Background.captureTry.
  destruct tab as [t|]; [|discriminate].
  destruct (Background.id t) as [tabId|] eqn:Hid; [|discriminate].
  destruct (Z.eqb_spec tabId 0) as [|Hne]; [discriminate|].
  destruct (Background.protected _) eqn:Hprot; [discriminate|].
  destruct (Background.capture env) as [screenshotUrl|m]; [|discriminate].
  destruct (String.eqb_spec screenshotUrl "") as [|Hurl]; [discriminate|].
  destruct (Background.create env); [discriminate|].
  destruct (Background.set env); [discriminate|].
  intros H. injection H as <-.
  exists t, tabId, screenshotUrl.
  cbn [Background.local Background.created Background.captures Background.notifications
       Background.showNotification].
  split; [reflexivity|]. split; [exact Hid|]. split; [exact Hne|].
  split; [exact Hprot|]. split; [reflexivity|]. split; [exact Hurl|].
  split; [|split; [|split; [reflexivity|split; reflexivity]]].
  - unfold stored. cbn [Background.local].
    split; [|split]; simplify_map_eq; reflexivity.
  - intros key Hkey. unfold Background.temporaryKeys in Hkey. cbn [In] in Hkey.
    rewrite !lookup_insert_ne by (intros E; apply Hkey; subst key; tauto). reflexivity.
Qed.

(** X18. Every run of [handleScreenshot] ends in one of two ways.  Either
    it stored a capture for the editor - the non-empty data URL, the id of
    the tab and the mode under the three temporary keys - after one
    capture, opened one editor tab and announced the success; or the
    three temporary keys are absent from the storage, whatever it held
    before and however far the run got, and the last notification is an
    error that stays until clicked.  In both cases all other keys of the
    storage are untouched, at most one capture is taken and at most one
    tab created. *)
Theorem handleScreenshot_outcome (env : Background.Answers) (tab : option Background.Tab)
    (cropOnly : bool) (b : Background.Browser) :
  let b' := Background.handleScreenshot env tab cropOnly b in
  ((exists screenshotUrl tabId,
      Background.capture env = inl screenshotUrl /\ screenshotUrl <> ""
      /\ stored screenshotUrl tabId cropOnly b'
      /\ Background.created b' = Background.created b ++ ["editor/editor.html"]
      /\ Background.captures b' = S (Background.captures b)
      /\ Background.notifications b'
         = Background.notifications b
           ++ [Background.mkNotification "snipscreen-info"
                 "Screenshot captured successfully" 0 false])
   \/ (cleared b' /\ reportedFailure b'
       /\ length (Background.notifications b') = S (length (Background.notifications b))))
  /\ (forall key, ~ In key Background.temporaryKeys ->
        Background.local b' !! key = Background.local b !! key)
  /\ (Background.captures b' <= S (Background.captures b))%nat
  /\ (Background.created b' = Background.created b
      \/ Background.created b' = Background.created b ++ ["editor/editor.html"]).
Proof.
  intros b'.
  destruct (Background.captureTry env tab cropOnly b) as [b1 [message|]] eqn:Htry.
  - destruct (handleScreenshot_caught env tab cropOnly b b1 message Htry)
      as (Hclear & Hrep & Hcreated & Hcaptures & Hlen & Hkeys).
    destruct (captureTry_interrupted env tab cropOnly b b1 message Htry)
      as (Hlocal & Hnote & Hcap & Htabs).
    fold b' in Hclear, Hrep, Hcreated, Hcaptures, Hlen, Hkeys.
    split; [right; split; [exact Hclear|]; split; [exact Hrep|]; congruence|].
    split; [intros key Hkey; rewrite (Hkeys key Hkey), Hlocal; reflexivity|].
    split; [lia|]. rewrite Hcreated. exact Htabs.
  - destruct (captureTry_completed env tab cropOnly b b1 Htry)
      as (t & tabId & screenshotUrl & _ & _ & _ & _ & Hcap & Hurl & Hstored & Hkeys
          & Hcreated & Hcaptures & Hnote).
    assert (b' = b1) as -> by (subst b'; unfold Background.handleScreenshot; rewrite Htry;
                               reflexivity).
    split; [left; exists screenshotUrl, tabId; repeat split; try assumption; apply Hstored|].
    split; [exact Hkeys|]. split; [lia|]. right. exact Hcreated.
Qed.

Ltac peel H url :=
  let d := fresh "d" in
  let E := fresh "E" in
  destruct url as [|d url]; [discriminate H|];
  cbn [Background.startsWith] in H; apply andb_true_iff in H; destruct H as [E H];
  apply Ascii.eqb_eq in E; subst d.

(** The scheme the error message names. *)
Lemma beforeDoubleSlash_scheme (address : string) :
  (Background.startsWith address "chrome://" = true ->
   Background.beforeDoubleSlash address = "chrome:")
  /\ (Background.startsWith address "file://" = true ->
      Background.beforeDoubleSlash address = "file:").
Proof.
  split; intros H.
  - do 9 peel H address. reflexivity.
  - do 7 peel H address. reflexivity.
Qed.

(** X19. Pages of the browser and local files are never captured: for a
    tab whose address starts with [chrome://] or [file://], and for a
    missing tab or a tab without an id (or with id 0), no capture is
    taken and no editor tab is created; the run ends with an error
    notification - which for a protected address names its scheme,
    [chrome:] or [file:] - and without temporary data in the storage. *)
Theorem handleScreenshot_guard (env : Background.Answers) (tab : option Background.Tab)
    (cropOnly : bool) (b : Background.Browser) :
  match tab with
  | Some t =>
      Background.id t = None \/ Background.id t = Some 0%Z
      \/ (exists address,
            Background.url t = Some address
            /\ (Background.startsWith address "chrome://" = true
                \/ Background.startsWith address "file://" = true))
  | None => True
  end ->
  let b' := Background.handleScreenshot env tab cropOnly b in
  Background.captures b' = Background.captures b
  /\ Background.created b' = Background.created b
  /\ cleared b' /\ reportedFailure b'
  /\ (forall t tabId address,
        tab = Some t -> Background.id t = Some tabId -> tabId <> 0%Z ->
        Background.url t = Some address ->
        exists scheme,
          (scheme = "chrome:" \/ scheme = "file:")
          /\ Background.startsWith address (scheme ++ "//") = true
          /\ option_map Background.message
               (List.last (map Some (Background.notifications b')) None)
             = Some ("Screenshot failed: Cannot capture system pages (" ++ scheme
                     ++ ") or local files.")%string).
Proof.
  intros Hguard b'.
  assert (exists message, Background.captureTry env tab cropOnly b = (b, Some message))
    as (message & Htry).
  { unfold Background.captureTry. destruct tab as [t|]; [|eexists; reflexivity].
    destruct (Background.id t) as [tabId|]; [|eexists; reflexivity].
    destruct (Z.eqb_spec tabId 0) as [|Hne]; [eexists; reflexivity|].
    destruct Hguard as [H|[H|(address & Hurl & Hprefix)]]; [discriminate | congruence |].
    rewrite Hurl. unfold Background.protected.
    destruct Hprefix as [-> | ->]; rewrite ?orb_true_r; eexists; reflexivity. }
  destruct (handleScreenshot_caught env tab cropOnly b b message Htry)
    as (Hclear & Hrep & Hcreated & Hcaptures & _).
  fold b' in Hclear, Hrep, Hcreated, Hcaptures.
  split; [exact Hcaptures|]. split; [exact Hcreated|]. split; [exact Hclear|].
  split; [exact Hrep|].
  intros t tabId address -> Hid Hne Hurl.
  destruct Hguard as [H|[H|(address' & Hurl' & Hprefix)]]; [congruence | congruence |].
  assert (address' = address) as -> by congruence.
  assert (Background.protected (Some address) = true) as Hprot
    by (unfold Background.protected; destruct Hprefix as [-> | ->];
        rewrite ?orb_true_r; reflexivity).
  assert (exists scheme,
            (scheme = "chrome:" \/ scheme = "file:")
            /\ Background.startsWith address (scheme ++ "//") = true
            /\ Background.beforeDoubleSlash address = scheme) as (scheme & Hscheme & Hstart & Hbefore).
  { destruct (beforeDoubleSlash_scheme address) as [Hc Hf].
    destruct Hprefix as [Hp|Hp].
    - exists "chrome:". split; [left; reflexivity|]. split; [exact Hp | exact (Hc Hp)].
    - exists "file:". split; [right; reflexivity|]. split; [exact Hp | exact (Hf Hp)]. }
  exists scheme. split; [exact Hscheme|]. split; [exact Hstart|].
  subst b'. unfold Background.handleScreenshot, Background.captureTry.
  rewrite Hid, Hurl, Hprot.
  destruct (Z.eqb_spec tabId 0) as [|_]; [contradiction|].
  cbn [Background.notifications Background.showNotification].
  rewrite map_app. cbn [map]. rewrite List.last_last. cbn [option_map Background.message].
  change (default "" (Some address)) with address. rewrite Hbefore. destruct Hscheme as [-> | ->]; reflexivity.
Qed.

Lemma handleScreenshot_guard_witness :
  Background.captures
    (Background.handleScreenshot Capture.fine (Some Capture.settings) false Capture.used)
  = 0%nat
  /\ cleared
       (Background.handleScreenshot Capture.fine (Some Capture.settings) false Capture.used).
Proof.
  destruct (handleScreenshot_guard Capture.fine (Some Capture.settings) false Capture.used)
    as (H1 & _ & H2 & _).
  - right. right. exists "chrome://settings". split; [reflexivity | left; reflexivity].
  - split; [exact H1 | exact H2].
Defined.

Lemma handleScreenshot_outcome_witness :
  stored "data:image/png;base64,iVBOR" 7 false
    (Background.handleScreenshot Capture.fine (Some Capture.page) false Capture.used).
Proof.
  destruct (handleScreenshot_outcome Capture.fine (Some Capture.page) false Capture.used)
    as [[(screenshotUrl & tabId & Hcap & _ & Hstored & _)|(Hclear & _)] _].
  - injection Hcap as <-.
    destruct Hstored as (H1 & H2 & H3). split; [exact H1|]. split; [|exact H3].
    rewrite H2. f_equal. f_equal.
    assert (Background.local
              (Background.handleScreenshot Capture.fine (Some Capture.page) false Capture.used)
            !! "originalTab" = Some (Background.Num 7)) as E by (vm_compute; reflexivity).
    rewrite H2 in E. injection E as E. exact E.
  - exfalso. specialize (Hclear "currentScreenshot" (or_introl eq_refl)).
    vm_compute in Hclear. discriminate Hclear.
Defined.

(** X17. A burst of clicks on the extension's button takes one screenshot.
    However many clicks arrive before the debounce timer expires, the
    capture runs once, for the tab of the last click: the browser is left
    as by that single run, so at most one capture is taken, at most one
    editor tab is opened and one notification is shown. *)
Theorem clicks_debounced (env : Background.Answers) (tabs : list (option Background.Tab))
    (tab : option Background.Tab) (b : Background.Browser) :
  let clicks := map Throttle.Call (tabs ++ [tab]) ++ [Throttle.Expire] in
  let b' := snd (Debounce.run (Background.onClicked env) clicks None b) in
  b' = Background.onClicked env tab b
  /\ (Background.captures b' <= S (Background.captures b))%nat
  /\ (length (Background.created b') <= S (length (Background.created b)))%nat
  /\ length (Background.notifications b') = S (length (Background.notifications b)).
Proof.
  intros clicks b'.
  assert (b' = Background.onClicked env tab b) as ->.
  { subst b' clicks. rewrite debounce_run_executed, debounce_calls_executed, map_app.
    cbn [map]. rewrite List.last_last. reflexivity. }
  split; [reflexivity|]. unfold Background.onClicked.
  destruct (Background.captureTry env tab false b) as [b1 [message|]] eqn:Htry.
  - destruct (handleScreenshot_caught env tab false b b1 message Htry)
      as (_ & _ & Hcreated & Hcaptures & Hlen & _).
    destruct (captureTry_interrupted env tab false b b1 message Htry)
      as (_ & Hnote & Hcap & Htabs).
    rewrite Hcreated, Hcaptures, Hlen, Hnote.
    split; [exact Hcap|]. split; [|reflexivity].
    destruct Htabs as [-> | ->]; [lia | rewrite length_app; cbn; lia].
  - destruct (captureTry_completed env tab false b b1 Htry)
      as (_ & _ & _ & _ & _ & _ & _ & _ & _ & _ & _ & Hcreated & Hcaptures & Hnote).
    unfold Background.handleScreenshot. rewrite Htry, Hcreated, Hcaptures, Hnote.
    rewrite !length_app. cbn. split; [lia|]. split; lia.
Qed.

(* ===================================================================== *)
(** ** The display size *)
(* ===================================================================== *)

(** X20. The display size chosen when a capture is loaded: the capture is
    never enlarged - the factor is at most 1 and the display is no wider
    and no higher than the capture; a capture that fits the space left by
    the padding is shown 1:1, at exactly its own size; and it is only
    shrunk when it does not fit.  (That the shrunk display fits the
    available space holds up to the rounding of the product only, and is
    not stated.) *)
Theorem fit_display (containerWidth containerHeight : Q) (canvasWidth canvasHeight : Z) :
  (0 < canvasWidth)%Z -> (0 < canvasHeight)%Z ->
  let scale := Fit.scale containerWidth containerHeight canvasWidth canvasHeight in
  let styleWidth := Fit.styleWidth containerWidth containerHeight canvasWidth canvasHeight in
  let styleHeight := Fit.styleHeight containerWidth containerHeight canvasWidth canvasHeight in
  scale <= 1
  /\ styleWidth <= Zq canvasWidth /\ styleHeight <= Zq canvasHeight
  /\ (Zq canvasWidth <= Fit.availableWidth containerWidth ->
      Zq canvasHeight <= Fit.availableHeight containerHeight ->
      scale == 1 /\ styleWidth == Zq canvasWidth /\ styleHeight == Zq canvasHeight)
  /\ (scale < 1 ->
      Fit.availableWidth containerWidth < Zq canvasWidth
      \/ Fit.availableHeight containerHeight < Zq canvasHeight).
Proof.
  intros Hw Hh scale styleWidth styleHeight.
  subst scale styleWidth styleHeight.
  unfold Fit.styleWidth, Fit.styleHeight, Fit.scale, Fit.scaleX, Fit.scaleY.
  pose proof (scale_times (Fit.availableWidth containerWidth) canvasWidth Hw) as Ex.
  pose proof (scale_times (Fit.availableHeight containerHeight) canvasHeight Hh) as Ey.
  apply (Zq_lt 0) in Hw, Hh. change (Zq 0) with 0 in Hw, Hh.
  set (sx := Fit.availableWidth containerWidth / Zq canvasWidth) in *.
  set (sy := Fit.availableHeight containerHeight / Zq canvasHeight) in *.
  set (aw := Fit.availableWidth containerWidth) in *.
  set (ah := Fit.availableHeight containerHeight) in *.
  set (W := Zq canvasWidth) in *. set (H := Zq canvasHeight) in *.
  clearbody sx sy aw ah W H.
  assert (W <= aw -> 1 <= sx) as Hsx.
  { intros Hfw. apply Qnot_lt_le. intros Hlt.
    assert (W * sx < W * 1) by (apply Qmult_lt_l; assumption). lra. }
  assert (H <= ah -> 1 <= sy) as Hsy.
  { intros Hfh. apply Qnot_lt_le. intros Hlt.
    assert (H * sy < H * 1) by (apply Qmult_lt_l; assumption). lra. }
  assert (Math.min (Math.min sx sy) 1 <= 1
          /\ (1 <= sx -> 1 <= sy -> Math.min (Math.min sx sy) 1 == 1)) as (K1 & Kfit).
  { split; [minmax_cases; lra|]. intros A B. minmax_cases; lra. }
  revert K1 Kfit. generalize (Math.min (Math.min sx sy) 1). intros k K1 Kfit.
  assert (W * k <= W * 1) as HWk by (apply Qmult_le_l; assumption).
  assert (H * k <= H * 1) as HHk by (apply Qmult_le_l; assumption).
  split; [exact K1|]. split; [lra|]. split; [lra|]. split.
  - intros Hfw Hfh. pose proof (Kfit (Hsx Hfw) (Hsy Hfh)) as E.
    split; [exact E|]. rewrite E. split; ring.
  - intros Hk. destruct (Qlt_le_dec aw W) as [?|Hfw]; [left; assumption|].
    destruct (Qlt_le_dec ah H) as [?|Hfh]; [right; assumption|].
    pose proof (Kfit (Hsx Hfw) (Hsy Hfh)) as E. rewrite E in Hk.
    exfalso. apply (Qlt_irrefl 1). exact Hk.
Qed.

Lemma fit_display_witness :
  Fit.styleWidth 1008 600 1920 1080 <= 1920
  /\ Fit.styleWidth 2048 1200 1920 1080 == 1920.
Proof.
  destruct (fit_display 1008 600 1920 1080) as (_ & A & _); [reflexivity | reflexivity |].
  destruct (fit_display 2048 1200 1920 1080) as (_ & _ & _ & B & _);
    [reflexivity | reflexivity |].
  split; [exact A|]. apply B; vm_compute; discriminate.
Defined.
(* ===================================================================== *)
(** ** The source rectangle of a crop *)
(* ===================================================================== *)

(** X9. The source rectangle of an accepted crop lies inside the original
    image whenever the working bitmap is no larger than the image: its
    corner is not negative, it is at least one pixel wide and high, and
    it ends within the image.  So every pixel the crop copies is a pixel
    of the capture; nothing is sampled outside it. *)
Theorem source_rectangle_inside (cs ce : Pos.t) (img : Image.t) (w h : Z) :
  (0 < w <= Image.naturalWidth img)%Z -> (0 < h <= Image.naturalHeight img)%Z ->
  Selection.tooSmall cs ce w h = false ->
  let x := Source.clampedSourceX cs ce img w in
  let y := Source.clampedSourceY cs ce img h in
  let width := Source.clampedSourceWidth cs ce img w in
  let height := Source.clampedSourceHeight cs ce img h in
  (0 <= x /\ 1 <= width /\ x + width <= Image.naturalWidth img)%Z
  /\ (0 <= y /\ 1 <= height /\ y + height <= Image.naturalHeight img)%Z
  /\ forall i j, (0 <= i < width)%Z -> (0 <= j < height)%Z ->
       Image.inside img (x + i) (y + j) = true.
Proof.
  intros Hw Hh Hsmall x y width height.
  unfold Selection.tooSmall in Hsmall. apply orb_false_iff in Hsmall.
  destruct Hsmall as [Hcw Hch].
  assert (forall q, Qleb q 1 = false -> 1 < q) as Hq.
  { intros q E. apply Qnot_le_lt. intros Hle. apply Qle_bool_iff in Hle.
    unfold Qleb in E. congruence. }
  apply Hq in Hcw, Hch.
  assert (Selection.clampedStartX cs ce w < Zq w - 1) as Hx.
  { unfold Selection.clampedWidth in Hcw.
    revert Hcw. generalize (Selection.displayCropWidth cs ce)
                           (Selection.clampedStartX cs ce w). intros d0 c0 Hcw.
    minmax_cases; lra. }
  assert (Selection.clampedStartY cs ce h < Zq h - 1) as Hy.
  { unfold Selection.clampedHeight in Hch.
    revert Hch. generalize (Selection.displayCropHeight cs ce)
                           (Selection.clampedStartY cs ce h). intros d0 c0 Hch.
    minmax_cases; lra. }
  pose proof (source_axis (Selection.clampedStartX cs ce w) (Selection.clampedWidth cs ce w)
                (Image.naturalWidth img) w Hw Hx) as Ax.
  pose proof (source_axis (Selection.clampedStartY cs ce h) (Selection.clampedHeight cs ce h)
                (Image.naturalHeight img) h Hh Hy) as Ay.
  cbv zeta in Ax, Ay.
  assert (0 <= x /\ 1 <= width /\ x + width <= Image.naturalWidth img)%Z as Ax' by exact Ax.
  assert (0 <= y /\ 1 <= height /\ y + height <= Image.naturalHeight img)%Z as Ay' by exact Ay.
  clear Ax Ay. clearbody x y width height.
  split; [exact Ax'|]. split; [exact Ay'|].
  intros i j Hi Hj. unfold Image.inside.
  rewrite !andb_true_iff, !Z.leb_le, !Z.ltb_lt. lia.
Qed.

Lemma source_rectangle_inside_witness :
  Image.inside Scenario.img
    (Source.clampedSourceX (Pos.mk 100 100) (Pos.mk 300 250) Scenario.img 800 + 199)
    (Source.clampedSourceY (Pos.mk 100 100) (Pos.mk 300 250) Scenario.img 600 + 149)
  = true.
Proof.
  apply (source_rectangle_inside (Pos.mk 100 100) (Pos.mk 300 250) Scenario.img 800 600);
    try reflexivity; try (cbn; lia); vm_compute; split; congruence.
Defined.

(* ===================================================================== *)
(** ** Invariants of the editor *)
(* ===================================================================== *)

Lemma exclusive_fewer (s s' : Editor.t) :
  (forall t, isToolActive t s' = true -> isToolActive t s = true) ->
  exclusive s -> exclusive s'.
Proof.
  intros Hsub Hex. apply exclusive_iff. apply exclusive_iff in Hex.
  destruct (isToolActive "crop" s') eqn:Ec; [|reflexivity].
  destruct (isToolActive "annotate" s') eqn:Ea; [|reflexivity].
  rewrite (Hsub _ Ec), (Hsub _ Ea) in Hex. discriminate.
Qed.

Lemma exclusive_same_tools (s s' : Editor.t) :
  activeTools s' = activeTools s -> exclusive s -> exclusive s'.
Proof.
  intros H. apply exclusive_fewer. intros t. unfold isToolActive. rewrite H. trivial.
Qed.

Lemma toggleTool_keeps_exclusive (env : Env.t) (tool : string) (s : Editor.t) :
  exclusive s -> exclusive (toggleTool env tool s).
Proof.
  intros Hex. apply exclusive_iff. apply exclusive_iff in Hex.
  destruct (Env.toolShown env tool) eqn:Hshown.
  - rewrite !toggleTool_active by exact Hshown. cbn [drawingTools existsb].
    destruct (String.eqb_spec "crop" tool) as [Hc|Hc];
      destruct (String.eqb_spec "annotate" tool) as [Ha|Ha];
      try congruence; try subst tool; cbn;
      destruct (isToolActive "crop" s) eqn:Ec;
      destruct (isToolActive "annotate" s) eqn:Ea;
      try discriminate; try reflexivity;
      destruct (isToolActive tool s); reflexivity.
  - unfold toggleTool. rewrite Hshown. exact Hex.
Qed.

Lemma sameSize_sameContent (s s' : Editor.t) :
  sameContent s s' -> sameSize s -> sameSize s'.
Proof.
  intros (Hoff & _ & _ & Hsize & _) [Hsome Heq]. unfold sameSize.
  rewrite Hoff, Hsize. split; [|exact Heq].
  destruct (canvas s) as [c|]; [|destruct Hsome; discriminate].
  destruct (canvas s'); [eexists; reflexivity | discriminate].
Qed.

Lemma bounded_same (s s' : Editor.t) :
  originalImage s' = originalImage s -> offscreenCanvas s' = offscreenCanvas s ->
  bounded s -> bounded s'.
Proof. unfold bounded. intros -> ->. trivial. Qed.

Lemma wellFormed_sameContent (s s' : Editor.t) :
  sameContent s s' -> exclusive s' -> wellFormed s -> wellFormed s'.
Proof.
  intros Hsame Hex (_ & Hsize & Hel & Hb). split; [exact Hex|].
  split; [exact (sameSize_sameContent s s' Hsame Hsize)|].
  destruct Hsame as (Hoff & -> & Himg & _). split; [exact Hel|].
  exact (bounded_same s s' Himg Hoff Hb).
Qed.

Lemma wellFormed_sameDocument (s s' : Editor.t) :
  sameDocument s s' -> wellFormed s -> wellFormed s'.
Proof.
  intros (Hoff & Hel & Htools & Himg & Hsize) (Hex & [Hsome Heq] & Hrects & Hb).
  split; [exact (exclusive_same_tools s s' Htools Hex)|]. split; [|split].
  - unfold sameSize. rewrite Hoff, Hsize. split; [|exact Heq].
    destruct (canvas s) as [c|]; [|destruct Hsome; discriminate].
    destruct (canvas s'); [eexists; reflexivity | discriminate].
  - rewrite Hel. exact Hrects.
  - exact (bounded_same s s' Himg Hoff Hb).
Qed.

(** *** The toolbar *)

Lemma listener_wellFormed (env : Env.t) (action : ToolAction) (s : Editor.t) :
  wellFormed s -> wellFormed (fst (listener env action s)).
Proof.
  intros Hwf.
  assert (forall st, wellFormed st ->
            wellFormed (fold_left (fun s toolName =>
                          if isToolActive toolName s then toggleTool env toolName s else s)
                          ["crop"; "annotate"] st)) as Hloop.
  { intros st Hst. cbn [fold_left].
    assert (forall u st0, wellFormed st0 ->
              wellFormed (if isToolActive u st0 then toggleTool env u st0 else st0)) as Hone.
    { intros u st0 Hst0. destruct (isToolActive u st0); [|exact Hst0].
      apply (wellFormed_sameContent st0); [apply toggleTool_content | | exact Hst0].
      apply toggleTool_keeps_exclusive. apply Hst0. }
    apply Hone, Hone, Hst. }
  assert (forall st m p k, wellFormed st -> wellFormed (showToast m p k st)) as Htoast.
  { intros st m p k Hst. apply (wellFormed_sameDocument st); [|exact Hst].
    apply sameDocument_showToast. }
  destruct action as [tool| |]; unfold listener.
  - cbn [fst]. apply (wellFormed_sameContent s); [apply toggleTool_content | | exact Hwf].
    apply toggleTool_keeps_exclusive. apply Hwf.
  - specialize (Hloop s Hwf). revert Hloop. generalize (fold_left
      (fun s0 toolName => if isToolActive toolName s0 then toggleTool env toolName s0 else s0)
      ["crop"; "annotate"] s). intros s1 H1.
    unfold copyToClipboard.
    destruct (emptyImage s1); [cbn [fst]; apply Htoast, H1|].
    destruct (_ && _); [cbn [fst]; apply Htoast, H1|].
    destruct (negb _); [cbn [fst]; apply Htoast, Htoast, H1|].
    destruct (Env.clipboardWrite env); cbn [fst]; apply Htoast, Htoast, H1.
  - specialize (Hloop s Hwf). revert Hloop. generalize (fold_left
      (fun s0 toolName => if isToolActive toolName s0 then toggleTool env toolName s0 else s0)
      ["crop"; "annotate"] s). intros s1 H1.
    unfold saveImage.
    destruct (emptyImage s1); [cbn [fst]; apply Htoast, H1|].
    destruct (_ && _); [cbn [fst]; apply Htoast, H1|].
    destruct (snd (Download.tryDownload _ 0)) as [|message];
      [|match goal with
        | |- context [saveFailed ?a ?b ?c] =>
            destruct (saveFailed_toast a b c) as (m & k & ->)
        end];
      cbn [fst]; apply Htoast, Htoast, H1.
Qed.

(** *** The pointer *)

Lemma sameDocument_updateCanvasRect (env : Env.t) (s : Editor.t) :
  sameDocument s (updateCanvasRect env s).
Proof.
  unfold sameDocument, updateCanvasRect.
  destruct (canvas s) eqn:E; cbn; rewrite ?E; repeat split.
Qed.

Lemma sameDocument_getMousePos (env : Env.t) (e : MouseEvent.t) (s s1 : Editor.t)
    (pos : Pos.t) :
  getMousePos env e s = Some (pos, s1) -> sameDocument s s1.
Proof.
  intros H. rewrite (getMousePos_state env e s s1 pos H).
  destruct (canvasRect s); [apply sameDocument_refl | apply sameDocument_updateCanvasRect].
Qed.

Lemma sameDocument_saveCanvasState (s : Editor.t) : sameDocument s (saveCanvasState s).
Proof.
  unfold sameDocument, saveCanvasState.
  destruct (canvas s) eqn:E; cbn; rewrite ?E; repeat split.
Qed.

Lemma handleMouseDown_sameDocument (env : Env.t) (e : MouseEvent.t) (s s' : Editor.t) :
  handleMouseDown env e s = Some s' -> sameDocument s s'.
Proof.
  unfold handleMouseDown.
  destruct (negb _); [intros H; injection H as <-; apply sameDocument_refl|].
  destruct (getMousePos env e s) as [[pos s1]|] eqn:Hpos; [|discriminate].
  pose proof (sameDocument_getMousePos env e s s1 pos Hpos) as H1.
  destruct (isToolActive "crop" (setIsDrawing false s1)).
  - intros H. injection H as <-.
    eapply sameDocument_trans; [exact H1|].
    eapply sameDocument_trans; [|apply sameDocument_setCursor].
    unfold sameDocument. repeat split.
  - destruct (isToolActive "annotate" (setIsDrawing false s1)); intros H; injection H as <-.
    + eapply sameDocument_trans; [exact H1|].
      eapply sameDocument_trans; [|apply sameDocument_saveCanvasState].
      unfold sameDocument. repeat split.
    + eapply sameDocument_trans; [exact H1|]. unfold sameDocument. repeat split.
Qed.

Lemma setFillStyle_size (style : string) (c : Canvas.t) :
  Canvas.width (Canvas.setFillStyle style c) = Canvas.width c
  /\ Canvas.height (Canvas.setFillStyle style c) = Canvas.height c.
Proof. unfold Canvas.setFillStyle. destruct (Css.parse style); split; reflexivity. Qed.

Section Strokes.
Variable strokeRect :
  list Q -> string -> Q -> Q -> Q -> Q -> Q -> Canvas.t -> Canvas.t.
Hypothesis strokes_keep_size : keepsSize strokeRect.

Lemma drawCornerHandles_size (x y w h : Q) (c : Canvas.t) :
  Canvas.width (drawCornerHandles strokeRect x y w h c) = Canvas.width c
  /\ Canvas.height (drawCornerHandles strokeRect x y w h c) = Canvas.height c.
Proof.
  unfold drawCornerHandles.
  destruct (setFillStyle_size "#007AFF" c) as [Hw Hh]. rewrite <- Hw, <- Hh.
  generalize (Canvas.setFillStyle "#007AFF" c).
  generalize [(x, y); (x + w, y); (x, y + h); (x + w, y + h)].
  induction l as [|[cx cy] l IH]; intros c0; cbn [fold_left]; [split; reflexivity|].
  destruct (IH (strokeRect [] "#FFFFFF" 1 (cx - 8 / 2) (cy - 8 / 2) 8 8
                  (Canvas.fillRect (cx - 8 / 2) (cy - 8 / 2) 8 8 c0))) as [-> ->].
  destruct (strokes_keep_size [] "#FFFFFF" 1 (cx - 8 / 2) (cy - 8 / 2) 8 8
              (Canvas.fillRect (cx - 8 / 2) (cy - 8 / 2) 8 8 c0)) as [-> ->].
  split; reflexivity.
Qed.

Lemma drawCropGuides_size (x y w h : Q) (s : Editor.t) :
  sizeOf (canvas (drawCropGuides strokeRect x y w h s)) = sizeOf (canvas s).
Proof.
  unfold drawCropGuides. destruct (canvas s) as [c0|] eqn:Hc0; [|rewrite Hc0; reflexivity].
  pose proof (redrawCanvas_size s) as Hsize. rewrite Hc0 in Hsize.
  destruct (canvas (redrawCanvas s)) as [c|] eqn:Hc; [|rewrite Hc; exact Hsize].
  rewrite <- Hsize. cbn [canvas setCanvas sizeOf option_map].
  match goal with
  | |- context [if ?b then drawCornerHandles strokeRect ?x0 ?y0 ?w0 ?h0 ?c1 else _] =>
      assert (Canvas.width (if b then drawCornerHandles strokeRect x0 y0 w0 h0 c1 else c1)
              = Canvas.width c1
              /\ Canvas.height (if b then drawCornerHandles strokeRect x0 y0 w0 h0 c1 else c1)
                 = Canvas.height c1) as [-> ->]
        by (destruct b; [apply drawCornerHandles_size | split; reflexivity])
  end.
  repeat match goal with
         | |- context [strokeRect ?d ?st ?lw ?x0 ?y0 ?w0 ?h0 ?c1] =>
             destruct (strokes_keep_size d st lw x0 y0 w0 h0 c1) as [-> ->]
         end.
  cbn [Canvas.fillRect Canvas.withPixels Canvas.width Canvas.height].
  destruct (setFillStyle_size "rgba(0, 0, 0, 0.4)" c) as [-> ->]. reflexivity.
Qed.

Lemma throttled_size (args : Pos.t * Pos.t) (th : Throttle.state unit) (s : Editor.t) :
  sizeOf (canvas (snd (fst (throttledDrawCropGuides strokeRect args th s))))
  = sizeOf (canvas s).
Proof.
  unfold throttledDrawCropGuides, Throttle.throttled.
  destruct (negb (Throttle.inThrottle th)); [|reflexivity].
  unfold drawCropGuidesOf. destruct args as [startPos endPos].
  destruct (_ || _); cbn [fst snd]; [reflexivity | apply drawCropGuides_size].
Qed.

Lemma handleMouseMove_sameDocument (env : Env.t) (e : MouseEvent.t)
    (th th' : Throttle.state unit) (s s' : Editor.t) :
  handleMouseMove strokeRect env e th s = Some (th', s') -> sameDocument s s'.
Proof.
  intros Hmove.
  destruct (handleMouseMove_keeps strokeRect env e th th' s s' Hmove)
    as (Hoff & Hel & Htools & Himg & _).
  unfold sameDocument. split; [exact Hoff|]. split; [exact Hel|].
  split; [exact Htools|]. split; [exact Himg|].
  revert Hmove. unfold handleMouseMove.
  destruct (getMousePos env e s) as [[pos s1]|] eqn:Hpos; [|discriminate].
  destruct (getMousePos_frame env e s s1 pos Hpos) as (Hc1 & _).
  set (s2 := if negb (isDrawing s1) && negb (bool_decide (activeTools s1 = ∅))
             then setCursor (if isToolActive "crop" s1 || isToolActive "annotate" s1
                             then "crosshair" else "default") s1
             else s1).
  assert (canvas s2 = canvas s) as Hc2.
  { subst s2. destruct (_ && _); [|exact Hc1].
    destruct (setCursor_frame
                (if isToolActive "crop" s1 || isToolActive "annotate" s1
                 then "crosshair" else "default") s1) as (A & _). congruence. }
  destruct (negb (isDrawing s2)); [intros H; injection H as _ <-; rewrite Hc2; reflexivity|].
  destruct (if isToolActive "crop" s2 then cropStart s2 else None) as [start|].
  - pose proof (throttled_size (start, pos) th (setCropEnd (Some pos) s2)) as H3.
    destruct (throttledDrawCropGuides strokeRect (start, pos) th (setCropEnd (Some pos) s2))
      as [[th3 s3] r]. cbn [fst snd] in H3.
    intros H. injection H as _ <-. rewrite H3. cbn [canvas setCropEnd]. rewrite Hc2.
    reflexivity.
  - destruct (isToolActive "annotate" s2 && bool_decide (is_Some (annotateStart s2)));
      intros H; injection H as _ <-.
    + rewrite annotatePreview_size, Hc2. reflexivity.
    + rewrite Hc2. reflexivity.
Qed.

End Strokes.

(** *** Committing *)

Lemma reproject_blackRect (sx sy : Q) (ox oy : Z) (e : Elem.t) :
  blackRect e -> blackRect (reproject sx sy ox oy e).
Proof. intros H. exact H. Qed.

Lemma clampedSource_bounded (cs ce : Pos.t) (img : Image.t) (w h : Z) :
  (1 <= Image.naturalWidth img)%Z -> (1 <= Image.naturalHeight img)%Z ->
  (0 <= Source.clampedSourceWidth cs ce img w <= Image.naturalWidth img)%Z
  /\ (0 <= Source.clampedSourceHeight cs ce img h <= Image.naturalHeight img)%Z.
Proof.
  intros Hw Hh.
  unfold Source.clampedSourceWidth, Source.clampedSourceHeight, Source.clampedSourceX,
    Source.clampedSourceY.
  generalize (Source.sourceX cs ce img w) (Source.sourceY cs ce img h)
             (Source.sourceWidth cs ce img w) (Source.sourceHeight cs ce img h).
  intros. lia.
Qed.

Lemma cropTry_wellFormed (env : Env.t) (cs ce : Pos.t) (img : Image.t) (off : Canvas.t)
    (s : Editor.t) :
  originalImage s = Some img -> offscreenCanvas s = Some off ->
  Canvas.width off <> 0%Z -> Canvas.height off <> 0%Z ->
  wellFormed s -> wellFormed (fst (cropTry env cs ce img off s)).
Proof.
  intros Himg Hoff0 Hw0 Hh0 (Hex & [Hsome _] & Hrects & Hbounded).
  destruct (canvas s) as [c|] eqn:Hc; [|destruct Hsome; discriminate].
  destruct Hbounded as (img' & off0 & Himg' & Hoff' & Hbw & Hbh).
  assert (img' = img) as -> by congruence. assert (off0 = off) as -> by congruence.
  destruct (clampedSource_bounded cs ce img (Canvas.width off) (Canvas.height off))
    as [Hnw Hnh]; [lia | lia |].
  destruct (Image.broken img) eqn:Hb.
  - unfold cropTry, Canvas.drawImageSub. rewrite Hc, Hb. cbn [fst].
    split; [exact Hex|]. split; [|split; [exact Hrects|]].
    + unfold sameSize.
      cbn [canvas offscreenCanvas setOffscreenCanvas setCanvas sizeOf option_map].
      split; [eexists; reflexivity|].
      cbn [Canvas.width Canvas.height Canvas.clearRect Canvas.withPixels Canvas.setHeight
           Canvas.setWidth]. reflexivity.
    + unfold bounded.
      cbn [originalImage offscreenCanvas setOffscreenCanvas setCanvas].
      exists img. eexists. split; [exact Himg|]. split; [reflexivity|].
      cbn [Canvas.width Canvas.height Canvas.clearRect Canvas.withPixels Canvas.setHeight
           Canvas.setWidth]. split; assumption.
  - destruct (cropTry_completes env s cs ce img off c Hc Hb)
      as (s1 & off' & -> & Hoff & Hw & Hh & _ & Hsize & Hel & _ & Htools & Himg1).
    cbn [fst]. split; [|split; [|split]].
    + apply (exclusive_fewer s); [|exact Hex].
      intros t. unfold isToolActive. rewrite Htools.
      rewrite !bool_decide_eq_true, elem_of_difference. tauto.
    + unfold sameSize. rewrite Hsize, Hoff. cbn [sizeOf option_map]. rewrite Hw, Hh.
      split; [|reflexivity].
      destruct (canvas s1); [eexists; reflexivity | discriminate].
    + rewrite Hel. apply List.Forall_forall. intros e He.
      apply List.filter_In in He. destruct He as [He _].
      apply List.in_map_iff in He. destruct He as (e0 & <- & He0).
      apply reproject_blackRect.
      rewrite List.Forall_forall in Hrects. exact (Hrects e0 He0).
    + exists img, off'. split; [congruence|]. split; [exact Hoff|].
      rewrite Hw, Hh. split; assumption.
Qed.

Lemma completeCrop_wellFormed (env : Env.t) (s : Editor.t) :
  wellFormed s -> wellFormed (completeCrop env s).
Proof.
  intros Hwf.
  assert (forall s1, wellFormed s1 -> wellFormed (resetCropState s1)) as Hreset.
  { intros s1 H1. apply (wellFormed_sameDocument s1); [|exact H1].
    apply sameDocument_resetCropState. }
  assert (forall m p k s1, wellFormed s1 -> wellFormed (showToast m p k s1)) as Htoast.
  { intros m p k s1 H1. apply (wellFormed_sameDocument s1); [|exact H1].
    apply sameDocument_showToast. }
  unfold completeCrop.
  destruct (cropStart s) as [cs|]; [|apply Hreset, Hwf].
  destruct (cropEnd s) as [ce|]; [|apply Hreset, Hwf].
  destruct (originalImage s) as [img|] eqn:Himg; [|apply Hreset, Hwf].
  destruct (offscreenCanvas s) as [off|] eqn:Hoff; [|apply Hreset, Hwf].
  destruct (negb (isToolActive "crop" s)); [apply Hreset, Hwf|].
  destruct (Z.eqb_spec (Canvas.width off) 0) as [|Hw0]; [apply Hreset, Htoast, Hwf|].
  destruct (Z.eqb_spec (Canvas.height off) 0) as [|Hh0]; [apply Hreset, Htoast, Hwf|].
  cbn [orb].
  destruct (Selection.tooSmall _ _ _ _); [apply Hreset, Htoast, Hwf|].
  pose proof (cropTry_wellFormed env cs ce img off s Himg Hoff Hw0 Hh0 Hwf) as H1.
  destruct (cropTry env cs ce img off s) as [s1 [error|]]; cbn [fst] in H1.
  - apply Hreset. apply (wellFormed_sameDocument (showToast ("Crop failed: " ++ message error)
                                                   false "error" s1)).
    + apply sameDocument_redrawCanvas.
    + apply Htoast, H1.
  - apply Hreset, H1.
Qed.

Lemma commitAnnotation_wellFormed (env : Env.t) (a pos : Pos.t) (s : Editor.t) :
  wellFormed s -> wellFormed (commitAnnotation env a pos s).
Proof.
  intros Hwf. unfold commitAnnotation.
  match goal with
  | |- wellFormed (if isToolActive "annotate" ?st then setCursor _ ?st else ?st) =>
      assert (wellFormed st) as H1
  end.
  { apply (wellFormed_sameDocument
             (if Qgtb (Math.abs (Pos.x pos - Pos.x a)) 1
                 && Qgtb (Math.abs (Pos.y pos - Pos.y a)) 1
              then showToast "Annotation added" false "success"
                     (redrawCanvas
                        (setAnnotationElements
                           (annotationElements s
                            ++ [Elem.mk "rect" (annotationId (Env.now env))
                                  (Math.min (Pos.x a) (Pos.x pos))
                                  (Math.min (Pos.y a) (Pos.y pos))
                                  (Math.abs (Pos.x pos - Pos.x a))
                                  (Math.abs (Pos.y pos - Pos.y a)) "#000000"]) s))
              else restoreCanvasState s)); [unfold sameDocument; repeat split|].
    destruct (_ && _).
    - apply (wellFormed_sameDocument
               (setAnnotationElements
                  (annotationElements s
                   ++ [Elem.mk "rect" (annotationId (Env.now env))
                         (Math.min (Pos.x a) (Pos.x pos))
                         (Math.min (Pos.y a) (Pos.y pos))
                         (Math.abs (Pos.x pos - Pos.x a))
                         (Math.abs (Pos.y pos - Pos.y a)) "#000000"]) s)).
      + eapply sameDocument_trans; [apply sameDocument_redrawCanvas|].
        apply sameDocument_showToast.
      + destruct Hwf as (Hex & Hsize & Hrects & Hb).
        split; [exact Hex|]. split; [exact Hsize|]. split; [|exact Hb].
        cbn [annotationElements setAnnotationElements].
        apply Forall_app. split; [exact Hrects|].
        constructor; [split; reflexivity | constructor].
    - apply (wellFormed_sameDocument s); [apply sameDocument_restoreCanvasState | exact Hwf]. }
  match goal with
  | |- wellFormed (if ?b then setCursor ?v ?st else ?st) =>
      destruct b; [|exact H1];
      apply (wellFormed_sameDocument st); [apply sameDocument_setCursor | exact H1]
  end.
Qed.

Lemma handleMouseUp_wellFormed (env : Env.t) (e : MouseEvent.t) (s s' : Editor.t) :
  handleMouseUp env e s = Some s' -> wellFormed s -> wellFormed s'.
Proof.
  unfold handleMouseUp.
  destruct (negb _); [intros H; injection H as <-; trivial|].
  destruct (isDrawing s); [|intros H; injection H as <-; trivial].
  destruct (getMousePos env e s) as [[pos s1]|] eqn:Hpos; [|discriminate].
  intros H Hwf. injection H as <-.
  assert (wellFormed (setIsDrawing false s1)) as H1.
  { apply (wellFormed_sameDocument s); [|exact Hwf].
    eapply sameDocument_trans; [exact (sameDocument_getMousePos env e s s1 pos Hpos)|].
    unfold sameDocument. repeat split. }
  match goal with
  | |- wellFormed (if ?b then setCursor ?v ?st else ?st) =>
      assert (wellFormed st) as H2
  end.
  { destruct (_ && _).
    - apply completeCrop_wellFormed.
      apply (wellFormed_sameDocument (setIsDrawing false s1)); [|exact H1].
      unfold sameDocument. repeat split.
    - destruct (isToolActive "annotate" (setIsDrawing false s1)); [|exact H1].
      match goal with
      | |- wellFormed (match ?o with Some _ => _ | None => _ end) => destruct o
      end; [|exact H1].
      apply commitAnnotation_wellFormed. exact H1. }
  match goal with
  | |- wellFormed (if ?b then setCursor ?v ?st else ?st) =>
      destruct b; [|exact H2];
      apply (wellFormed_sameDocument st); [apply sameDocument_setCursor | exact H2]
  end.
Qed.

Lemma handleMouseLeave_wellFormed (s : Editor.t) :
  wellFormed s -> wellFormed (handleMouseLeave s).
Proof.
  intros Hwf. exact (wellFormed_sameDocument _ _ (handleMouseLeave_sameDocument s) Hwf).
Qed.

(** A handler raises only where the canvas is gone. *)
Lemma getMousePos_returns (env : Env.t) (e : MouseEvent.t) (s : Editor.t) :
  is_Some (canvas s) -> exists pos s1, getMousePos env e s = Some (pos, s1).
Proof.
  intros [c Hc]. unfold getMousePos. destruct (canvasRect s) as [rect|] eqn:Hr.
  - rewrite Hr, Hc. eexists; eexists; reflexivity.
  - unfold updateCanvasRect. rewrite Hc. cbn [canvasRect canvas setCanvasRect].
    rewrite Hc. eexists; eexists; reflexivity.
Qed.

Section Reachable.
Variable strokeRect :
  list Q -> string -> Q -> Q -> Q -> Q -> Q -> Canvas.t -> Canvas.t.
Hypothesis strokes_keep_size : keepsSize strokeRect.

Lemma dispatch_wellFormed (env : Env.t) (ev : Event) (th : Throttle.state unit)
    (s : Editor.t) :
  wellFormed s -> wellFormed (snd (dispatch strokeRect env ev (th, s))).
Proof.
  intros Hwf. unfold dispatch. destruct ev as [action|e|e|e| | |]; cbn [snd].
  - apply listener_wellFormed. exact Hwf.
  - destruct (handleMouseDown env e s) as [s'|] eqn:E; cbn; [|exact Hwf].
    exact (wellFormed_sameDocument _ _ (handleMouseDown_sameDocument env e s s' E) Hwf).
  - destruct (handleMouseMove strokeRect env e th s) as [[th' s']|] eqn:E; cbn; [|exact Hwf].
    exact (wellFormed_sameDocument _ _
             (handleMouseMove_sameDocument strokeRect strokes_keep_size env e th th' s s' E)
             Hwf).
  - destruct (handleMouseUp env e s) as [s'|] eqn:E; cbn; [|exact Hwf].
    exact (handleMouseUp_wellFormed env e s s' E Hwf).
  - apply handleMouseLeave_wellFormed. exact Hwf.
  - exact (wellFormed_sameDocument _ _ (sameDocument_updateCanvasRect env s) Hwf).
  - exact Hwf.
Qed.

Lemma deliver_wellFormed (evs : list (Env.t * Event)) (th : Throttle.state unit)
    (s : Editor.t) :
  wellFormed s -> wellFormed (snd (deliver strokeRect evs (th, s))).
Proof.
  revert th s. induction evs as [|[env ev] evs IH]; intros th s Hwf; [exact Hwf|].
  cbn [deliver]. pose proof (dispatch_wellFormed env ev th s Hwf) as H.
  destruct (dispatch strokeRect env ev (th, s)) as [th' s']. apply IH. exact H.
Qed.

Lemma loaded_wellFormed (env : Env.t) (img : Image.t) (s : Editor.t) :
  (0 <= Image.naturalWidth img)%Z -> (0 <= Image.naturalHeight img)%Z ->
  loadScreenshot_onload env img Editor.init = inl s -> wellFormed s.
Proof.
  intros Hw Hh.
  unfold loadScreenshot_onload. cbn [canvas offscreenCanvas Editor.init setOriginalImage].
  unfold Canvas.drawImage. destruct (Image.broken img); [discriminate|].
  match goal with
  | |- context [Canvas.drawable ?o] => destruct (Canvas.drawable o)
  end; [|discriminate].
  cbn [negb]. intros H. injection H as <-.
  split; [apply exclusive_iff; reflexivity|].
  split; [split; [eexists; reflexivity | reflexivity]|].
  split; [constructor|].
  exists img. eexists. split; [reflexivity|]. split; [reflexivity|].
  cbn [Canvas.width Canvas.height Canvas.withPixels Canvas.clearRect Canvas.setHeight
       Canvas.setWidth]. lia.
Qed.

(** X22. Invariants of the editor.  From the moment a capture is loaded,
    whatever clicks on the toolbar, pointer events, window resizes and
    expiries of the throttle timer follow, in any order and with any
    answers of the page: at most one drawing tool is active; the display
    canvas exists and has exactly the size of the working bitmap; every
    annotation is a rectangle of colour [#000000]; the original image is
    kept and the working bitmap is never larger than it; and no pointer
    handler raises.  The rasteriser of strokes is only required to leave
    the size of the canvas alone. *)
Theorem editor_invariants (env0 : Env.t) (img : Image.t) (s0 : Editor.t)
    (evs : list (Env.t * Event)) :
  (0 <= Image.naturalWidth img)%Z -> (0 <= Image.naturalHeight img)%Z ->
  loadScreenshot_onload env0 img Editor.init = inl s0 ->
  let st := deliver strokeRect evs (Throttle.fresh, s0) in
  wellFormed (snd st)
  /\ forall env e,
       handleMouseDown env e (snd st) <> None
       /\ handleMouseMove strokeRect env e (fst st) (snd st) <> None
       /\ handleMouseUp env e (snd st) <> None.
Proof.
  intros Hnw Hnh Hload st.
  pose proof (deliver_wellFormed evs Throttle.fresh s0
                (loaded_wellFormed env0 img s0 Hnw Hnh Hload)) as Hwf.
  fold st in Hwf. split; [exact Hwf|].
  intros env e. destruct Hwf as (_ & [Hsome _] & _).
  destruct (getMousePos_returns env e (snd st) Hsome) as (pos & s1 & Hpos).
  split; [|split].
  - unfold handleMouseDown. rewrite Hpos.
    destruct (negb _); [discriminate|].
    destruct (isToolActive "crop" _); [discriminate|].
    destruct (isToolActive "annotate" _); discriminate.
  - destruct (handleMouseMove_returns strokeRect env e (fst st) (snd st) s1 pos Hpos)
      as (th' & s' & ->). discriminate.
  - unfold handleMouseUp. rewrite Hpos.
    destruct (negb _); [discriminate|]. destruct (isDrawing _); discriminate.
Qed.

End Reachable.

Lemma editor_invariants_witness :
  wellFormed (snd (deliver Drag.noStroke Session.events (Throttle.fresh, Scenario.loaded))).
Proof.
  assert (keepsSize Drag.noStroke) as Hstroke by (intros dash style lw x y w h c; split; reflexivity).
  assert (exists s0, loadScreenshot_onload Scenario.env Scenario.img Editor.init = inl s0
                     /\ Scenario.loaded = s0) as (s0 & Hload & ->).
  { unfold Scenario.loaded.
    destruct (loadScreenshot_onload Scenario.env Scenario.img Editor.init) as [s0|x] eqn:E.
    - exists s0. split; reflexivity.
    - exfalso. revert E. unfold loadScreenshot_onload, Canvas.drawImage. cbn. discriminate. }
  apply (editor_invariants Drag.noStroke Hstroke Scenario.env Scenario.img s0 Session.events);
    [cbn; lia | cbn; lia | exact Hload].
Defined.

(* ===================================================================== *)
(** ** The crop is all or nothing *)
(* ===================================================================== *)









Section KeepsImage.
Variable strokeRect :
  list Q -> string -> Q -> Q -> Q -> Q -> Q -> Canvas.t -> Canvas.t.



End KeepsImage.




(* ===================================================================== *)
(** ** After [cleanup] *)
(* ===================================================================== *)

(** X23. What is left after [cleanup]: no tool, no element, no canvas.
    Copy and Save refuse with the "empty image" toast, a redraw does
    nothing, and an export would produce the 1x1 canvas.  The listeners
    of the canvas are not detached - [cleanup] drops the canvas before it
    asks for their removal, which is guarded by the canvas - and since the
    cached rectangle is kept, a pointer event that still arrives raises
    in [getMousePos]. *)
Theorem cleanup_inert (env : Env.t) (s : Editor.t) :
  activeTools (cleanup s) = ∅ /\ annotationElements (cleanup s) = []
  /\ copyToClipboard env (cleanup s)
     = (showToast "Cannot copy empty image." false "error" (cleanup s), Refused)
  /\ saveImage env (cleanup s)
     = (showToast "Cannot save empty image." false "error" (cleanup s), Refused)
  /\ redrawCanvas (cleanup s) = cleanup s
  /\ sizeOf (Some (prepareFinalCanvas (cleanup s))) = Some (1, 1)%Z
  /\ (forall attached, cleanupListeners attached s = attached)
  /\ (forall e, canvasRect s <> None ->
        getMousePos env e (cleanup s) = None
        /\ (MouseEvent.button e = 0%Z -> handleMouseDown env e (cleanup s) = None)).
Proof.
  split; [reflexivity|]. split; [reflexivity|]. split; [reflexivity|].
  split; [reflexivity|]. split; [reflexivity|]. split; [reflexivity|].
  split; [reflexivity|].
  intros e Hrect.
  assert (getMousePos env e (cleanup s) = None) as Hpos.
  { assert (canvasRect (cleanup s) = canvasRect s) as Hr by reflexivity.
    assert (canvas (cleanup s) = None) as Hc by reflexivity.
    unfold getMousePos. rewrite Hr.
    destruct (canvasRect s) as [rect|] eqn:E; [|congruence].
    cbv beta iota. rewrite Hr, Hc. reflexivity. }
  split; [exact Hpos|].
  intros Hbutton. unfold handleMouseDown. rewrite Hbutton, Hpos. reflexivity.
Qed.

Lemma cleanup_inert_witness :
  getMousePos Scenario.env (MouseEvent.mk 10 10 0) (cleanup (Scenario.idle "crop")) = None.
Proof.
  apply (cleanup_inert Scenario.env (Scenario.idle "crop") ). discriminate.
Defined.

(* ===================================================================== *)
(** ** The display and the export *)
(* ===================================================================== *)

Lemma roundZ_above (q : Q) : q - (1 # 2) < Zq (Math.roundZ q).
Proof.
  unfold Math.roundZ. pose proof (Qlt_floor (q + (1 # 2))) as H.
  rewrite inject_Z_plus in H. change (Zq 1) with 1 in H. lra.
Qed.

Lemma overlap_le_one (lo hi : Q) (i : Z) : Canvas.overlap lo hi i <= 1.
Proof. unfold Canvas.overlap. minmax_cases; lra. Qed.

Lemma overlap_nonneg (lo hi : Q) (i : Z) : 0 <= Canvas.overlap lo hi i.
Proof. unfold Canvas.overlap. minmax_cases; lra. Qed.

(** A cell that the interval from [a] to [a + w] covers entirely is
    covered by the interval from [round a] to [round a + round w]. *)
Lemma covers_rounded (a w : Q) (i : Z) :
  0 <= w -> Canvas.overlap (Math.min a (a + w)) (Math.max a (a + w)) i == 1 ->
  covers (Math.roundZ a) (Math.roundZ w) i = true.
Proof.
  intros Hw Hfull.
  assert (a <= Zq i /\ Zq i + 1 <= a + w) as [Hlo Hhi].
  { unfold Canvas.overlap in Hfull. revert Hfull. minmax_cases; lra. }
  assert (Math.roundZ a <= i)%Z as Hleft.
  { rewrite <- (roundZ_inject i). apply roundZ_mono. exact Hlo. }
  assert (0 <= Math.roundZ w)%Z as Hwide.
  { change 0%Z with (Math.roundZ 0). apply roundZ_mono. exact Hw. }
  assert (i < Math.roundZ a + Math.roundZ w)%Z as Hright.
  { pose proof (roundZ_above a) as Ha. pose proof (roundZ_above w) as Hb.
    rewrite Zlt_Qlt, inject_Z_plus. lra. }
  unfold covers. apply andb_true_iff. split; [apply Z.leb_le | apply Z.ltb_lt]; lia.
Qed.

(** X24. The export hides what the display hides.  Every pixel that an
    annotation covers entirely on the display - where its rectangle is
    painted with its fractional coordinates - lies in the rectangle the
    export paints with rounded coordinates, and is opaque black in the
    exported canvas, although the export rounds the corner and the extent
    separately. *)
Theorem export_covers_display (s : Editor.t) (off : Canvas.t) (e : Elem.t) (i j : Z) :
  offscreenCanvas s = Some off -> validSource off = true ->
  Canvas.inside off i j = true ->
  In e (annotationElements s) -> Elem.type e = "rect" ->
  0 <= Elem.width e -> 0 <= Elem.height e ->
  Canvas.coverage (Elem.x e) (Elem.y e) (Elem.width e) (Elem.height e) i j == 1 ->
  redacts e i j = true
  /\ Rgba.eqv (Canvas.pixels (prepareFinalCanvas s) i j) Rgba.black.
Proof.
  intros Hoff Hvalid Hin He Htype Hw Hh Hfull.
  assert (redacts e i j = true) as Hred.
  { unfold redacts, covered. rewrite Htype. cbn [String.eqb andb].
    unfold Canvas.coverage in Hfull.
    pose proof (overlap_le_one (Math.min (Elem.x e) (Elem.x e + Elem.width e))
                  (Math.max (Elem.x e) (Elem.x e + Elem.width e)) i) as Ax.
    pose proof (overlap_le_one (Math.min (Elem.y e) (Elem.y e + Elem.height e))
                  (Math.max (Elem.y e) (Elem.y e + Elem.height e)) j) as Ay.
    pose proof (overlap_nonneg (Math.min (Elem.x e) (Elem.x e + Elem.width e))
                  (Math.max (Elem.x e) (Elem.x e + Elem.width e)) i) as Bx.
    pose proof (overlap_nonneg (Math.min (Elem.y e) (Elem.y e + Elem.height e))
                  (Math.max (Elem.y e) (Elem.y e + Elem.height e)) j) as By.
    assert (Canvas.overlap (Math.min (Elem.x e) (Elem.x e + Elem.width e))
              (Math.max (Elem.x e) (Elem.x e + Elem.width e)) i == 1
            /\ Canvas.overlap (Math.min (Elem.y e) (Elem.y e + Elem.height e))
                 (Math.max (Elem.y e) (Elem.y e + Elem.height e)) j == 1) as [Fx Fy].
    { revert Hfull Ax Ay Bx By.
      generalize (Canvas.overlap (Math.min (Elem.x e) (Elem.x e + Elem.width e))
                    (Math.max (Elem.x e) (Elem.x e + Elem.width e)) i)
                 (Canvas.overlap (Math.min (Elem.y e) (Elem.y e + Elem.height e))
                    (Math.max (Elem.y e) (Elem.y e + Elem.height e)) j).
      intros u v Huv Hu Hv Hu0 Hv0. split; nra. }
    rewrite (covers_rounded (Elem.x e) (Elem.width e) i Hw Fx).
    rewrite (covers_rounded (Elem.y e) (Elem.height e) j Hh Fy). reflexivity. }
  split; [exact Hred|].
  rewrite (prepareFinalCanvas_layers s off Hoff Hvalid).
  assert (Canvas.inside (prepareFinalCanvas (setAnnotationElements [] s)) i j = true) as Hin'.
  { destruct (prepareFinalCanvas_valid (setAnnotationElements [] s) off Hoff Hvalid)
      as [Hw' Hh']. unfold Canvas.inside. rewrite Hw', Hh'. exact Hin. }
  destruct (paintFinal_pixels (annotationElements s) _ i j Hin') as (Hblack & _).
  apply Hblack. apply existsb_exists. exists e. split; assumption.
Qed.

Lemma export_covers_display_witness :
  Rgba.eqv
    (Canvas.pixels
       (prepareFinalCanvas
          (Scenario.selected [Scenario.rect "anno-4" (104 # 10) (104 # 10) (56 # 10) (56 # 10)]))
       15 15)
    Rgba.black.
Proof.
  apply (export_covers_display
           (Scenario.selected [Scenario.rect "anno-4" (104 # 10) (104 # 10) (56 # 10) (56 # 10)])
           Scenario.source
           (Scenario.rect "anno-4" (104 # 10) (104 # 10) (56 # 10) (56 # 10)) 15 15);
    try reflexivity; try (left; reflexivity); try (cbn; lra); discriminate.
Defined.

(* ===================================================================== *)
(** ** The mask of the crop guides *)
(* ===================================================================== *)

Lemma Qgtb_comp (a a' b : Q) : a == a' -> Qgtb a b = Qgtb a' b.
Proof.
  intros H. unfold Qgtb. f_equal. apply Qleb_comp; [exact H | reflexivity].
Qed.

Lemma coverage_comp (x y w h x' y' w' h' : Q) (i j : Z) :
  x == x' -> y == y' -> w == w' -> h == h' ->
  Canvas.coverage x y w h i j == Canvas.coverage x' y' w' h' i j.
Proof.
  intros Hx Hy Hw Hh. unfold Canvas.coverage, Canvas.overlap, Math.min, Math.max.
  rewrite Hx, Hy, Hw, Hh. reflexivity.
Qed.

Lemma covered_spec (a b w h i j : Z) :
  (0 <= w)%Z -> (0 <= h)%Z ->
  covered a b w h i j = true <-> (a <= i < a + w)%Z /\ (b <= j < b + h)%Z.
Proof.
  intros Hw Hh. unfold covered, covers.
  rewrite !andb_true_iff, !Z.leb_le, !Z.ltb_lt. lia.
Qed.

(** A filled rectangle whose coordinates are integers: the pixel is
    painted over, or left as it is. *)
Lemma fillRect_cell (x y w h : Q) (a b c d : Z) (cv : Canvas.t) (i j : Z) :
  x == Zq a -> y == Zq b -> w == Zq c -> h == Zq d ->
  Canvas.inside cv i j = true ->
  Canvas.inside (Canvas.fillRect x y w h cv) i j = true
  /\ Canvas.fillStyle (Canvas.fillRect x y w h cv) = Canvas.fillStyle cv
  /\ (covered a b c d i j = false ->
      Canvas.pixels (Canvas.fillRect x y w h cv) i j = Canvas.pixels cv i j)
  /\ (covered a b c d i j = true ->
      Rgba.eqv (Canvas.pixels (Canvas.fillRect x y w h cv) i j)
               (Rgba.over (Canvas.fillStyle cv) (Canvas.pixels cv i j))).
Proof.
  intros Hx Hy Hw Hh Hin.
  pose proof (coverage_comp x y w h (Zq a) (Zq b) (Zq c) (Zq d) i j Hx Hy Hw Hh) as Hk.
  rewrite coverage_cell in Hk.
  unfold Canvas.fillRect, Canvas.withPixels. cbn [Canvas.pixels Canvas.fillStyle].
  split; [exact Hin|]. split; [reflexivity|]. rewrite Hin. cbn [andb].
  destruct (covered a b c d i j).
  - split; [discriminate|]. intros _.
    rewrite (Qgtb_comp _ 1 0 Hk). change (Qgtb 1 0) with true. cbv iota.
    unfold Rgba.eqv, Rgba.over, Rgba.scale. cbn. rewrite Hk. repeat split; ring.
  - split; [|discriminate]. intros _.
    rewrite (Qgtb_comp _ 0 0 Hk). reflexivity.
Qed.

Lemma clamp_inside (a n : Z) : (0 <= a <= n)%Z -> Math.max 0 (Math.min (Zq a) (Zq n)) == Zq a.
Proof.
  intros [Hlo Hhi]. apply Zq_le in Hlo, Hhi. change (Zq 0) with 0 in Hlo.
  minmax_cases; lra.
Qed.

Lemma extent_inside (w rest : Q) (c : Z) :
  (0 <= c)%Z -> Zq c <= rest -> w == Zq c -> Math.max 0 (Math.min w rest) == Zq c.
Proof.
  intros Hc Hrest Hw. apply Zq_le in Hc. change (Zq 0) with 0 in Hc.
  rewrite Hw. minmax_cases; lra.
Qed.

Ltac reflect_covered H :=
  let H1 := fresh in
  let H2 := fresh in
  destruct H as [H1 H2];
  match type of H1 with
  | true = true -> _ => specialize (H1 eq_refl); clear H2
  | false = true -> ?P =>
      clear H1; assert (~ P) as H1 by (intros HP; specialize (H2 HP); discriminate);
      clear H2
  end.

(** The four rectangles of the mask tile the complement of the
    selection: a pixel of the canvas lies in the selection and in none of
    them, or outside the selection and in exactly one. *)
Lemma mask_tiling (a b w h W H i j : Z) :
  (0 <= a)%Z -> (0 <= b)%Z -> (0 <= w)%Z -> (0 <= h)%Z ->
  (a + w <= W)%Z -> (b + h <= H)%Z -> (0 <= i < W)%Z -> (0 <= j < H)%Z ->
  let top := covered 0 0 W b i j in
  let bottom := covered 0 (b + h) W (H - (b + h)) i j in
  let left := covered 0 b a h i j in
  let right := covered (a + w) b (W - (a + w)) h i j in
  if covered a b w h i j
  then (top, bottom, left, right) = (false, false, false, false)
  else In (top, bottom, left, right)
         [ (true, false, false, false); (false, true, false, false);
           (false, false, true, false); (false, false, false, true) ].
Proof.
  intros Ha Hb Hw Hh Haw Hbh Hi Hj top bottom left right.
  pose proof (covered_spec a b w h i j Hw Hh) as S.
  pose proof (covered_spec 0 0 W b i j) as T.
  pose proof (covered_spec 0 (b + h) W (H - (b + h)) i j) as B.
  pose proof (covered_spec 0 b a h i j) as L.
  pose proof (covered_spec (a + w) b (W - (a + w)) h i j) as R.
  specialize (T ltac:(lia) ltac:(lia)). specialize (B ltac:(lia) ltac:(lia)).
  specialize (L ltac:(lia) ltac:(lia)). specialize (R ltac:(lia) ltac:(lia)).
  subst top bottom left right. cbn [In].
  destruct (covered a b w h i j); reflect_covered S;
    destruct (covered 0 0 W b i j); reflect_covered T;
    destruct (covered 0 (b + h) W (H - (b + h)) i j); reflect_covered B;
    destruct (covered 0 b a h i j); reflect_covered L;
    destruct (covered (a + w) b (W - (a + w)) h i j); reflect_covered R;
    first [ reflexivity | exfalso; lia | tauto ].
Qed.

Lemma Qgtb_Zq (n m : Z) : Qgtb (Zq n) (Zq m) = (m <? n)%Z.
Proof.
  destruct (Z.ltb_spec m n) as [H|H].
  - apply Qgtb_true. apply Zq_lt. exact H.
  - apply Qgtb_false. apply Zq_le. exact H.
Qed.

Lemma strokeBand_comp (lw x y w h x' y' w' h' : Q) (i j : Z) :
  x == x' -> y == y' -> w == w' -> h == h' ->
  strokeBand lw x y w h i j = strokeBand lw x' y' w' h' i j.
Proof.
  intros Hx Hy Hw Hh. unfold strokeBand, Qltb, Qleb. cbv zeta.
  rewrite Hx, Hy, Hw, Hh. reflexivity.
Qed.

(** A band given by integers and halves, decided on the integers. *)
Lemma strokeBand_cells (lw : Q) (r2 a b w h i j : Z) :
  lw == Zq r2 ->
  strokeBand lw (Zq a) (Zq b) (Zq w) (Zq h) i j = true ->
  (2 * a - r2 < 2 * i + 2 /\ 2 * i < 2 * (a + w) + r2
   /\ 2 * b - r2 < 2 * j + 2 /\ 2 * j < 2 * (b + h) + r2)%Z
  /\ ~ (2 * a + r2 <= 2 * i /\ 2 * i + 2 <= 2 * (a + w) - r2
        /\ 2 * b + r2 <= 2 * j /\ 2 * j + 2 <= 2 * (b + h) - r2)%Z.
Proof.
  intros Hlw. unfold strokeBand, Qdiv. cbv zeta. change (/ 2) with (1 # 2).
  rewrite !andb_true_iff, negb_true_iff, !Qltb_true.
  intros ((((A & B) & C) & D) & E).
  assert (forall p q : Z, Zq p < Zq q -> (p < q)%Z) as Hlt
    by (intros p q H; rewrite Zlt_Qlt; exact H).
  assert (forall p q : Z, Zq p <= Zq q -> (p <= q)%Z) as Hle
    by (intros p q H; rewrite Zle_Qle; exact H).
  split.
  - repeat split; apply Hlt; rewrite ?inject_Z_plus, ?inject_Z_mult, ?inject_Z_opp;
      unfold Z.sub; rewrite ?inject_Z_plus, ?inject_Z_mult, ?inject_Z_opp;
      rewrite <- Hlw; change (Zq 2) with 2; lra.
  - intros (F & G & K & L).
    assert (Qleb (Zq a + lw * (1 # 2)) (Zq i)
            && Qleb (Zq i + 1) (Zq a + Zq w - lw * (1 # 2))
            && Qleb (Zq b + lw * (1 # 2)) (Zq j)
            && Qleb (Zq j + 1) (Zq b + Zq h - lw * (1 # 2)) = true)
      as E'; [|rewrite E' in E; discriminate].
    apply Zq_le in F, G, K, L.
    rewrite !andb_true_iff, !Qleb_true.
    revert F G K L. unfold Z.sub.
    rewrite ?inject_Z_plus, ?inject_Z_mult, ?inject_Z_opp, ?inject_Z_plus, ?inject_Z_mult.
    rewrite <- Hlw. change (Zq 2) with 2. intros F G K L.
    repeat split; lra.
Qed.


Lemma strokeBand_off (lw x y w h : Q) (r2 a b c d i j : Z) :
  lw == Zq r2 -> x == Zq a -> y == Zq b -> w == Zq c -> h == Zq d ->
  ((2 * i + 2 <= 2 * a - r2 \/ 2 * (a + c) + r2 <= 2 * i
    \/ 2 * j + 2 <= 2 * b - r2 \/ 2 * (b + d) + r2 <= 2 * j)
   \/ (2 * a + r2 <= 2 * i /\ 2 * i + 2 <= 2 * (a + c) - r2
       /\ 2 * b + r2 <= 2 * j /\ 2 * j + 2 <= 2 * (b + d) - r2))%Z ->
  strokeBand lw x y w h i j = false.
Proof.
  intros Hlw Hx Hy Hw Hh Hoff.
  rewrite (strokeBand_comp lw x y w h (Zq a) (Zq b) (Zq c) (Zq d) i j Hx Hy Hw Hh).
  destruct (strokeBand lw (Zq a) (Zq b) (Zq c) (Zq d) i j) eqn:E; [|reflexivity].
  exfalso. apply (strokeBand_cells lw r2 a b c d i j Hlw) in E.
  destruct E as [E1 E2]. destruct Hoff as [Hout|Hin]; [lia | exact (E2 Hin)].
Qed.

Lemma onBorder_spec (a b w h i j : Z) :
  (0 <= w)%Z -> (0 <= h)%Z -> onBorder a b w h i j = false ->
  ((i < a - 2 \/ a + w + 2 <= i \/ j < b - 2 \/ b + h + 2 <= j)
   \/ (a + 1 <= i < a + w - 1 /\ b + 1 <= j < b + h - 1))%Z.
Proof.
  intros Hw Hh. unfold onBorder.
  pose proof (covered_spec (a - 2) (b - 2) (w + 4) (h + 4) i j ltac:(lia) ltac:(lia)) as S.
  destruct (covered (a - 2) (b - 2) (w + 4) (h + 4) i j); reflect_covered S.
  - cbn [andb]. rewrite negb_false_iff, !andb_true_iff, !Z.leb_le, !Z.ltb_lt.
    intros Hinner. right. lia.
  - intros _. left. lia.
Qed.

Section Mask.
Variable strokeRect :
  list Q -> string -> Q -> Q -> Q -> Q -> Q -> Canvas.t -> Canvas.t.
Hypothesis strokes_local : strokesLocal strokeRect.
Variables i j : Z.

(** A stroke whose band does not reach the pixel. *)
Lemma stroke_misses (dash : list Q) (style : string) (lw x y w h : Q) (c : Canvas.t) :
  0 <= lw -> 0 <= w -> 0 <= h -> strokeBand lw x y w h i j = false ->
  Canvas.inside (strokeRect dash style lw x y w h c) i j = Canvas.inside c i j
  /\ Canvas.pixels (strokeRect dash style lw x y w h c) i j = Canvas.pixels c i j.
Proof.
  intros Hlw Hw Hh Hband.
  destruct (strokes_local dash style lw x y w h c Hlw Hw Hh) as (Ew & Eh & Hpx).
  split; [unfold Canvas.inside; rewrite Ew, Eh; reflexivity | exact (Hpx i j Hband)].
Qed.

(** A handle that does not reach the pixel. *)
Lemma handle_misses (cx cy : Q) (a b : Z) (c : Canvas.t) :
  cx == Zq a -> cy == Zq b -> covered (a - 5) (b - 5) 10 10 i j = false ->
  Canvas.inside c i j = true ->
  let c' := strokeRect [] "#FFFFFF" 1 (cx - 8 / 2) (cy - 8 / 2) 8 8
              (Canvas.fillRect (cx - 8 / 2) (cy - 8 / 2) 8 8 c) in
  Canvas.inside c' i j = true /\ Canvas.pixels c' i j = Canvas.pixels c i j.
Proof.
  intros Hx Hy Hmiss Hin c'. subst c'.
  assert (cx - 8 / 2 == Zq (a - 4)) as Hx4.
  { rewrite Hx. unfold Z.sub. rewrite inject_Z_plus. change (Zq (- (4))) with (- (4)). field. }
  assert (cy - 8 / 2 == Zq (b - 4)) as Hy4.
  { rewrite Hy. unfold Z.sub. rewrite inject_Z_plus. change (Zq (- (4))) with (- (4)). field. }
  pose proof (covered_spec (a - 5) (b - 5) 10 10 i j ltac:(lia) ltac:(lia)) as S.
  rewrite Hmiss in S. reflect_covered S.
  assert (covered (a - 4) (b - 4) 8 8 i j = false) as Hfill.
  { pose proof (covered_spec (a - 4) (b - 4) 8 8 i j ltac:(lia) ltac:(lia)) as T.
    destruct (covered (a - 4) (b - 4) 8 8 i j); reflect_covered T; [exfalso; lia | reflexivity]. }
  destruct (stroke_misses [] "#FFFFFF" 1 (cx - 8 / 2) (cy - 8 / 2) 8 8
              (Canvas.fillRect (cx - 8 / 2) (cy - 8 / 2) 8 8 c)) as [-> ->];
    try discriminate.
  - apply (strokeBand_off 1 _ _ _ _ 1 (a - 4) (b - 4) 8 8 i j);
      [reflexivity | exact Hx4 | exact Hy4 | reflexivity | reflexivity |].
    left. lia.
  - destruct (fillRect_cell (cx - 8 / 2) (cy - 8 / 2) 8 8 (a - 4) (b - 4) 8 8 c i j)
      as (Hin' & _ & Hsame & _); try reflexivity; try assumption.
    split; [exact Hin' | exact (Hsame Hfill)].
Qed.

Lemma drawCornerHandles_misses (x y w h : Q) (a b c d : Z) (cv : Canvas.t) :
  x == Zq a -> y == Zq b -> w == Zq c -> h == Zq d ->
  existsb (fun '(cx, cy) => covered (cx - 5) (cy - 5) 10 10 i j) (corners a b c d) = false ->
  Canvas.inside cv i j = true ->
  Canvas.pixels (drawCornerHandles strokeRect x y w h cv) i j = Canvas.pixels cv i j.
Proof.
  intros Hx Hy Hw Hh Hmiss Hin. unfold corners in Hmiss. cbn [existsb] in Hmiss.
  repeat (apply orb_false_iff in Hmiss; destruct Hmiss as [? Hmiss]).
  assert (x + w == Zq (a + c)) as Hxw by (rewrite Hx, Hw, inject_Z_plus; reflexivity).
  assert (y + h == Zq (b + d)) as Hyh by (rewrite Hy, Hh, inject_Z_plus; reflexivity).
  unfold drawCornerHandles. cbn [fold_left].
  assert (Canvas.inside (Canvas.setFillStyle "#007AFF" cv) i j = true
          /\ Canvas.pixels (Canvas.setFillStyle "#007AFF" cv) i j = Canvas.pixels cv i j)
    as [Hin0 <-].
  { unfold Canvas.setFillStyle. destruct (Css.parse "#007AFF"); split; assumption || reflexivity. }
  generalize dependent (Canvas.setFillStyle "#007AFF" cv). intros c0 Hin0.
  destruct (handle_misses x y a b c0 Hx Hy ltac:(assumption) Hin0) as [Hin1 <-].
  destruct (handle_misses (x + w) y (a + c) b _ Hxw Hy ltac:(assumption) Hin1) as [Hin2 E2].
  destruct (handle_misses x (y + h) a (b + d) _ Hx Hyh ltac:(assumption) Hin2) as [Hin3 E3].
  destruct (handle_misses (x + w) (y + h) (a + c) (b + d) _ Hxw Hyh ltac:(assumption) Hin3)
    as [Hin4 E4].
  rewrite E4, E3, E2. reflexivity.
Qed.

(** X25. The mask of the crop guides.  For a selection with integer
    corners inside the canvas, the four dimming rectangles tile the
    complement of the selection: at every pixel outside the bands of the
    two borders and off the corner handles, a pixel inside the selection
    shows exactly what the redraw shows, and a pixel outside it shows the
    redraw dimmed once by [rgba(0, 0, 0, 0.4)] - never twice, never not
    at all.  Of the rasteriser of strokes only locality is required:
    that a stroke changes no pixel outside its band. *)
Theorem drawCropGuides_mask (s : Editor.t) (c0 c1 : Canvas.t) (a b w h : Z) :
  canvas s = Some c0 -> canvas (redrawCanvas s) = Some c1 ->
  (0 <= a)%Z -> (0 <= b)%Z -> (0 <= w)%Z -> (0 <= h)%Z ->
  (a + w <= Canvas.width c0)%Z -> (b + h <= Canvas.height c0)%Z ->
  Canvas.inside c0 i j = true ->
  onBorder a b w h i j = false -> underHandle a b w h i j = false ->
  exists c',
    canvas (drawCropGuides strokeRect (Zq a) (Zq b) (Zq w) (Zq h) s) = Some c'
    /\ if covered a b w h i j
       then Canvas.pixels c' i j = Canvas.pixels c1 i j
       else Rgba.eqv (Canvas.pixels c' i j)
                     (Rgba.over maskColour (Canvas.pixels c1 i j)).
Proof.
  intros Hc0 Hc1 Ha Hb Hw Hh Haw Hbh Hin Hborder Hhandle.
  apply (onBorder_spec a b w h i j Hw Hh) in Hborder.
  pose proof (redrawCanvas_size s) as Hsize. rewrite Hc0, Hc1 in Hsize.
  cbn [sizeOf option_map] in Hsize. injection Hsize as Hw1 Hh1.
  assert (Canvas.inside c1 i j = true) as Hin1
    by (unfold Canvas.inside in *; rewrite Hw1, Hh1; exact Hin).
  apply inside_bounds in Hin. destruct Hin as [Hi Hj].
  unfold drawCropGuides. rewrite Hc0. cbv zeta. rewrite Hc1.
  cbn [canvas setCanvas]. eexists. split; [reflexivity|].
  set (W := Canvas.width c0) in *. set (H := Canvas.height c0) in *.
  set (X := Math.max 0 (Math.min (Zq a) (Zq W))).
  set (Y := Math.max 0 (Math.min (Zq b) (Zq H))).
  set (Wd := Math.max 0 (Math.min (Zq w) (Zq W - X))).
  set (Hd := Math.max 0 (Math.min (Zq h) (Zq H - Y))).
  assert (X == Zq a) as HX by (apply clamp_inside; lia).
  assert (Y == Zq b) as HY by (apply clamp_inside; lia).
  assert (Wd == Zq w) as HWd.
  { apply extent_inside; [exact Hw | | reflexivity].
    rewrite HX. unfold Qminus. rewrite <- inject_Z_opp, <- inject_Z_plus. apply Zq_le. lia. }
  assert (Hd == Zq h) as HHd.
  { apply extent_inside; [exact Hh | | reflexivity].
    rewrite HY. unfold Qminus. rewrite <- inject_Z_opp, <- inject_Z_plus. apply Zq_le. lia. }
  clearbody X Y Wd Hd.
  assert (0 <= Wd /\ 0 <= Hd) as [HWd0 HHd0].
  { rewrite HWd, HHd. split; apply (Zq_le 0); assumption. }
  (* the mask *)
  set (m0 := Canvas.setFillStyle "rgba(0, 0, 0, 0.4)" c1).
  assert (Canvas.inside m0 i j = true /\ Canvas.fillStyle m0 = maskColour
          /\ Canvas.pixels m0 i j = Canvas.pixels c1 i j) as (I0 & F0 & P0)
    by (split; [exact Hin1 | split; reflexivity]).
  clearbody m0.
  destruct (fillRect_cell 0 0 (Zq W) Y 0 0 W b m0 i j) as (I1 & F1 & N1 & M1);
    [reflexivity | reflexivity | reflexivity | exact HY | exact I0 |].
  set (m1 := Canvas.fillRect 0 0 (Zq W) Y m0) in *. clearbody m1.
  destruct (fillRect_cell 0 (Y + Hd) (Zq W) (Zq H - (Y + Hd)) 0 (b + h) W (H - (b + h)) m1 i j)
    as (I2 & F2 & N2 & M2);
    [reflexivity | rewrite HY, HHd, inject_Z_plus; reflexivity | reflexivity
     | rewrite HY, HHd; unfold Z.sub, Qminus;
       rewrite !inject_Z_plus, inject_Z_opp, inject_Z_plus; reflexivity
     | exact I1 |].
  set (m2 := Canvas.fillRect 0 (Y + Hd) (Zq W) (Zq H - (Y + Hd)) m1) in *. clearbody m2.
  destruct (fillRect_cell 0 Y X Hd 0 b a h m2 i j) as (I3 & F3 & N3 & M3);
    [reflexivity | exact HY | exact HX | exact HHd | exact I2 |].
  set (m3 := Canvas.fillRect 0 Y X Hd m2) in *. clearbody m3.
  destruct (fillRect_cell (X + Wd) Y (Zq W - (X + Wd)) Hd (a + w) b (W - (a + w)) h m3 i j)
    as (I4 & F4 & N4 & M4);
    [rewrite HX, HWd, inject_Z_plus; reflexivity | exact HY
     | rewrite HX, HWd; unfold Z.sub, Qminus;
       rewrite !inject_Z_plus, inject_Z_opp, inject_Z_plus; reflexivity
     | exact HHd | exact I3 |].
  set (m4 := Canvas.fillRect (X + Wd) Y (Zq W - (X + Wd)) Hd m3) in *. clearbody m4.
  (* the two borders *)
  destruct (stroke_misses [4; 4] "#FFFFFF" 1 X Y Wd Hd m4) as [I5 P5];
    [discriminate | exact HWd0 | exact HHd0 | |].
  { apply (strokeBand_off 1 X Y Wd Hd 1 a b w h i j);
      [reflexivity | exact HX | exact HY | exact HWd | exact HHd |].
    destruct Hborder as [Hout|Hinner]; [left | right]; lia. }
  set (m5 := strokeRect [4; 4] "#FFFFFF" 1 X Y Wd Hd m4) in *. clearbody m5.
  destruct (stroke_misses [] "#007AFF" 2 (X - 1) (Y - 1) (Wd + 2) (Hd + 2) m5) as [I6 P6];
    [discriminate | lra | lra | |].
  { apply (strokeBand_off 2 _ _ _ _ 2 (a - 1) (b - 1) (w + 2) (h + 2) i j).
    - reflexivity.
    - rewrite HX. unfold Z.sub. rewrite inject_Z_plus. reflexivity.
    - rewrite HY. unfold Z.sub. rewrite inject_Z_plus. reflexivity.
    - rewrite HWd, inject_Z_plus. reflexivity.
    - rewrite HHd, inject_Z_plus. reflexivity.
    - destruct Hborder as [Hout|Hinner]; [left | right]; lia. }
  set (m6 := strokeRect [] "#007AFF" 2 (X - 1) (Y - 1) (Wd + 2) (Hd + 2) m5) in *.
  clearbody m6. rewrite I5, I4 in I6.
  (* the handles *)
  assert (Canvas.pixels
            (if Qgtb Wd 10 && Qgtb Hd 10
             then drawCornerHandles strokeRect X Y Wd Hd m6 else m6) i j
          = Canvas.pixels m4 i j) as ->.
  { rewrite <- P5, <- P6.
    rewrite (Qgtb_comp Wd (Zq w) 10 HWd), (Qgtb_comp Hd (Zq h) 10 HHd).
    change 10 with (Zq 10). rewrite !Qgtb_Zq.
    unfold underHandle in Hhandle.
    destruct ((10 <? w)%Z && (10 <? h)%Z); [|reflexivity].
    cbn [andb] in Hhandle.
    apply (drawCornerHandles_misses X Y Wd Hd a b w h m6 HX HY HWd HHd Hhandle I6). }
  (* the tiling *)
  pose proof (mask_tiling a b w h W H i j Ha Hb Hw Hh Haw Hbh Hi Hj) as Htile.
  cbv zeta in Htile. rewrite F3, F2, F1, F0 in M4. rewrite F2, F1, F0 in M3.
  rewrite F1, F0 in M2. rewrite F0 in M1.
  destruct (covered a b w h i j).
  - injection Htile as T B L R.
    rewrite (N4 R), (N3 L), (N2 B), (N1 T). exact P0.
  - destruct Htile as [E|[E|[E|[E|[]]]]]; injection E as T B L R;
      symmetry in T, B, L, R.
    + rewrite (N4 R), (N3 L), (N2 B), <- P0. exact (M1 T).
    + rewrite (N4 R), (N3 L), <- P0, <- (N1 T). exact (M2 B).
    + rewrite (N4 R), <- P0, <- (N1 T), <- (N2 B). exact (M3 L).
    + rewrite <- P0, <- (N1 T), <- (N2 B), <- (N3 L). exact (M4 R).
Qed.

End Mask.

Lemma solidStroke_local : strokesLocal solidStroke.
Proof.
  intros dash style lw x y w h c _ _ _. split; [reflexivity|]. split; [reflexivity|].
  intros i j Hband. unfold solidStroke, Canvas.withPixels. cbn [Canvas.pixels].
  rewrite Hband, andb_false_r. reflexivity.
Qed.

Lemma drawCropGuides_mask_witness :
  exists c',
    canvas (drawCropGuides solidStroke 100 100 200 150 (Scenario.idle "crop")) = Some c'
    /\ Rgba.eqv (Canvas.pixels c' 50 120) (Rgba.over maskColour Rgba.white)
    /\ Rgba.eqv (Canvas.pixels c' 99 120) (Rgba.mk 0 (122 # 255) 1 1).
Proof.
  assert (exists c1, canvas (redrawCanvas (Scenario.idle "crop")) = Some c1
                     /\ Canvas.pixels c1 50 120 = Rgba.white) as (c1 & Hc1 & Hpx).
  { eexists. split; [reflexivity|]. vm_compute. reflexivity. }
  destruct (drawCropGuides_mask solidStroke solidStroke_local 50 120 (Scenario.idle "crop")
              Scenario.display c1 100 100 200 150 eq_refl Hc1)
    as (c' & Hc' & Hpixel); try (cbn; lia); try reflexivity.
  exists c'. split; [exact Hc'|]. split; [rewrite <- Hpx; exact Hpixel|].
  revert Hc'. unfold drawCropGuides. cbn [canvas Scenario.idle].
  intros Hc'. injection Hc' as <-. vm_compute. repeat split; reflexivity.
Defined.
